(** * Scene state synchronisation of the BIM viewer

    Shallow embedding of the viewer-state logic of the repository:
    - [components/datalab/Viewer3D.tsx]: the entity lookup, the appearance
      ledger ([originalColorsRef]), [selectElements], [hideElements],
      [showElements], [isolateElements], the visibility and isolation
      effects and the scene-readiness poll [waitForViewerReady];
    - [app/.../viewer/page.tsx]: the selection entry point
      [handleElementSelect] of the page that owns the viewer state.

    JavaScript values are modelled as the code touches them: strings as
    [string], arrays of ids as [list string], the [Map] of original
    colours as a [gmap], colour components as rationals, and the live
    objects of the rendering engine as records whose members may or may
    not exist on a given engine build.

    Beyond these the development covers the picked handler and the
    modifier tracking of [Viewer3D.tsx], its x-ray and display-mode
    operations, the bring-up [initViewer] after the readiness poll, the
    other handlers of the page and the click handlers of the element
    tree in [components/datalab/ViewerGroups.tsx]. *)

From Stdlib Require Import Ascii String QArith Qabs.
From stdpp Require Import gmap strings list fin_maps.

Open Scope string_scope.

(* ===================================================================== *)
(** ** JavaScript strings *)
(* ===================================================================== *)

(** [s.startsWith(p)] *)
Definition startsWith (s p : string) : bool := String.prefix p s.

(** [s.endsWith(suf)] *)
Definition endsWith (s suf : string) : bool :=
  let n := String.length s in
  let m := String.length suf in
  (m <=? n)%nat && String.eqb (String.substring (n - m) m s) suf.

(** [s.split('#').pop()]: the text after the last ['#'], the whole string
    when it has none.  [acc] is the segment read so far. *)
Fixpoint split_pop_from (acc s : string) : string :=
  match s with
  | EmptyString => acc
  | String c rest =>
      if Ascii.eqb c "#"%char then split_pop_from "" rest
      else split_pop_from (acc +:+ String c "") rest
  end.

Definition split_pop (s : string) : string := split_pop_from "" s.

(** The names every ordinary object inherits from [Object.prototype]:
    for such a [k] the read [o[k]] yields a function or an object, which
    is truthy, also when [k] is not a key of [o].  The scene registry,
    the registry of the model and the JSON-parsed [metadata.elements]
    are ordinary objects. *)
Definition inheritedMember (k : string) : bool :=
  bool_decide
    (k ∈ ["constructor"; "hasOwnProperty"; "isPrototypeOf";
          "propertyIsEnumerable"; "toLocaleString"; "toString"; "valueOf";
          "__proto__"; "__defineGetter__"; "__defineSetter__";
          "__lookupGetter__"; "__lookupSetter__"]).

(** The template literal [`${modelId}#${elementId}`]. *)
Definition compositeKey (modelId elementId : string) : string :=
  modelId +:+ "#" +:+ elementId.

(* ===================================================================== *)
(** ** Colour values *)
(* ===================================================================== *)

(** A value found in a colour member.  Arrays assigned to a member are
    never written in place by the viewer, so they are kept by value.  The
    one object the viewer does write in place is an object's own
    [material.color]; a value that is that very object is the reference
    [VMaterialColor], read through the object that owns it. *)
Inductive JsVal : Type :=
| VNull                          (* null *)
| VArray (comps : list Q)        (* a plain Array of numbers *)
| VFloat32 (comps : list Q)      (* a Float32Array *)
| VObject (comps : list Q)       (* any other non-null object (a colour
                                    instance with its components, a
                                    function with none) *)
| VMaterialColor.                (* the owner's material.color object *)

(** The object held by [material.color]: what kind of object it is, which
    mutators it carries and its current components. *)
Record ColorObj : Type := {
  co_isArray : bool;             (* Array.isArray(material.color) *)
  co_isFloat32 : bool;           (* material.color instanceof Float32Array *)
  co_setRGB : bool;              (* typeof material.color.setRGB === 'function' *)
  co_set : bool;                 (* typeof material.color.set === 'function' *)
  co_copy : bool;                (* typeof material.color.copy === 'function' *)
  co_comps : list Q
}.

(** [material.colorize]: undefined, a method (with the colour it was last
    called with) or a data member (possibly null). *)
Inductive MatColorize : Type :=
| MCUndef
| MCMethod (last : JsVal)
| MCProp (v : JsVal).

(** [material.color]: undefined, null or an object. *)
Inductive MatColor : Type :=
| MKUndef
| MKNull
| MKObj (o : ColorObj).

Record Material : Type := {
  mat_colorize : MatColorize;
  mat_color : MatColor
}.

(** [const blueColor = [0.23, 0.51, 0.96]] *)
Definition blueR : Q := 23 # 100.
Definition blueG : Q := 51 # 100.
Definition blueB : Q := 96 # 100.
Definition blueColor : JsVal := VArray [blueR; blueG; blueB].

(** [Math.abs(x - b) < 0.01].  Components are IEEE doubles in the source;
    the comparison is taken over the rationals, which agrees with the
    doubles except within rounding of the bound itself: a component
    written 0.24 is exactly 0.01 from 0.23 here and counts as different,
    while the difference of the two doubles falls just below 0.01. *)
Definition near (x b : Q) : bool := negb (Qle_bool (1 # 100) (Qabs (x - b))).

(** The three-component test of the source; a missing component is
    [undefined] there, which makes the comparison false. *)
Definition isBlueComps (comps : list Q) : bool :=
  match comps with
  | r :: g :: b :: _ => near r blueR && near g blueG && near b blueB
  | _ => false
  end.

(** [c[0], c[1], c[2]] of an array-like; an absent component reads 0
    here (it is [undefined] in the source, and is never compared). *)
Definition rgbOf (comps : list Q) : list Q :=
  [nth 0 comps 0%Q; nth 1 comps 0%Q; nth 2 comps 0%Q].

(** Writing the first three components and keeping the others. *)
Definition writeRGB (rgb comps : list Q) : list Q :=
  rgbOf rgb ++ drop 3 comps.

(* ===================================================================== *)
(** ** The rendering engine surface *)
(* ===================================================================== *)

(** [entity.colorize]: undefined, a method (whose value is readable
    through [entity._colorize] when [backing] holds) or a data member. *)
Inductive ColorizeKind : Type :=
| CzAbsent
| CzMethod (backing : bool)
| CzProp.

(** Which members a live object exposes; fixed for the life of the
    object. *)
Record EntityCaps : Type := {
  cap_visible : bool;            (* entity.visible !== undefined *)
  cap_setVisible : bool;         (* typeof entity.setVisible === 'function' *)
  cap_culled : bool;             (* entity.culled !== undefined *)
  cap_setCulled : bool;          (* typeof entity.setCulled === 'function' *)
  cap_colorize : ColorizeKind;
  cap_highlighted : bool;        (* entity.highlighted !== undefined *)
  cap_highlight : bool           (* typeof entity.highlight === 'function' *)
}.

(** Modelled from the spec: the live objects of the external rendering
    engine (section 6, "rendering engine surface"), which is not part of
    the repository.  An object is registered in [scene.objects] under its
    own [id], a non-empty string, so [entity.id || entity.entityId] is
    [entity.id].  It has one visibility state, reached through whichever
    of [visible], [setVisible], [culled], [setCulled] the build exposes,
    a selection flag, a colorize override, a highlight flag, the colour
    last passed to [highlight()], and an optional material. *)
Record Entity : Type := {
  id : string;
  caps : EntityCaps;
  visible : bool;
  selected : bool;
  colorizeV : JsVal;
  highlightedV : bool;
  highlightColor : JsVal;
  material : option Material
}.

(** Modelled from the spec: the scene of the external engine (section 6):
    the keyed registry of live objects, in the order [Object.keys]
    enumerates it, and which batch mutators the build provides.
    [setObjectsSelected] is called without a probe by the source and is
    taken to exist. *)
Record Scene : Type := {
  objects : list Entity;
  has_setObjectsColorized : bool;
  has_setObjectsVisible : bool;
  has_setObjectsHighlighted : bool
}.

(** Modelled from the spec: the loaded model ([modelRef.current]): its id,
    whether it has a batch visibility mutator, and the keys of its own
    registry [model.objects] when it has one (the model's objects are
    registered there under the same keys as in the scene). *)
Record Model : Type := {
  model_id : string;
  model_has_setObjectsVisible : bool;
  model_objects : option (list string)
}.

(** *** Field updates *)

Definition set_visible (b : bool) (e : Entity) : Entity :=
  {| id := id e; caps := caps e; visible := b; selected := selected e;
     colorizeV := colorizeV e; highlightedV := highlightedV e;
     highlightColor := highlightColor e; material := material e |}.

Definition set_selected (b : bool) (e : Entity) : Entity :=
  {| id := id e; caps := caps e; visible := visible e; selected := b;
     colorizeV := colorizeV e; highlightedV := highlightedV e;
     highlightColor := highlightColor e; material := material e |}.

Definition set_colorizeV (c : JsVal) (e : Entity) : Entity :=
  {| id := id e; caps := caps e; visible := visible e; selected := selected e;
     colorizeV := c; highlightedV := highlightedV e;
     highlightColor := highlightColor e; material := material e |}.

Definition set_highlightedV (b : bool) (e : Entity) : Entity :=
  {| id := id e; caps := caps e; visible := visible e; selected := selected e;
     colorizeV := colorizeV e; highlightedV := b;
     highlightColor := highlightColor e; material := material e |}.

Definition set_highlightColor (c : JsVal) (e : Entity) : Entity :=
  {| id := id e; caps := caps e; visible := visible e; selected := selected e;
     colorizeV := colorizeV e; highlightedV := highlightedV e;
     highlightColor := c; material := material e |}.

Definition set_material (m : option Material) (e : Entity) : Entity :=
  {| id := id e; caps := caps e; visible := visible e; selected := selected e;
     colorizeV := colorizeV e; highlightedV := highlightedV e;
     highlightColor := highlightColor e; material := m |}.

Definition set_objects (objs : list Entity) (sc : Scene) : Scene :=
  {| objects := objs;
     has_setObjectsColorized := has_setObjectsColorized sc;
     has_setObjectsVisible := has_setObjectsVisible sc;
     has_setObjectsHighlighted := has_setObjectsHighlighted sc |}.

(** *** The registry *)

(** [Object.keys(scene.objects)] *)
Definition keys (objs : list Entity) : list string := map id objs.

(** [scene.objects[k]] *)
Definition lookupObj (k : string) (objs : list Entity) : option Entity :=
  find (fun e => bool_decide (id e = k)) objs.

(** Whether [scene.objects[k]] is an object (truthy), for a key [k]
    that is not an [inheritedMember]: the registry is read here by its
    own keys only.  For an inherited name the source's read finds the
    inherited function instead, which is no entity; the lookups of the
    model say nothing of what the source does with it, and the
    statements about the lookup itself exclude such names. *)
Definition hasKey (k : string) (objs : list Entity) : bool :=
  bool_decide (is_Some (lookupObj k objs)).

(** A write to the object held under handle [h]: every reference to that
    object sees it. *)
Definition upd (h : string) (f : Entity -> Entity) (objs : list Entity)
  : list Entity :=
  map (fun e => if bool_decide (id e = h) then f e else e) objs.

(** [handles.forEach(h => f(h))] for a write [f] that needs no other
    state. *)
Definition forEachUpd (hs : list string) (f : Entity -> Entity)
  (objs : list Entity) : list Entity :=
  foldl (fun os h => upd h f os) objs hs.

(** The batch mutators of the scene (and of the model): the given objects
    get the given state. *)
Definition setObjectsSelected (hs : list string) (b : bool)
  (objs : list Entity) : list Entity :=
  forEachUpd hs (set_selected b) objs.

Definition setObjectsVisible (hs : list string) (b : bool)
  (objs : list Entity) : list Entity :=
  forEachUpd hs (set_visible b) objs.

Definition setObjectsColorized (hs : list string) (c : JsVal)
  (objs : list Entity) : list Entity :=
  forEachUpd hs (set_colorizeV c) objs.

Definition setObjectsHighlighted (hs : list string) (b : bool)
  (objs : list Entity) : list Entity :=
  forEachUpd hs (set_highlightedV b) objs.

(** [scene.selectedObjects], as the array the source turns it into. *)
Definition selectedArray (objs : list Entity) : list string :=
  keys (filter (fun e => selected e = true) objs).

(* ===================================================================== *)
(** ** Entity lookup *)
(* ===================================================================== *)

(** The lookup of [selectElements] and [hideElements] for one element id:
    the composite key, then the bare key, then the first key that
    [Object.keys(...).find] accepts. *)
Definition resolveEntity (m : Model) (objs : list Entity)
  (elementId : string) : option string :=
  let entityId := compositeKey (model_id m) elementId in
  if hasKey entityId objs then Some entityId
  else if hasKey elementId objs then Some elementId
  else
    find (fun key => endsWith key ("#" +:+ elementId)
                     || bool_decide (key = elementId))
         (keys objs).

(** [elementIds.forEach(...)] collecting the found entities: an id that
    resolves to nothing is logged and skipped. *)
Definition resolveAll (m : Model) (objs : list Entity)
  (elementIds : list string) : list string :=
  omap (resolveEntity m objs) elementIds.

(** The lookup of [showElements]: the same chain, then the model's own
    registry under the composite and the bare key. *)
Definition resolveEntityShow (m : Model) (objs : list Entity)
  (elementId : string) : option string :=
  match resolveEntity m objs elementId with
  | Some h => Some h
  | None =>
      match model_objects m with
      | Some mkeys =>
          let modelEntityId := compositeKey (model_id m) elementId in
          if bool_decide (modelEntityId ∈ mkeys) then Some modelEntityId
          else if bool_decide (elementId ∈ mkeys) then Some elementId
          else None
      | None => None
      end
  end.

(** The lookup of [isolateElements]: the composite key only. *)
Definition resolveEntityIsolate (m : Model) (objs : list Entity)
  (elementId : string) : option string :=
  let entityId := compositeKey (model_id m) elementId in
  if hasKey entityId objs then Some entityId else None.

(* ===================================================================== *)
(** ** Reading and writing colours *)
(* ===================================================================== *)

Definition isNull (v : JsVal) : bool :=
  match v with VNull => true | _ => false end.

(** The object behind [VMaterialColor] for a given owner. *)
Definition materialColorObj (e : Entity) : option ColorObj :=
  match material e with
  | Some m => match mat_color m with MKObj o => Some o | _ => None end
  | None => None
  end.

(** [Array.isArray(v)] *)
Definition isArrayVal (e : Entity) (v : JsVal) : bool :=
  match v with
  | VArray _ => true
  | VMaterialColor => from_option co_isArray false (materialColorObj e)
  | _ => false
  end.

(** [v instanceof Float32Array] *)
Definition isFloat32Val (e : Entity) (v : JsVal) : bool :=
  match v with
  | VFloat32 _ => true
  | VMaterialColor => from_option co_isFloat32 false (materialColorObj e)
  | _ => false
  end.

(** The components a value currently has. *)
Definition compsOf (e : Entity) (v : JsVal) : list Q :=
  match v with
  | VNull => []
  | VArray c | VFloat32 c | VObject c => c
  | VMaterialColor => from_option co_comps [] (materialColorObj e)
  end.

(** [getEntityColor]: the ordered probe of [entity.colorize] (through
    [entity._colorize] when it is a method), [entity.material.colorize]
    and [entity.material.color], with the highlight colour of an array
    reported as null. *)
Definition getEntityColor (e : Entity) : JsVal :=
  let c1 :=
    match cap_colorize (caps e) with
    | CzAbsent => VNull
    | CzMethod backing => if backing then colorizeV e else VNull
    | CzProp => colorizeV e
    end in
  let c2 :=
    if isNull c1 then
      match material e with
      | Some m =>
          match mat_colorize m with
          | MCUndef => c1
          | MCMethod _ => VObject []
          | MCProp v => v
          end
      | None => c1
      end
    else c1 in
  let c3 :=
    if isNull c2 then
      match material e with
      | Some m =>
          match mat_color m with
          | MKUndef => c2
          | MKNull => VNull
          | MKObj _ => VMaterialColor
          end
      | None => c2
      end
    else c2 in
  if negb (isNull c3) && isArrayVal e c3
     && (3 <=? length (compsOf e c3))%nat && isBlueComps (compsOf e c3)
  then VNull
  else c3.

(** The value [selectElements] puts in the ledger for an object without a
    record: [getEntityColor], with the highlight colour of an array or a
    Float32Array replaced by null. *)
Definition colorToSave (e : Entity) : JsVal :=
  let originalColor := getEntityColor e in
  if negb (isNull originalColor)
     && (isArrayVal e originalColor || isFloat32Val e originalColor)
     && isBlueComps (compsOf e originalColor)
  then VNull
  else originalColor.

(** [if (entity.material.colorize)] *)
Definition matColorizeTruthy (m : Material) : bool :=
  match mat_colorize m with
  | MCUndef => false
  | MCMethod _ => true
  | MCProp v => negb (isNull v)
  end.

(** [material.colorize(c)] when it is a method, [material.colorize = c]
    otherwise. *)
Definition writeMatColorize (c : JsVal) (m : Material) : Material :=
  {| mat_colorize :=
       match mat_colorize m with
       | MCMethod _ => MCMethod c
       | _ => MCProp c
       end;
     mat_color := mat_color m |}.

(** A write into the components of the [material.color] object. *)
Definition writeMatColorComps (comps : list Q) (o : ColorObj) (m : Material)
  : Material :=
  {| mat_colorize := mat_colorize m;
     mat_color :=
       MKObj {| co_isArray := co_isArray o; co_isFloat32 := co_isFloat32 o;
                co_setRGB := co_setRGB o; co_set := co_set o;
                co_copy := co_copy o; co_comps := comps |} |}.

(** [entity.colorize(c)] when it is a method, [entity.colorize = c] when
    it is a data member, nothing when it is undefined. *)
Definition writeColorize (c : JsVal) (e : Entity) : Entity :=
  match cap_colorize (caps e) with
  | CzMethod _ => set_colorizeV c e
  | CzProp => set_colorizeV c e
  | CzAbsent => e
  end.

(** [scene.setObjectsColorized([entity], c)] when the scene has it. *)
Definition sceneColorizeOne (sc : Scene) (c : JsVal) (e : Entity) : Entity :=
  if has_setObjectsColorized sc then set_colorizeV c e else e.

(** The material step of [restoreEntityColor] ("Метод 2"). *)
Definition restoreMaterial (originalColor colorToRestore : JsVal)
  (e : Entity) : Entity :=
  match material e with
  | Some m =>
      if matColorizeTruthy m then
        set_material (Some (writeMatColorize colorToRestore m)) e
      else
        match mat_color m with
        | MKObj o =>
            if isArrayVal e colorToRestore && co_setRGB o then
              set_material
                (Some (writeMatColorComps
                         (writeRGB (compsOf e colorToRestore) (co_comps o)) o m)) e
            else if co_copy o then
              set_material
                (Some (writeMatColorComps (compsOf e originalColor) o m)) e
            else if isArrayVal e colorToRestore && co_set o then
              set_material
                (Some (writeMatColorComps
                         (writeRGB (compsOf e colorToRestore) (co_comps o)) o m)) e
            else e
        | _ => e
        end
  | None => e
  end.

(** [restoreEntityColor(entity, originalColor)]; null stands for both
    null and undefined. *)
Definition restoreEntityColor (sc : Scene) (originalColor : JsVal)
  (e : Entity) : Entity :=
  if isNull originalColor then
    sceneColorizeOne sc VNull (writeColorize VNull e)
  else
    let colorToRestore :=
      if isFloat32Val e originalColor
      then VArray (rgbOf (compsOf e originalColor))
      else originalColor in
    sceneColorizeOne sc colorToRestore
      (restoreMaterial originalColor colorToRestore
         (writeColorize colorToRestore e)).

(** The strategy chain of [selectElements] that gives one object the
    highlight colour ("Метод 1" to "Метод 6"). *)
Definition highlightEntity (sc : Scene) (e : Entity) : Entity :=
  match cap_colorize (caps e) with
  | CzMethod _ => set_colorizeV blueColor e
  | CzProp => set_colorizeV blueColor e
  | CzAbsent =>
      if cap_highlighted (caps e) then set_highlightedV true e
      else if cap_highlight (caps e) then set_highlightColor blueColor e
      else
        match material e with
        | Some m =>
            if matColorizeTruthy m then
              set_material (Some (writeMatColorize blueColor m)) e
            else
              match mat_color m with
              | MKObj o =>
                  let painted :=
                    set_material
                      (Some (writeMatColorComps
                               (writeRGB [blueR; blueG; blueB] (co_comps o)) o m)) e in
                  if co_setRGB o then painted        (* color.setRGB(r, g, b) *)
                  else if co_set o then painted      (* color.set(r, g, b) *)
                  else if co_isArray o then painted  (* color[0..2] = r, g, b *)
                  else e
              | _ => e
              end
        | None => sceneColorizeOne sc blueColor e
        end
  end.

(** The per-object visibility strategies ("Метод 1" to "Метод 4"):
    [entity.visible = b], [entity.setVisible(b)], [entity.culled = !b],
    [entity.setCulled(!b)], the first that exists. *)
Definition setEntityVisible (b : bool) (e : Entity) : Entity :=
  if cap_visible (caps e) then set_visible b e
  else if cap_setVisible (caps e) then set_visible b e
  else if cap_culled (caps e) then set_visible b e
  else if cap_setCulled (caps e) then set_visible b e
  else e.

(* ===================================================================== *)
(** ** The viewer component and its operations *)
(* ===================================================================== *)

(** The refs of the [Viewer3D] component: [viewerRef.current] (through
    its scene), [modelRef.current], [previouslySelectedEntitiesRef] and
    [originalColorsRef].  Entities are held by handle, the key under
    which the scene registers them. *)
Record Viewer : Type := {
  viewerScene : option Scene;
  modelRef : option Model;
  previouslySelectedEntities : list string;
  originalColors : gmap string JsVal
}.

(** One turn of the loop that restores a previously selected object:
    with a record, restore it and delete the record; without one, reset
    to the base colour. *)
Definition restorePrevious (sc : Scene)
  (st : list Entity * gmap string JsVal) (h : string)
  : list Entity * gmap string JsVal :=
  match st.2 !! h with
  | Some originalColor =>
      (upd h (restoreEntityColor sc originalColor) st.1, delete h st.2)
  | None =>
      (upd h (restoreEntityColor sc VNull) st.1, st.2)
  end.

(** One turn of the loop over [entitiesToSelect]: capture the original
    colour unless the object has a record, then apply the highlight. *)
Definition captureAndHighlight (sc : Scene)
  (st : list Entity * gmap string JsVal) (h : string)
  : list Entity * gmap string JsVal :=
  match lookupObj h st.1 with
  | Some e =>
      (upd h (highlightEntity sc) st.1,
       match st.2 !! h with
       | Some _ => st.2
       | None => <[h := colorToSave e]> st.2
       end)
  | None => st
  end.

(** [selectElements(elementIds)] *)
Definition selectElements (elementIds : list string) (v : Viewer) : Viewer :=
  match viewerScene v, modelRef v with
  | Some sc, Some m =>
      let previouslySelected := previouslySelectedEntities v in
      let restored :=
        match previouslySelected with
        | [] => (objects sc, originalColors v)
        | _ =>
            foldl (restorePrevious sc)
              (setObjectsSelected previouslySelected false (objects sc),
               originalColors v)
              previouslySelected
        end in
      let entitiesToSelect := resolveAll m restored.1 elementIds in
      match entitiesToSelect with
      | [] =>
          {| viewerScene := Some (set_objects restored.1 sc);
             modelRef := Some m;
             previouslySelectedEntities := [];
             originalColors := restored.2 |}
      | _ =>
          let painted :=
            foldl (captureAndHighlight sc)
              (setObjectsSelected entitiesToSelect true restored.1, restored.2)
              entitiesToSelect in
          let objs :=
            if has_setObjectsColorized sc
            then setObjectsColorized entitiesToSelect blueColor painted.1
            else painted.1 in
          {| viewerScene := Some (set_objects objs sc);
             modelRef := Some m;
             previouslySelectedEntities := entitiesToSelect;
             originalColors := painted.2 |}
      end
  | _, _ => v
  end.

(** The three visibility writes that [hideElements], [showElements] and
    [isolateElements] make on a batch: each object's own strategy, then
    [scene.setObjectsVisible] and [model.setObjectsVisible] when they
    exist. *)
Definition applyVisible (sc : Scene) (m : Model) (hs : list string)
  (b : bool) (objs : list Entity) : list Entity :=
  let o1 := forEachUpd hs (setEntityVisible b) objs in
  let o2 := if has_setObjectsVisible sc then setObjectsVisible hs b o1 else o1 in
  if model_has_setObjectsVisible m then setObjectsVisible hs b o2 else o2.

(** Re-assertion of the highlight colour on a batch, as [showElements]
    and the non-null branch of [isolateElements] do it: through the scene
    when it can, else through each object's [colorize]. *)
Definition reassertHighlight (sc : Scene) (hs : list string)
  (objs : list Entity) : list Entity :=
  match hs with
  | [] => objs
  | _ =>
      if has_setObjectsColorized sc then setObjectsColorized hs blueColor objs
      else forEachUpd hs (writeColorize blueColor) objs
  end.

(** Re-assertion on the whole selection, as the null branch of
    [isolateElements] does it: through the scene's colorize, else
    through its highlight. *)
Definition reassertSelection (sc : Scene) (hs : list string)
  (objs : list Entity) : list Entity :=
  match hs with
  | [] => objs
  | _ =>
      if has_setObjectsColorized sc then setObjectsColorized hs blueColor objs
      else if has_setObjectsHighlighted sc then setObjectsHighlighted hs true objs
      else objs
  end.

(** [hideElements(elementIds)] *)
Definition hideElements (elementIds : list string) (v : Viewer) : Viewer :=
  match viewerScene v, modelRef v with
  | Some sc, Some m =>
      let entitiesToHide := resolveAll m (objects sc) elementIds in
      match entitiesToHide with
      | [] => v
      | _ =>
          {| viewerScene :=
               Some (set_objects
                       (applyVisible sc m entitiesToHide false (objects sc)) sc);
             modelRef := Some m;
             previouslySelectedEntities := previouslySelectedEntities v;
             originalColors := originalColors v |}
      end
  | _, _ => v
  end.

(** [showElements(elementIds)] *)
Definition showElements (elementIds : list string) (v : Viewer) : Viewer :=
  match viewerScene v, modelRef v with
  | Some sc, Some m =>
      let entitiesToShow := omap (resolveEntityShow m (objects sc)) elementIds in
      match entitiesToShow with
      | [] => v
      | _ =>
          let shown := applyVisible sc m entitiesToShow true (objects sc) in
          let selectedIds := selectedArray shown in
          let selectedToShow :=
            filter (fun h => h ∈ selectedIds) entitiesToShow in
          {| viewerScene :=
               Some (set_objects (reassertHighlight sc selectedToShow shown) sc);
             modelRef := Some m;
             previouslySelectedEntities := previouslySelectedEntities v;
             originalColors := originalColors v |}
      end
  | _, _ => v
  end.

(** [isolateElements(elementIds)]; [None] is the null argument. *)
Definition isolateElements (elementIds : option (list string)) (v : Viewer)
  : Viewer :=
  match viewerScene v, modelRef v with
  | Some sc, Some m =>
      let allObjects := keys (objects sc) in
      let selected := selectedArray (objects sc) in
      let objs :=
        match elementIds with
        | None =>
            reassertSelection sc selected
              (applyVisible sc m allObjects true (objects sc))
        | Some ids =>
            let entitiesToShow := omap (resolveEntityIsolate m (objects sc)) ids in
            let hidden :=
              match allObjects with
              | [] => objects sc
              | _ => applyVisible sc m allObjects false (objects sc)
              end in
            match entitiesToShow with
            | [] => hidden
            | _ =>
                let shown := applyVisible sc m entitiesToShow true hidden in
                let selectedToShow :=
                  filter (fun h => h ∈ selected) entitiesToShow in
                reassertHighlight sc selectedToShow shown
            end
        end in
      {| viewerScene := Some (set_objects objs sc);
         modelRef := Some m;
         previouslySelectedEntities := previouslySelectedEntities v;
         originalColors := originalColors v |}
  | _, _ => v
  end.

(* ===================================================================== *)
(** ** The effects that follow the props *)
(* ===================================================================== *)

(** The props of [Viewer3D] that drive selection and visibility. *)
Record Props : Type := {
  selectedElementIds : list string;
  hiddenElementIds : list string;
  isolatedElementIds : option (list string)
}.

(** The objects the visibility effect considers: those whose id starts
    with the model prefix, split by whether the element id after the last
    ['#'] is in [hiddenElementIds]. *)
Definition ownObjects (m : Model) (objs : list Entity) : list string :=
  filter (fun k => startsWith k (model_id m +:+ "#") = true) (keys objs).

Definition objectsToHide (m : Model) (hidden : list string)
  (objs : list Entity) : list string :=
  filter (fun k => split_pop k ∈ hidden) (ownObjects m objs).

Definition objectsToShow (m : Model) (hidden : list string)
  (objs : list Entity) : list string :=
  filter (fun k => split_pop k ∉ hidden) (ownObjects m objs).

(** The body of the effect "Синхронизация видимости".  It calls
    [scene.setObjectsVisible] without probing for it: [None] is the
    TypeError of a scene that lacks it. *)
Definition syncVisibility (hidden : list string)
  (isolated : option (list string)) (v : Viewer) : option Viewer :=
  match viewerScene v, modelRef v with
  | Some sc, Some m =>
      match isolated with
      | Some _ => Some v
      | None =>
          let toShow := objectsToShow m hidden (objects sc) in
          let toHide := objectsToHide m hidden (objects sc) in
          if bool_decide (toShow = [] ∧ toHide = [])
             || has_setObjectsVisible sc then
            let o1 := match toShow with
                      | [] => objects sc
                      | _ => setObjectsVisible toShow true (objects sc)
                      end in
            let o2 := match toHide with
                      | [] => o1
                      | _ => setObjectsVisible toHide false o1
                      end in
            let selected := selectedArray o2 in
            let visibleSelected := filter (fun h => h ∈ toShow) selected in
            let o3 :=
              match selected, visibleSelected with
              | _ :: _, _ :: _ =>
                  if has_setObjectsColorized sc
                  then setObjectsColorized visibleSelected blueColor o2
                  else o2
              | _, _ => o2
              end in
            Some {| viewerScene := Some (set_objects o3 sc);
                    modelRef := Some m;
                    previouslySelectedEntities := previouslySelectedEntities v;
                    originalColors := originalColors v |}
          else None
      end
  | _, _ => Some v
  end.

(** The body of the effect "Синхронизация изоляции". *)
Definition syncIsolation (isolated : option (list string)) (v : Viewer)
  : Viewer :=
  match viewerScene v, modelRef v with
  | Some _, Some _ => isolateElements isolated v
  | _, _ => v
  end.

(** The body of the effect "Синхронизация выделения". *)
Definition syncSelection (ids : list string) (v : Viewer) : Viewer :=
  match viewerScene v, modelRef v with
  | Some _, Some _ => selectElements ids v
  | _, _ => v
  end.

(** Which array props of a render are other array objects than those of
    the render before, although their contents may be the same.  The
    page keeps the arrays in its state: a setter called with an array
    literal, a spread or the result of [filter] makes a new object. *)
Record Fresh : Type := {
  freshSelected : bool;
  freshHidden : bool;
  freshIsolated : bool
}.


(** Whether React sees a dependency as changed ([Object.is] fails): two
    arrays of different contents are different objects, two of the same
    contents may be; [null] is [null]. *)
Definition arrayChanged (fresh : bool) (old new : list string) : bool :=
  fresh || negb (bool_decide (old = new)).

Definition nullableChanged (fresh : bool) (old new : option (list string))
  : bool :=
  match old, new with
  | None, None => false
  | Some a, Some b => arrayChanged fresh a b
  | _, _ => true
  end.

(** A render with new props: the effects whose dependencies changed run
    in the order the component declares them: selection, visibility,
    isolation.  The callbacks among the dependencies are created once
    ([useCallback] with no dependencies) and never change. *)
Definition rerender (fresh : Fresh) (old new : Props) (v : Viewer)
  : option Viewer :=
  let selectionChanged :=
    arrayChanged (freshSelected fresh)
      (selectedElementIds old) (selectedElementIds new) in
  let hiddenChanged :=
    arrayChanged (freshHidden fresh)
      (hiddenElementIds old) (hiddenElementIds new) in
  let isolationChanged :=
    nullableChanged (freshIsolated fresh)
      (isolatedElementIds old) (isolatedElementIds new) in
  let v1 :=
    if selectionChanged then syncSelection (selectedElementIds new) v
    else v in
  let v2 :=
    if hiddenChanged || isolationChanged
    then syncVisibility (hiddenElementIds new) (isolatedElementIds new) v1
    else Some v1 in
  match v2 with
  | Some v2 =>
      Some (if isolationChanged
            then syncIsolation (isolatedElementIds new) v2
            else v2)
  | None => None
  end.



(* ===================================================================== *)
(** ** Scene readiness *)
(* ===================================================================== *)

Module Lifecycle.

(** [const maxAttempts = 50] and the delay of [setTimeout(checkReady, 100)]. *)
Definition maxAttempts : nat := 50.
Definition pollIntervalMs : nat := 100.

Definition timeoutMessage : string :=
  "Viewer не инициализировался в течение 5 секунд".

(** How the promise of [waitForViewerReady] settles. *)
Inductive Settled : Type :=
| Resolved
| Rejected (message : string).

(** What a run of the poll did: how it settled, how many times
    [checkReady] ran and for how long timers were pending. *)
Record PollRun : Type := {
  outcome : Settled;
  attemptsMade : nat;
  waitedMs : nat
}.

(** [checkReady]: [sceneReady k] is what the [k]-th check sees of
    [viewerInstance.scene && viewerInstance.scene.canvas].  The source
    re-arms itself through a timer; [fuel] bounds the number of checks
    the model follows. *)
Fixpoint checkReady (fuel : nat) (sceneReady : nat -> bool)
  (attempts waited : nat) : option PollRun :=
  match fuel with
  | O => None
  | S fuel' =>
      let attempts := S attempts in
      if sceneReady attempts then
        Some {| outcome := Resolved; attemptsMade := attempts;
                waitedMs := waited |}
      else if (maxAttempts <=? attempts)%nat then
        Some {| outcome := Rejected timeoutMessage;
                attemptsMade := attempts; waitedMs := waited |}
      else checkReady fuel' sceneReady attempts (waited + pollIntervalMs)
  end.

(** [waitForViewerReady()] *)
Definition waitForViewerReady (fuel : nat) (sceneReady : nat -> bool)
  : option PollRun :=
  checkReady fuel sceneReady 0 0.

(** The state the component renders from: [loading] and [error]. *)
Record ViewState : Type := {
  loading : bool;
  error : option string
}.

(** Where [initViewer] stands after the wait. *)
Inductive Phase : Type :=
| SceneReady          (* the wait resolved, bring-up goes on *)
| Failed.             (* the catch block ran *)

(** [err.message || 'Ошибка загрузки 3D модели'] *)
Definition errorText (message : string) : string :=
  if bool_decide (message = "") then "Ошибка загрузки 3D модели" else message.

(** [initViewer] from its start to the end of the wait, for a run in
    which the SDK import and the canvas set-up before the wait go
    through: [setLoading(true)], [setError(null)], the wait, and on
    rejection the catch block, which writes the state only while
    [isMounted]. *)
Definition initViewerToSceneReady (fuel : nat) (sceneReady : nat -> bool)
  (isMounted : bool) (st : ViewState) : option (Phase * ViewState) :=
  let st := {| loading := true; error := None |} in
  match waitForViewerReady fuel sceneReady with
  | None => None
  | Some run =>
      match outcome run with
      | Resolved => Some (SceneReady, st)
      | Rejected message =>
          Some (Failed,
                if isMounted
                then {| loading := false; error := Some (errorText message) |}
                else st)
      end
  end.

End Lifecycle.

(* ===================================================================== *)
(** ** The page that owns the viewer state *)
(* ===================================================================== *)

Module Page.

Inductive DisplayMode : Type := wireframe | solid | shaded.

(** An entry of [metadata.elements]. *)
Record Element : Type := {
  category : string;
  family : option string;
  type : option string
}.

(** [ViewerMetadata], with [elements] possibly missing at run time (the
    source tests [metadata.elements] before it reads it). *)
Record ViewerMetadata : Type := {
  model_name : string;
  elements : option (gmap string Element)
}.

(** The two fields of the event the handler reads. *)
Record MouseEvent : Type := {
  ctrlKey : bool;
  metaKey : bool
}.

(** The state of [ModelViewerPage]. *)
Record PageState : Type := {
  metadata : option ViewerMetadata;
  selectedElementId : option string;
  selectedElementIds : list string;
  hiddenElementIds : list string;
  isolatedElementIds : option (list string);
  xrayMode : bool;
  displayMode : DisplayMode;
  viewerAttached : bool      (* viewerRef.current is not null *)
}.

(** A call made on [viewerRef.current]. *)
Inductive EngineCall : Type :=
| CallSelectElements (ids : list string).

Definition withSelection (primary : option string) (ids : list string)
  (p : PageState) : PageState :=
  {| metadata := metadata p;
     selectedElementId := primary;
     selectedElementIds := ids;
     hiddenElementIds := hiddenElementIds p;
     isolatedElementIds := isolatedElementIds p;
     xrayMode := xrayMode p;
     displayMode := displayMode p;
     viewerAttached := viewerAttached p |}.

(** [if (viewerRef.current) viewerRef.current.selectElements(ids)] *)
Definition callSelect (p : PageState) (ids : list string) : list EngineCall :=
  if viewerAttached p then [CallSelectElements ids] else [].

(** [metadata && metadata.elements && !metadata.elements[elementId]]:
    the read is falsy only for an id that is neither a key of the
    JSON-parsed [elements] object nor the name of a member it
    inherits. *)
Definition missingFromMetadata (p : PageState) (elementId : string) : bool :=
  match metadata p with
  | Some md =>
      match elements md with
      | Some els =>
          bool_decide (els !! elementId = None)
          && negb (inheritedMember elementId)
      | None => false
      end
  | None => false
  end.

(** [event?.ctrlKey || event?.metaKey] *)
Definition isCtrlPressed (event : option MouseEvent) : bool :=
  match event with
  | Some ev => ctrlKey ev || metaKey ev
  | None => false
  end.

(** [handleElementSelect(elementId, event)]: the next state and the
    calls made on the viewer. *)
Definition handleElementSelect (elementId : string)
  (event : option MouseEvent) (p : PageState)
  : PageState * list EngineCall :=
  if bool_decide (elementId = "") then
    (withSelection None [] p, callSelect p [])
  else if missingFromMetadata p elementId then
    (p, [])
  else if isCtrlPressed event then
    let prev := selectedElementIds p in
    if bool_decide (elementId ∈ prev) then
      let newSelection := filter (fun i => i ≠ elementId) prev in
      (withSelection (head newSelection) newSelection p,
       callSelect p newSelection)
    else
      let newSelection := (prev ++ [elementId])%list in
      (withSelection (Some elementId) newSelection p,
       callSelect p newSelection)
  else
    (withSelection (Some elementId) [elementId] p,
     callSelect p [elementId]).

End Page.

(* ===================================================================== *)
(** ** Observations *)
(* ===================================================================== *)

(** The live objects of a viewer, none before the scene exists. *)
Definition liveObjects (v : Viewer) : list Entity :=
  match viewerScene v with
  | Some sc => objects sc
  | None => []
  end.

(** Everything the engine shows of the selection: for each object its
    selected flag and every colour it carries (colorize override,
    highlight flag and colour, material). *)
Definition engineVisible (v : Viewer)
  : list (string * bool * JsVal * bool * JsVal * option Material) :=
  map (fun e => (id e, selected e, colorizeV e, highlightedV e,
                 highlightColor e, material e))
      (liveObjects v).

(** The part of it that every selection pass rewrites: selected flag,
    colorize override, highlight flag and highlight colour. *)
Definition selectionChannels (v : Viewer)
  : list (string * bool * JsVal * bool * JsVal) :=
  map (fun e => (id e, selected e, colorizeV e, highlightedV e,
                 highlightColor e))
      (liveObjects v).

(** The handles that have a record in the ledger. *)
Definition recordedHandles (v : Viewer) : gset string :=
  dom (originalColors v).

(** The materials of the live objects: what a [VMaterialColor] in the
    ledger denotes. *)
Definition materialsOf (v : Viewer) : list (option Material) :=
  map material (liveObjects v).

(** Whether the record the ledger holds for handle [h] is, as it reads
    now, the highlight colour. *)
Definition ledgerHoldsHighlight (v : Viewer) (h : string) : bool :=
  match originalColors v !! h, lookupObj h (liveObjects v) with
  | Some c, Some e => negb (isNull c) && isBlueComps (compsOf e c)
  | _, _ => false
  end.

(** Whether an object's visibility can be written at all on this build:
    through one of its own members or through a batch mutator. *)
Definition visibilityWritable (sc : Scene) (m : Model) (e : Entity) : bool :=
  cap_visible (caps e) || cap_setVisible (caps e) || cap_culled (caps e)
  || cap_setCulled (caps e) || has_setObjectsVisible sc
  || model_has_setObjectsVisible m.

(* ===================================================================== *)
(** ** What a batch does to one object *)
(* ===================================================================== *)

(** A write to every object whose handle is in [hs]. *)
Definition onMembers (hs : list string) (f : Entity -> Entity)
  (objs : list Entity) : list Entity :=
  map (fun e => if bool_decide (id e ∈ hs) then f e else e) objs.

(** The visibility writes of [applyVisible] as one object receives
    them. *)
Definition visibleOne (sc : Scene) (m : Model) (b : bool) (e : Entity)
  : Entity :=
  let e1 := setEntityVisible b e in
  let e2 := if has_setObjectsVisible sc then set_visible b e1 else e1 in
  if model_has_setObjectsVisible m then set_visible b e2 else e2.

(** The selection writes of [selectElements] as one resolved object
    receives them: the selected flag, the highlight chain and the batch
    colorize of the scene. *)
Definition paintOne (sc : Scene) (e : Entity) : Entity :=
  let e1 := highlightEntity sc (set_selected true e) in
  if has_setObjectsColorized sc then set_colorizeV blueColor e1 else e1.

(** Whether the colorize override of an object can be written on this
    build. *)
Definition colorizeWritable (sc : Scene) (e : Entity) : bool :=
  match cap_colorize (caps e) with
  | CzAbsent => has_setObjectsColorized sc
  | _ => true
  end.

(** Which member the highlight chain uses on an object without
    [colorize]: the [highlighted] flag, or else the [highlight] method. *)
Definition usesHighlightedFlag (e : Entity) : bool :=
  match cap_colorize (caps e) with
  | CzAbsent => cap_highlighted (caps e)
  | _ => false
  end.

Definition usesHighlightMethod (e : Entity) : bool :=
  match cap_colorize (caps e) with
  | CzAbsent => negb (cap_highlighted (caps e)) && cap_highlight (caps e)
  | _ => false
  end.

(** What the pass over the previous selection [prev] (selected flag
    cleared, colours restored) may have changed on an object [e],
    giving [e']. *)
Definition restoredFrom (sc : Scene) (prev : list string) (e e' : Entity)
  : Prop :=
  id e' = id e
  /\ caps e' = caps e
  /\ selected e' = (if bool_decide (id e ∈ prev) then false else selected e)
  /\ highlightedV e' = highlightedV e
  /\ highlightColor e' = highlightColor e
  /\ (colorizeWritable sc e = false -> colorizeV e' = colorizeV e)
  /\ (id e ∉ prev -> e' = e).

(** An object that carries the selection as [paintOne] leaves it. *)
Definition painted (sc : Scene) (e : Entity) : Prop :=
  selected e = true
  /\ (colorizeWritable sc e = true -> colorizeV e = blueColor)
  /\ (usesHighlightedFlag e = true -> highlightedV e = true)
  /\ (usesHighlightMethod e = true -> highlightColor e = blueColor).

(** The channels [selectionChannels] lists, for one object. *)
Definition channelsOf (e : Entity) : string * bool * JsVal * bool * JsVal :=
  (id e, selected e, colorizeV e, highlightedV e, highlightColor e).

(* ===================================================================== *)
(** ** Sample scenes *)
(* ===================================================================== *)

(** An object as the engine in use exposes it: [visible] and [colorize]
    are data members, there is no material. *)
Definition plainCaps : EntityCaps :=
  {| cap_visible := true; cap_setVisible := false; cap_culled := false;
     cap_setCulled := false; cap_colorize := CzProp;
     cap_highlighted := false; cap_highlight := false |}.

Definition plainEntity (key : string) : Entity :=
  {| id := key; caps := plainCaps; visible := true; selected := false;
     colorizeV := VNull; highlightedV := false; highlightColor := VNull;
     material := None |}.

Definition plainScene (ks : list string) : Scene :=
  {| objects := map plainEntity ks;
     has_setObjectsColorized := true;
     has_setObjectsVisible := true;
     has_setObjectsHighlighted := true |}.

Definition sampleModel (mid : string) : Model :=
  {| model_id := mid; model_has_setObjectsVisible := false;
     model_objects := None |}.

(** A mounted viewer whose model is loaded and nothing selected yet. *)
Definition mounted (sc : Scene) (m : Model) : Viewer :=
  {| viewerScene := Some sc; modelRef := Some m;
     previouslySelectedEntities := []; originalColors := ∅ |}.

(** The four elements of the isolation scenario. *)
Definition abcdViewer : Viewer :=
  mounted (plainScene ["m#A"; "m#B"; "m#C"; "m#D"]) (sampleModel "m").


(** An object whose only colour member is a plain array under
    [material.color], here red. *)
Definition arrayMaterialEntity (key : string) : Entity :=
  {| id := key;
     caps := {| cap_visible := true; cap_setVisible := false;
                cap_culled := false; cap_setCulled := false;
                cap_colorize := CzAbsent;
                cap_highlighted := false; cap_highlight := false |};
     visible := true; selected := false;
     colorizeV := VNull; highlightedV := false; highlightColor := VNull;
     material :=
       Some {| mat_colorize := MCUndef;
               mat_color :=
                 MKObj {| co_isArray := true; co_isFloat32 := false;
                          co_setRGB := false; co_set := false;
                          co_copy := false; co_comps := [1; 0; 0]%Q |} |} |}.

Definition arrayMaterialViewer : Viewer :=
  mounted {| objects := [arrayMaterialEntity "m#E1"];
             has_setObjectsColorized := false;
             has_setObjectsVisible := true;
             has_setObjectsHighlighted := false |}
          (sampleModel "m").

(** An object with a green [colorize] data member and a material whose
    [colorize] is red. *)
Definition twoChannelEntity (key : string) : Entity :=
  {| id := key; caps := plainCaps; visible := true; selected := false;
     colorizeV := VArray [0; 1; 0]%Q;
     highlightedV := false; highlightColor := VNull;
     material :=
       Some {| mat_colorize := MCProp (VArray [1; 0; 0]%Q);
               mat_color := MKUndef |} |}.

Definition twoChannelViewer : Viewer :=
  mounted {| objects := [twoChannelEntity "m#E1"];
             has_setObjectsColorized := false;
             has_setObjectsVisible := true;
             has_setObjectsHighlighted := false |}
          (sampleModel "m").

(** A page whose metadata knows the elements A and B. *)
Definition sampleElement : Page.Element :=
  {| Page.category := "Wall"; Page.family := None; Page.type := None |}.

Definition loadedPage (selection : list string) : Page.PageState :=
  {| Page.metadata :=
       Some {| Page.model_name := "model";
               Page.elements :=
                 Some (<["A" := sampleElement]> (<["B" := sampleElement]> ∅)) |};
     Page.selectedElementId := head selection;
     Page.selectedElementIds := selection;
     Page.hiddenElementIds := [];
     Page.isolatedElementIds := None;
     Page.xrayMode := false;
     Page.displayMode := Page.shaded;
     Page.viewerAttached := true |}.

(** The same page before its metadata has arrived. *)
Definition unloadedPage (selection : list string) : Page.PageState :=
  {| Page.metadata := None;
     Page.selectedElementId := head selection;
     Page.selectedElementIds := selection;
     Page.hiddenElementIds := [];
     Page.isolatedElementIds := None;
     Page.xrayMode := false;
     Page.displayMode := Page.shaded;
     Page.viewerAttached := true |}.

(* ===================================================================== *)
(** ** The visibility operations, object by object *)
(* ===================================================================== *)

(** A write reaching one object when its handle is in [hs]. *)
Definition onMember (hs : list string) (f : Entity -> Entity) (e : Entity)
  : Entity :=
  if bool_decide (id e ∈ hs) then f e else e.

(** The colour write of [reassertHighlight] on one object. *)
Definition repaintOne (sc : Scene) (e : Entity) : Entity :=
  if has_setObjectsColorized sc then set_colorizeV blueColor e
  else writeColorize blueColor e.

(** The write of [reassertSelection] on one object. *)
Definition reselectOne (sc : Scene) (e : Entity) : Entity :=
  if has_setObjectsColorized sc then set_colorizeV blueColor e
  else if has_setObjectsHighlighted sc then set_highlightedV true e
  else e.

(** What [hideElements] does to one object of a mounted viewer. *)
Definition hideOne (sc : Scene) (m : Model) (ids : list string) : Entity -> Entity :=
  onMember (resolveAll m (objects sc) ids) (visibleOne sc m false).

(** What [showElements] does to one object of a mounted viewer. *)
Definition showOne (sc : Scene) (m : Model) (ids : list string) : Entity -> Entity :=
  let entitiesToShow := omap (resolveEntityShow m (objects sc)) ids in
  fun e =>
    onMember (filter (fun h => h ∈ selectedArray (objects sc)) entitiesToShow)
      (repaintOne sc)
      (onMember entitiesToShow (visibleOne sc m true) e).

(** What [isolateElements] does to one object of a mounted viewer. *)
Definition isolateOne (sc : Scene) (m : Model) (ids : option (list string))
  : Entity -> Entity :=
  match ids with
  | None =>
      fun e =>
        onMember (selectedArray (objects sc)) (reselectOne sc)
          (visibleOne sc m true e)
  | Some ids =>
      let entitiesToShow := omap (resolveEntityIsolate m (objects sc)) ids in
      fun e =>
        onMember (filter (fun h => h ∈ selectedArray (objects sc)) entitiesToShow)
          (repaintOne sc)
          (onMember entitiesToShow (visibleOne sc m true)
             (visibleOne sc m false e))
  end.

(** Everything of an object but its visibility. *)
Definition exceptVisible (e : Entity)
  : string * EntityCaps * bool * JsVal * bool * JsVal * option Material :=
  (id e, caps e, selected e, colorizeV e, highlightedV e, highlightColor e,
   material e).

(** What a visibility operation may change on an object [e], giving
    [e']: the visibility, and the colorize override or the highlight flag
    of an object whose handle is among the selected ones [sel]. *)
Definition visibilityStep (sel : list string) (e e' : Entity) : Prop :=
  id e' = id e /\ caps e' = caps e /\ selected e' = selected e
  /\ material e' = material e /\ highlightColor e' = highlightColor e
  /\ (id e ∉ sel ->
      colorizeV e' = colorizeV e /\ highlightedV e' = highlightedV e).

(* ===================================================================== *)
(** ** Picking and the modifier key *)
(* ===================================================================== *)

(** Whether a string has a ['#'] in it. *)
Fixpoint containsHash (s : string) : bool :=
  match s with
  | EmptyString => false
  | String c rest => Ascii.eqb c "#"%char || containsHash rest
  end.

(** [entityId.split('#').pop() || entityId]: the element id the picked
    handler derives from the id of the picked object. *)
Definition pickedElementId (entityId : string) : string :=
  let last := split_pop entityId in
  if bool_decide (last = "") then entityId else last.

(** The events the component listens to in order to follow the modifier
    key: [keydown] and [keyup] on the window, [mousedown] on the canvas. *)
Inductive InputEvent : Type :=
| KeyDown (key : string)
| KeyUp (key : string)
| MouseDown (ctrlKey metaKey : bool).

(** [e.key === 'Control' || e.key === 'Meta'] *)
Definition isModifierKey (key : string) : bool :=
  bool_decide (key = "Control") || bool_decide (key = "Meta").

(** [handleKeyDown], [handleKeyUp] and [handleMouseDown] acting on the
    variable [isCtrlPressed]. *)
Definition trackModifier (isCtrlPressed : bool) (ev : InputEvent) : bool :=
  match ev with
  | KeyDown key => if isModifierKey key then true else isCtrlPressed
  | KeyUp key => if isModifierKey key then false else isCtrlPressed
  | MouseDown ctrlKey metaKey => ctrlKey || metaKey
  end.

(** An event that leaves [isCtrlPressed] alone: a key that is neither
    Control nor Meta going down or up. *)
Definition otherKey (ev : InputEvent) : bool :=
  match ev with
  | KeyDown key | KeyUp key => negb (isModifierKey key)
  | MouseDown _ _ => false
  end.




(* ===================================================================== *)
(** ** X-ray and display mode *)
(* ===================================================================== *)

(** Modelled from the spec: the x-ray and edge flags of the live objects
    (section 6, per-object x-ray and edge-rendering flags), kept here per
    handle beside the viewer, and whether the scene of this build has the
    batch mutators [setObjectsXRayed] and [setObjectsEdges]. *)
Record Render : Type := {
  r_viewer : Viewer;
  has_setObjectsXRayed : bool;
  has_setObjectsEdges : bool;
  xrayedObjects : gset string;
  edgeObjects : gset string
}.

Definition withViewer (v : Viewer) (r : Render) : Render :=
  {| r_viewer := v;
     has_setObjectsXRayed := has_setObjectsXRayed r;
     has_setObjectsEdges := has_setObjectsEdges r;
     xrayedObjects := xrayedObjects r;
     edgeObjects := edgeObjects r |}.

Definition withObjects (objs : list Entity) (v : Viewer) : Viewer :=
  {| viewerScene := set_objects objs <$> viewerScene v;
     modelRef := modelRef v;
     previouslySelectedEntities := previouslySelectedEntities v;
     originalColors := originalColors v |}.

(** [scene.setObjectsXRayed(hs, b)] and [scene.setObjectsEdges(hs, b)] on
    the set of flagged handles. *)
Definition setFlagged (hs : list string) (b : bool) (flagged : gset string)
  : gset string :=
  if b then flagged ∪ list_to_set hs else flagged ∖ list_to_set hs.

(** [[0.5, 0.5, 0.5]], the tint of wireframe mode. *)
Definition grayColor : JsVal := VArray [1 # 2; 1 # 2; 1 # 2]%Q.

(** [setXrayMode(enabled)] *)
Definition setXrayMode (enabled : bool) (r : Render) : Render :=
  match viewerScene (r_viewer r), modelRef (r_viewer r) with
  | Some sc, Some _ =>
      let allObjects := keys (objects sc) in
      if enabled then
        if has_setObjectsXRayed r then
          {| r_viewer := r_viewer r;
             has_setObjectsXRayed := has_setObjectsXRayed r;
             has_setObjectsEdges := has_setObjectsEdges r;
             xrayedObjects := setFlagged allObjects true (xrayedObjects r);
             edgeObjects := edgeObjects r |}
        else if has_setObjectsHighlighted sc then
          withViewer
            (withObjects (setObjectsHighlighted allObjects true (objects sc))
               (r_viewer r)) r
        else r
      else
        let cleared :=
          if has_setObjectsXRayed r then
            {| r_viewer := r_viewer r;
               has_setObjectsXRayed := has_setObjectsXRayed r;
               has_setObjectsEdges := has_setObjectsEdges r;
               xrayedObjects := setFlagged allObjects false (xrayedObjects r);
               edgeObjects := edgeObjects r |}
          else if has_setObjectsHighlighted sc then
            withViewer
              (withObjects (setObjectsHighlighted allObjects false (objects sc))
                 (r_viewer r)) r
          else r in
        let objs := liveObjects (r_viewer cleared) in
        withViewer
          (withObjects (reassertSelection sc (selectedArray objs) objs)
             (r_viewer cleared)) cleared
  | _, _ => r
  end.

(** The colour work of one display mode on the objects that are not
    selected: the neutral tint in wireframe, a reset otherwise; nothing
    on a scene without [setObjectsColorized]. *)
Definition tintNonSelected (sc : Scene) (c : JsVal) (objs : list Entity)
  : list Entity :=
  if has_setObjectsColorized sc then
    let selectedIds := selectedArray objs in
    match filter (fun h => h ∉ selectedIds) (keys objs) with
    | [] => objs
    | nonSelected => setObjectsColorized nonSelected c objs
    end
  else objs.

(** [setDisplayMode(mode)] *)
Definition setDisplayMode (mode : Page.DisplayMode) (r : Render) : Render :=
  match viewerScene (r_viewer r), modelRef (r_viewer r) with
  | Some sc, Some _ =>
      let allObjects := keys (objects sc) in
      let selected := selectedArray (objects sc) in
      let edgesOn b :=
        if has_setObjectsEdges r
        then setFlagged allObjects b (edgeObjects r)
        else edgeObjects r in
      let switched :=
        match mode with
        | Page.wireframe =>
            (edgesOn true, tintNonSelected sc grayColor (objects sc))
        | Page.solid =>
            (edgesOn false, tintNonSelected sc VNull (objects sc))
        | Page.shaded =>
            (edgesOn false, tintNonSelected sc VNull (objects sc))
        end in
      {| r_viewer :=
           withObjects (reassertSelection sc selected switched.2) (r_viewer r);
         has_setObjectsXRayed := has_setObjectsXRayed r;
         has_setObjectsEdges := has_setObjectsEdges r;
         xrayedObjects := xrayedObjects r;
         edgeObjects := switched.1 |}
  | _, _ => r
  end.

(** The colour a display mode gives to the objects that are not
    selected. *)
Definition modeTint (mode : Page.DisplayMode) : JsVal :=
  match mode with
  | Page.wireframe => grayColor
  | _ => VNull
  end.

(** What [setDisplayMode] does to one object of a mounted viewer, [sel]
    being the selected handles. *)
Definition displayOne (sc : Scene) (sel : list string)
  (mode : Page.DisplayMode) (e : Entity) : Entity :=
  if bool_decide (id e ∈ sel) then reselectOne sc e
  else if has_setObjectsColorized sc then set_colorizeV (modeTint mode) e
  else e.

(** What [setXrayMode] does to one object of a mounted viewer: the
    highlight flag stands in for x-ray on a scene that has
    [setObjectsHighlighted] but not [setObjectsXRayed], and switching off
    re-asserts the selection. *)
Definition xrayOne (sc : Scene) (hasXRayed : bool) (sel : list string)
  (enabled : bool) (e : Entity) : Entity :=
  let e1 :=
    if negb hasXRayed && has_setObjectsHighlighted sc
    then set_highlightedV enabled e else e in
  if enabled then e1 else onMember sel (reselectOne sc) e1.

(* ===================================================================== *)
(** ** The other handlers of the page and of the element tree *)
(* ===================================================================== *)

Module PageOps.

(** A call made on [viewerRef.current]. *)
Inductive ViewerCall : Type :=
| SelectElements (ids : list string)
| HideElements (ids : list string)
| ShowElements (ids : list string)
| IsolateElements (ids : option (list string))
| SetXrayMode (enabled : bool)
| SetDisplayMode (mode : Page.DisplayMode)
| FitToView.

(** [if (viewerRef.current) { ... }] *)
Definition onViewer (p : Page.PageState) (calls : list ViewerCall)
  : list ViewerCall :=
  if Page.viewerAttached p then calls else [].

Definition withHidden (hidden : list string) (p : Page.PageState)
  : Page.PageState :=
  {| Page.metadata := Page.metadata p;
     Page.selectedElementId := Page.selectedElementId p;
     Page.selectedElementIds := Page.selectedElementIds p;
     Page.hiddenElementIds := hidden;
     Page.isolatedElementIds := Page.isolatedElementIds p;
     Page.xrayMode := Page.xrayMode p;
     Page.displayMode := Page.displayMode p;
     Page.viewerAttached := Page.viewerAttached p |}.

Definition withIsolated (isolated : option (list string)) (p : Page.PageState)
  : Page.PageState :=
  {| Page.metadata := Page.metadata p;
     Page.selectedElementId := Page.selectedElementId p;
     Page.selectedElementIds := Page.selectedElementIds p;
     Page.hiddenElementIds := Page.hiddenElementIds p;
     Page.isolatedElementIds := isolated;
     Page.xrayMode := Page.xrayMode p;
     Page.displayMode := Page.displayMode p;
     Page.viewerAttached := Page.viewerAttached p |}.

Definition withXray (xray : bool) (p : Page.PageState) : Page.PageState :=
  {| Page.metadata := Page.metadata p;
     Page.selectedElementId := Page.selectedElementId p;
     Page.selectedElementIds := Page.selectedElementIds p;
     Page.hiddenElementIds := Page.hiddenElementIds p;
     Page.isolatedElementIds := Page.isolatedElementIds p;
     Page.xrayMode := xray;
     Page.displayMode := Page.displayMode p;
     Page.viewerAttached := Page.viewerAttached p |}.

Definition withDisplayMode (mode : Page.DisplayMode) (p : Page.PageState)
  : Page.PageState :=
  {| Page.metadata := Page.metadata p;
     Page.selectedElementId := Page.selectedElementId p;
     Page.selectedElementIds := Page.selectedElementIds p;
     Page.hiddenElementIds := Page.hiddenElementIds p;
     Page.isolatedElementIds := Page.isolatedElementIds p;
     Page.xrayMode := Page.xrayMode p;
     Page.displayMode := mode;
     Page.viewerAttached := Page.viewerAttached p |}.

(** [[...new Set(l)]]: the members of [l] in the order of their first
    occurrence; [seen] are the members met so far. *)
Fixpoint uniqueFrom (seen l : list string) : list string :=
  match l with
  | [] => []
  | x :: rest =>
      if bool_decide (x ∈ seen) then uniqueFrom seen rest
      else x :: uniqueFrom (x :: seen) rest
  end.

Definition unique (l : list string) : list string := uniqueFrom [] l.

(** The calls of [handleElementSelect] among the calls of the page. *)
Definition liftCall (c : Page.EngineCall) : ViewerCall :=
  match c with
  | Page.CallSelectElements ids => SelectElements ids
  end.

(** [handleElementSelect], with its calls among those of the page. *)
Definition handleElementSelect (elementId : string)
  (event : option Page.MouseEvent) (p : Page.PageState)
  : Page.PageState * list ViewerCall :=
  let r := Page.handleElementSelect elementId event p in
  (r.1, map liftCall r.2).

(** [handleDeselectAll()] *)
Definition handleDeselectAll (p : Page.PageState)
  : Page.PageState * list ViewerCall :=
  (Page.withSelection None [] p, onViewer p [SelectElements []]).

(** [handleElementToggleVisibility(elementId, visible)] *)
Definition handleElementToggleVisibility (elementId : string) (visible : bool)
  (p : Page.PageState) : Page.PageState * list ViewerCall :=
  let prev := Page.hiddenElementIds p in
  (withHidden
     (if visible then filter (fun i => i ≠ elementId) prev
      else (prev ++ [elementId])%list) p,
   onViewer p
     [if visible then ShowElements [elementId] else HideElements [elementId]]).

(** [handleElementsSelect(elementIds)] *)
Definition handleElementsSelect (elementIds : list string)
  (p : Page.PageState) : Page.PageState * list ViewerCall :=
  (Page.withSelection (head elementIds) elementIds p,
   onViewer p [SelectElements elementIds]).

(** [handleGroupApply(elementIds)] *)
Definition handleGroupApply (elementIds : list string)
  (p : Page.PageState) : Page.PageState * list ViewerCall :=
  (Page.withSelection (head elementIds) elementIds p,
   onViewer p [SelectElements elementIds]).

(** [handleHide()] *)
Definition handleHide (p : Page.PageState) : Page.PageState * list ViewerCall :=
  match Page.selectedElementIds p with
  | [] => (p, [])
  | selected =>
      (withHidden (unique (Page.hiddenElementIds p ++ selected)%list) p,
       onViewer p [HideElements selected])
  end.

(** [handleShow()] *)
Definition handleShow (p : Page.PageState) : Page.PageState * list ViewerCall :=
  match Page.hiddenElementIds p with
  | [] => (p, [])
  | elementsToShow =>
      (withHidden [] p, onViewer p [ShowElements elementsToShow])
  end.

(** [handleIsolate()] *)
Definition handleIsolate (p : Page.PageState)
  : Page.PageState * list ViewerCall :=
  match Page.selectedElementIds p with
  | [] => (p, [])
  | selected =>
      (withIsolated (Some selected) p,
       onViewer p [IsolateElements (Some selected)])
  end.

(** [handleReset()] *)
Definition handleReset (p : Page.PageState) : Page.PageState * list ViewerCall :=
  let hiddenToShow := Page.hiddenElementIds p in
  (Page.withSelection None [] (withIsolated None (withHidden [] p)),
   onViewer p
     ([IsolateElements None]
      ++ match hiddenToShow with
         | [] => []
         | _ => [ShowElements hiddenToShow]
         end
      ++ [SelectElements []])%list).

(** [handleXrayToggle()] *)
Definition handleXrayToggle (p : Page.PageState)
  : Page.PageState * list ViewerCall :=
  let newValue := negb (Page.xrayMode p) in
  (withXray newValue p, onViewer p [SetXrayMode newValue]).

(** [handleDisplayModeChange(mode)] *)
Definition handleDisplayModeChange (mode : Page.DisplayMode)
  (p : Page.PageState) : Page.PageState * list ViewerCall :=
  (withDisplayMode mode p, onViewer p [SetDisplayMode mode]).

(** [handleElementClick(elementId, event)] of the element tree, which
    holds [handleElementSelect] and [handleElementsSelect] of the page
    as [onElementSelect] and [onElementsSelect]. *)
Definition treeElementClick (elementId : string) (event : Page.MouseEvent)
  (p : Page.PageState) : Page.PageState * list ViewerCall :=
  let selectedElementIds := Page.selectedElementIds p in
  if Page.ctrlKey event || Page.metaKey event then
    if bool_decide (elementId ∈ selectedElementIds) then
      handleElementsSelect
        (filter (fun i => i ≠ elementId) selectedElementIds) p
    else handleElementsSelect (selectedElementIds ++ [elementId])%list p
  else handleElementSelect elementId None p.

(** [handleVisibilityToggle(elementId, event)] of the element tree. *)
Definition treeVisibilityToggle (elementId : string) (p : Page.PageState)
  : Page.PageState * list ViewerCall :=
  let isHidden := bool_decide (elementId ∈ Page.hiddenElementIds p) in
  handleElementToggleVisibility elementId isHidden p.

(** The call as the component executes it. *)
Definition runCall (c : ViewerCall) (r : Render) : Render :=
  match c with
  | SelectElements ids => withViewer (selectElements ids (r_viewer r)) r
  | HideElements ids => withViewer (hideElements ids (r_viewer r)) r
  | ShowElements ids => withViewer (showElements ids (r_viewer r)) r
  | IsolateElements ids => withViewer (isolateElements ids (r_viewer r)) r
  | SetXrayMode enabled => setXrayMode enabled r
  | SetDisplayMode mode => setDisplayMode mode r
  | FitToView => r
  end.

Definition runCalls (calls : list ViewerCall) (r : Render) : Render :=
  foldl (fun r c => runCall c r) r calls.

(** The primary selection names a member of the selection, and is null
    exactly when the selection is empty. *)
Definition primaryConsistent (p : Page.PageState) : Prop :=
  match Page.selectedElementId p with
  | Some i => i ∈ Page.selectedElementIds p
  | None => Page.selectedElementIds p = []
  end.

End PageOps.

(* ===================================================================== *)
(** ** The page and the component together *)
(* ===================================================================== *)

(** The props the page passes to [Viewer3D]. *)
Definition propsOfPage (p : Page.PageState) : Props :=
  {| selectedElementIds := Page.selectedElementIds p;
     hiddenElementIds := Page.hiddenElementIds p;
     isolatedElementIds := Page.isolatedElementIds p |}.

Definition sameMode (a b : Page.DisplayMode) : bool :=
  match a, b with
  | Page.wireframe, Page.wireframe => true
  | Page.solid, Page.solid => true
  | Page.shaded, Page.shaded => true
  | _, _ => false
  end.

(** The render that follows a state change of the page: the effects of
    [rerender], then "Синхронизация X-ray режима" and "Синхронизация
    режима отображения" when their dependency changed. *)
Definition react (fresh : Fresh) (p p' : Page.PageState) (r : Render)
  : option Render :=
  match rerender fresh (propsOfPage p) (propsOfPage p') (r_viewer r) with
  | None => None
  | Some v =>
      let r1 := withViewer v r in
      let r2 :=
        if Bool.eqb (Page.xrayMode p) (Page.xrayMode p') then r1
        else setXrayMode (Page.xrayMode p') r1 in
      Some (if sameMode (Page.displayMode p) (Page.displayMode p') then r2
            else setDisplayMode (Page.displayMode p') r2)
  end.

(** A handler of the page, from the click to the end of the render it
    causes: the new state, the calls it makes on the viewer, then the
    effects.  [fresh] tells which array states the handler set to a new
    array object. *)
Definition dispatch (fresh : Fresh)
  (handler : Page.PageState -> Page.PageState * list PageOps.ViewerCall)
  (app : Page.PageState * Render) : option (Page.PageState * Render) :=
  let res := handler app.1 in
  (fun r => (res.1, r))
    <$> react fresh app.1 res.1 (PageOps.runCalls res.2 app.2).


(** The selected flags of the engine agree with the list of previously
    selected entities. *)
Definition selectionTracked (v : Viewer) : Prop :=
  Forall (fun e => selected e
                   = bool_decide (id e ∈ previouslySelectedEntities v))
         (liveObjects v).

(** Every live object is visible. *)
Definition allVisible (v : Viewer) : Prop :=
  Forall (fun e => visible e = true) (liveObjects v).

(** A viewer whose model [m] is loaded, on a scene that has the batch
    mutator [setObjectsVisible]. *)
Definition batchMounted (m : Model) (v : Viewer) : Prop :=
  modelRef v = Some m
  /\ exists sc, viewerScene v = Some sc /\ has_setObjectsVisible sc = true.

(** A render state around a viewer, on a build with every batch
    mutator. *)
Definition renderOf (v : Viewer) : Render :=
  {| r_viewer := v; has_setObjectsXRayed := true;
     has_setObjectsEdges := true; xrayedObjects := ∅; edgeObjects := ∅ |}.

(* ===================================================================== *)
(** ** Bring-up after the scene is ready *)
(* ===================================================================== *)

Module Bringup.

(** How an awaited dynamic [import(...)] ends. *)
Inductive ImportResult : Type :=
| Imported
| ImportRejected (message : string)
| ImportPending.              (* the promise never settles *)

(** How [getMetadata] ends inside [initViewer]. *)
Inductive MetadataLoad : Type :=
| MetadataLoaded
| MetadataAuthRedirect        (* err.isAuthRedirect *)
| MetadataFailed              (* any other error: logged, bring-up goes on *)
| MetadataPending.            (* the request never settles *)

(** How [xktLoader.load] ends. *)
Inductive LoadResult : Type :=
| LoadedModel
| LoadedNull
| LoadRejected (message : string)
| LoadPending.                (* the promise never settles *)

(** How the [HEAD] request on the asset ends. *)
Inductive HeadProbe : Type :=
| HeadOk
| HeadNotOk (status : string)     (* the text of status and statusText *)
| HeadFailed (message : string)   (* fetch rejected *)
| HeadPending.                    (* fetch never settles *)

(** What [initViewer] meets on its way.  None of its awaits has a
    timeout: each may stay pending for good. *)
Record Environment : Type := {
  sdkImport : ImportResult;       (* await import('@xeokit/xeokit-sdk') *)
  containerPresent : bool;        (* containerRef.current after the import *)
  canvasSized : bool;             (* offsetWidth and offsetHeight not 0 *)
  frameArrives : bool;            (* the requestAnimationFrame callback runs *)
  sceneReady : nat -> bool;       (* what the k-th readiness check sees *)
  metadataLoad : MetadataLoad;
  mountedAtMetadata : bool;       (* isMounted when the metadata arrives *)
  authImport : ImportResult;      (* await import('@/lib/api/auth') *)
  tokenPresent : bool;            (* getAuthToken() is not empty *)
  sceneAtLoad : bool;             (* viewerInstance.scene before the loader *)
  modelsPresent : bool;           (* viewerInstance.scene.models *)
  modelsAfterDelay : bool;        (* the same, 200 ms later *)
  loadResult : LoadResult;
  headProbe : HeadProbe;
  loadNullDetails : string;       (* model id and viewer flags in the message *)
  mountedAtEnd : bool             (* isMounted when bring-up ends or fails *)
}.

Inductive Exit : Type :=
| Loaded
| ReturnedEarly
| Threw (message : string)
| StillPending.                   (* stopped at an await that never settles *)

(** What a run of [initViewer] leaves behind. *)
Record Outcome : Type := {
  exit : Exit;
  view : Lifecycle.ViewState;
  metadataStored : bool;          (* setMetadata was called *)
  sentToLogin : bool;             (* window.location.href = '/auth/login' *)
  modelRefSet : bool;             (* modelRef.current = model *)
  viewerReadyNotified : bool;     (* onViewerReady, if given, was called *)
  refDelivered : bool;            (* onLoad and onRefReady, if given, were called *)
  errorReported : bool            (* onError, if given, was called *)
}.

Definition started : Lifecycle.ViewState :=
  {| Lifecycle.loading := true; Lifecycle.error := None |}.

(** The catch block of [initViewer]. *)
Definition caught (env : Environment) (message : string)
  (stored sent : bool) : Outcome :=
  {| exit := Threw message;
     view := if mountedAtEnd env
             then {| Lifecycle.loading := false;
                     Lifecycle.error := Some (Lifecycle.errorText message) |}
             else started;
     metadataStored := stored;
     sentToLogin := sent;
     modelRefSet := false;
     viewerReadyNotified := false;
     refDelivered := false;
     errorReported := mountedAtEnd env |}.

Definition returned (stored : bool) : Outcome :=
  {| exit := ReturnedEarly; view := started; metadataStored := stored;
     sentToLogin := false; modelRefSet := false;
     viewerReadyNotified := false; refDelivered := false;
     errorReported := false |}.

(** A run that stays at an await: nothing after it happens. *)
Definition pending (stored : bool) : Outcome :=
  {| exit := StillPending; view := started; metadataStored := stored;
     sentToLogin := false; modelRefSet := false;
     viewerReadyNotified := false; refDelivered := false;
     errorReported := false |}.

(** A run that loaded the model: [modelRef] is set and [onViewerReady]
    called in any case, the state and the parent's ref only while
    [isMounted]. *)
Definition loaded (env : Environment) (stored : bool) : Outcome :=
  {| exit := Loaded;
     view := if mountedAtEnd env
             then {| Lifecycle.loading := false; Lifecycle.error := None |}
             else started;
     metadataStored := stored;
     sentToLogin := false;
     modelRefSet := true;
     viewerReadyNotified := true;
     refDelivered := mountedAtEnd env;
     errorReported := false |}.

(** The error thrown when the loader gave no model: the probe of the
    asset is made inside a [try] whose [catch] rewraps whatever was
    thrown there, the "not ok" error included.  [None] when the probe
    never settles. *)
Definition loadNullMessage (env : Environment) : option string :=
  match headProbe env with
  | HeadOk =>
      Some ("XKTLoaderPlugin.load() вернул null для модели "
            +:+ loadNullDetails env)
  | HeadNotOk status =>
      Some ("Ошибка доступа к XKT файлу: "
            +:+ ("XKT файл недоступен: " +:+ status))
  | HeadFailed message =>
      Some ("Ошибка доступа к XKT файлу: " +:+ message)
  | HeadPending => None
  end.

(** The part of [initViewer] from the viewer's readiness on. *)
Definition afterViewerReady (env : Environment) : Outcome :=
  match metadataLoad env with
  | MetadataPending => pending false
  | MetadataAuthRedirect => returned false
  | _ =>
      let stored :=
        match metadataLoad env with
        | MetadataLoaded => mountedAtMetadata env
        | _ => false
        end in
      match authImport env with
      | ImportPending => pending stored
      | ImportRejected message => caught env message stored false
      | Imported =>
          if negb (tokenPresent env) then
            caught env "Требуется авторизация" stored true
          else if negb (sceneAtLoad env) then
            caught env "Viewer scene не инициализирована" stored false
          else if negb (modelsPresent env)
                  && negb (modelsAfterDelay env) then
            caught env
              "Viewer scene.models не инициализирована после ожидания"
              stored false
          else
            match loadResult env with
            | LoadPending => pending stored
            | LoadRejected message => caught env message stored false
            | LoadedNull =>
                match loadNullMessage env with
                | Some message => caught env message stored false
                | None => pending stored
                end
            | LoadedModel => loaded env stored
            end
      end
  end.

(** [initViewer], for a run in which the construction of the viewer goes
    through.  [None] stands for a readiness poll that never settles. *)
Definition initViewer (env : Environment) : option Outcome :=
  match sdkImport env with
  | ImportPending => Some (pending false)
  | ImportRejected message => Some (caught env message false false)
  | Imported =>
      if negb (containerPresent env) then Some (returned false)
      else if negb (canvasSized env) && negb (frameArrives env)
      then Some (pending false)
      else
        match Lifecycle.waitForViewerReady Lifecycle.maxAttempts
                (sceneReady env) with
        | None => None
        | Some run =>
            match Lifecycle.outcome run with
            | Lifecycle.Rejected message =>
                Some (caught env message false false)
            | Lifecycle.Resolved => Some (afterViewerReady env)
            end
        end
  end.

(** Every await on the path of this run settles. *)
Definition awaitsSettle (env : Environment) : bool :=
  match sdkImport env with ImportPending => false | _ => true end
  && (canvasSized env || frameArrives env)
  && match metadataLoad env with MetadataPending => false | _ => true end
  && match authImport env with ImportPending => false | _ => true end
  && match loadResult env with LoadPending => false | _ => true end
  && match headProbe env with HeadPending => false | _ => true end.

End Bringup.

(* ===================================================================== *)
(** * Properties *)
(* ===================================================================== *)

(** ** The registry and its writes *)

Lemma lookupObj_Some_id k objs e :
  lookupObj k objs = Some e -> id e = k /\ e ∈ objs.
Proof.
  unfold lookupObj. intros H. apply find_some in H as [Hin Hk].
  apply bool_decide_eq_true in Hk. split; [done|]. by apply list_elem_of_In.
Qed.

Lemma lookupObj_None k objs : lookupObj k objs = None <-> k ∉ keys objs.
Proof.
  unfold lookupObj, keys. induction objs as [|e objs IH]; simpl.
  - split; [intros _; apply not_elem_of_nil | done].
  - case_bool_decide as Hk.
    + split; [done|]. intros Hn. exfalso. apply Hn. rewrite Hk. left.
    + rewrite IH. rewrite not_elem_of_cons. split; [intros ?; split; congruence | tauto].
Qed.

Lemma hasKey_spec k objs : hasKey k objs = bool_decide (k ∈ keys objs).
Proof.
  unfold hasKey. destruct (lookupObj k objs) as [e|] eqn:He.
  - apply lookupObj_Some_id in He as [Hid Hin].
    rewrite bool_decide_eq_true_2 by eauto.
    symmetry. apply bool_decide_eq_true_2. unfold keys.
    apply list_elem_of_fmap. eauto.
  - rewrite bool_decide_eq_false_2 by (intros [? ?]; done).
    symmetry. apply bool_decide_eq_false_2. by apply lookupObj_None.
Qed.

Lemma keys_upd h f objs :
  (forall e, id (f e) = id e) -> keys (upd h f objs) = keys objs.
Proof.
  intros Hf. unfold keys, upd. rewrite map_map. apply map_ext.
  intros e. case_bool_decide; [apply Hf | done].
Qed.

Lemma keys_forEachUpd hs f objs :
  (forall e, id (f e) = id e) -> keys (forEachUpd hs f objs) = keys objs.
Proof.
  intros Hf. unfold forEachUpd. revert objs.
  induction hs as [|h hs IH]; intros objs; simpl; [done|].
  rewrite IH. by apply keys_upd.
Qed.

(** ** Entity lookup *)

Lemma find_suffix_head (x : string) (ks : list string) :
  x ∉ ks ->
  find (fun key => endsWith key ("#" +:+ x) || bool_decide (key = x)) ks
  = head (filter (fun k => endsWith k ("#" +:+ x) = true) ks).
Proof.
  induction ks as [|k ks IH]; intros Hx; simpl; [done|].
  apply not_elem_of_cons in Hx as [Hne Hx].
  rewrite (bool_decide_eq_false_2 (k = x)) by congruence.
  rewrite orb_false_r. rewrite filter_cons.
  destruct (endsWith k ("#" +:+ x)) eqn:E.
  - by rewrite decide_True.
  - rewrite decide_False by done. by apply IH.
Qed.

Lemma resolveEntity_chain m objs x :
  resolveEntity m objs x =
  if bool_decide (compositeKey (model_id m) x ∈ keys objs)
  then Some (compositeKey (model_id m) x)
  else if bool_decide (x ∈ keys objs) then Some x
  else head (filter (fun k => endsWith k ("#" +:+ x) = true) (keys objs)).
Proof.
  unfold resolveEntity. rewrite !hasKey_spec.
  case_bool_decide; [done|]. case_bool_decide as Hx; [done|].
  by apply find_suffix_head.
Qed.

Lemma resolveEntity_live m objs x h :
  resolveEntity m objs x = Some h -> h ∈ keys objs.
Proof.
  rewrite resolveEntity_chain.
  case_bool_decide as H1; [intros [= <-]; done|].
  case_bool_decide as H2; [intros [= <-]; done|].
  intros Hh. apply head_Some_elem_of in Hh.
  by apply list_elem_of_filter in Hh as [_ ?].
Qed.

Lemma resolveAll_live m objs ids h :
  h ∈ resolveAll m objs ids -> h ∈ keys objs.
Proof.
  unfold resolveAll. intros Hh. apply list_elem_of_omap in Hh as (x & _ & Hx).
  by apply resolveEntity_live in Hx.
Qed.

Lemma resolveAll_keys m objs objs' ids :
  keys objs' = keys objs -> resolveAll m objs' ids = resolveAll m objs ids.
Proof.
  intros Hk. unfold resolveAll.
  assert (Hx : forall x, resolveEntity m objs' x = resolveEntity m objs x)
    by (intros x; by rewrite !resolveEntity_chain, Hk).
  induction ids as [|x ids IH]; [done|]. simpl. rewrite Hx.
  destruct (resolveEntity m objs x); [f_equal|]; exact IH.
Qed.

(** C3 (as the code has it). For element ids that are not names of
    inherited members, entity resolution walks the ordered chain
    composite key, bare key, suffix match and gives every element id at
    most one handle: the first scheme that matches wins, and under
    suffix match it is the first live key, in enumeration order, that
    ends in "#" followed by the element id.  An id that no scheme matches
    contributes nothing, and the ids before and after it in the batch are
    resolved all the same; every handle found is a live key. *)
Theorem resolution_first_match_wins (m : Model) (objs : list Entity)
  (ids1 ids2 : list string) (x : string) :
  Forall (fun i => inheritedMember i = false) (ids1 ++ x :: ids2) ->
  resolveEntity m objs x =
    (if bool_decide (compositeKey (model_id m) x ∈ keys objs)
     then Some (compositeKey (model_id m) x)
     else if bool_decide (x ∈ keys objs) then Some x
     else head (filter (fun k => endsWith k ("#" +:+ x) = true) (keys objs)))
  /\ resolveAll m objs (ids1 ++ x :: ids2) =
       (resolveAll m objs ids1
        ++ option_list (resolveEntity m objs x)
        ++ resolveAll m objs ids2)%list
  /\ length (option_list (resolveEntity m objs x)) <= 1
  /\ Forall (fun h => h ∈ keys objs) (resolveAll m objs (ids1 ++ x :: ids2)).
Proof.
  intros _.
  split; [apply resolveEntity_chain|]. split; [|split].
  - unfold resolveAll. rewrite omap_app. simpl.
    destruct (resolveEntity m objs x); done.
  - destruct (resolveEntity m objs x); simpl; lia.
  - apply Forall_forall. intros h Hh. eapply resolveAll_live; eauto.
Qed.

Lemma resolution_first_match_wins_witness :
  resolveEntity (sampleModel "m1")
    (objects (plainScene ["m2#E1"; "m3#E1"; "m1#E3"])) "E1" = Some "m2#E1"
  /\ resolveAll (sampleModel "m1")
       (objects (plainScene ["m2#E1"; "m3#E1"; "m1#E3"])) ["E3"; "E1"; "E2"]
     = ["m1#E3"; "m2#E1"].
Proof.
  destruct (resolution_first_match_wins (sampleModel "m1")
              (objects (plainScene ["m2#E1"; "m3#E1"; "m1#E3"]))
              ["E3"] ["E2"] "E1") as (H1 & H2 & _ & _).
  - repeat constructor.
  - split.
    + etransitivity; [exact H1|]. vm_compute. reflexivity.
    + etransitivity; [exact H2|]. vm_compute. reflexivity.
Defined.

(** The three lookups of the specification's resolution scenario: the
    composite key, the bare key, a key of another model ending in the
    element id; and an id nothing matches, between two that resolve. *)
Example resolution_fallback_scenario :
  resolveAll (sampleModel "m1") (objects (plainScene ["m1#E1"])) ["E1"]
    = ["m1#E1"]
  /\ resolveAll (sampleModel "m1") (objects (plainScene ["E1"])) ["E1"]
    = ["E1"]
  /\ resolveAll (sampleModel "m1") (objects (plainScene ["m2#E1"])) ["E1"]
    = ["m2#E1"]
  /\ resolveAll (sampleModel "m1") (objects (plainScene ["m1#E1"; "m1#E3"]))
       ["E1"; "E2"; "E3"]
    = ["m1#E1"; "m1#E3"].
Proof. vm_compute. repeat split; reflexivity. Qed.

(** C3 (as stated): it is not the case that every live key matching the
    suffix scheme is returned: of two keys ending in "#E1" only the first
    is. *)
Lemma resolution_returns_one_suffix_match :
  ~ (forall (m : Model) (objs : list Entity) (x k : string),
        compositeKey (model_id m) x ∉ keys objs ->
        x ∉ keys objs ->
        k ∈ keys objs ->
        endsWith k ("#" +:+ x) = true ->
        k ∈ resolveAll m objs [x]).
Proof.
  intros H.
  specialize (H (sampleModel "m1") (objects (plainScene ["m2#E1"; "m3#E1"]))
                "E1" "m3#E1").
  assert (Hres : resolveAll (sampleModel "m1")
                   (objects (plainScene ["m2#E1"; "m3#E1"])) ["E1"]
                 = ["m2#E1"]) by (vm_compute; reflexivity).
  rewrite Hres in H.
  assert (Hin : "m3#E1" ∈ ["m2#E1"]).
  { apply H; [| | |vm_compute; reflexivity].
    - intros Hc. apply list_elem_of_In in Hc. vm_compute in Hc.
      intuition discriminate.
    - intros Hc. apply list_elem_of_In in Hc. vm_compute in Hc.
      intuition discriminate.
    - apply list_elem_of_In. vm_compute. tauto. }
  apply list_elem_of_singleton in Hin. discriminate.
Qed.

(** ** The selection entry point of the page *)

(** C6. For a non-empty element id that passes the metadata guard,
    [handleElementSelect] without the modifier key replaces the selection
    with the id alone; with the modifier key it removes the id when it is
    selected, keeping the other members in their order, and appends it
    when it is not. *)
Theorem select_transition (p : Page.PageState) (elementId : string)
  (event : option Page.MouseEvent) :
  elementId <> "" ->
  Page.missingFromMetadata p elementId = false ->
  let prev := Page.selectedElementIds p in
  let next :=
    Page.selectedElementIds (Page.handleElementSelect elementId event p).1 in
  (Page.isCtrlPressed event = false -> next = [elementId])
  /\ (Page.isCtrlPressed event = true -> elementId ∈ prev ->
      next = filter (fun i => i <> elementId) prev
      /\ (elementId ∉ next)
      /\ sublist next prev
      /\ forall i, i <> elementId -> i ∈ prev -> i ∈ next)
  /\ (Page.isCtrlPressed event = true -> elementId ∉ prev ->
      next = (prev ++ [elementId])%list).
Proof.
  intros Hne Hknown prev next. subst prev next.
  unfold Page.handleElementSelect.
  rewrite bool_decide_eq_false_2 by done. rewrite Hknown.
  split; [|split].
  - intros ->. done.
  - intros -> Hin. rewrite bool_decide_eq_true_2 by done. simpl.
    split; [done|]. split; [|split].
    + intros Hx. apply list_elem_of_filter in Hx as [Hx _]. by apply Hx.
    + apply sublist_filter.
    + intros i Hi Hip. by apply list_elem_of_filter.
  - intros -> Hnin. by rewrite bool_decide_eq_false_2.
Qed.

Lemma select_transition_witness :
  Page.selectedElementIds
    (Page.handleElementSelect "A"
       (Some {| Page.ctrlKey := true; Page.metaKey := false |})
       (loadedPage ["B"; "A"])).1 = ["B"]
  /\ Page.selectedElementIds
       (Page.handleElementSelect "A"
          (Some {| Page.ctrlKey := true; Page.metaKey := false |})
          (loadedPage ["B"])).1 = ["B"; "A"]
  /\ Page.selectedElementIds
       (Page.handleElementSelect "A" None (loadedPage ["B"])).1 = ["A"].
Proof.
  split; [|split].
  - refine (proj1 (proj1 (proj2 (select_transition (loadedPage ["B"; "A"]) "A"
             (Some {| Page.ctrlKey := true; Page.metaKey := false |}) _ _)) _ _)).
    + discriminate.
    + vm_compute; reflexivity.
    + reflexivity.
    + apply list_elem_of_In. simpl. tauto.
  - refine (proj2 (proj2 (select_transition (loadedPage ["B"]) "A"
             (Some {| Page.ctrlKey := true; Page.metaKey := false |}) _ _)) _ _).
    + discriminate.
    + vm_compute; reflexivity.
    + reflexivity.
    + intros Hc. apply list_elem_of_In in Hc. simpl in Hc.
      intuition discriminate.
  - refine (proj1 (select_transition (loadedPage ["B"]) "A" None _ _) _).
    + discriminate.
    + vm_compute; reflexivity.
    + reflexivity.
Defined.

(** The guard as far as it holds.  With metadata loaded and carrying an
    elements map, a non-empty element id that is absent from the map and
    is not the name of an inherited member leaves the whole page state
    as it was and makes no call on the viewer.  With metadata still null
    the guard does not apply, and an unknown id becomes part of the
    selection. *)
Lemma unknown_element_guard (p : Page.PageState) (elementId : string)
  (event : option Page.MouseEvent) :
  elementId <> "" ->
  (forall md els,
      Page.metadata p = Some md -> Page.elements md = Some els ->
      els !! elementId = None -> inheritedMember elementId = false ->
      Page.handleElementSelect elementId event p = (p, []))
  /\ (Page.metadata p = None ->
      elementId ∉ Page.selectedElementIds p ->
      elementId ∈ Page.selectedElementIds
                    (Page.handleElementSelect elementId event p).1
      /\ (Page.viewerAttached p = true ->
          (Page.handleElementSelect elementId event p).2 <> [])).
Proof.
  intros Hne. unfold Page.handleElementSelect.
  rewrite bool_decide_eq_false_2 by done. split.
  - intros md els Hmd Hels Hnone Hown. unfold Page.missingFromMetadata.
    rewrite Hmd, Hels, Hown. by rewrite bool_decide_eq_true_2.
  - intros Hmd Hnin. unfold Page.missingFromMetadata. rewrite Hmd.
    rewrite (bool_decide_eq_false_2 _ Hnin).
    destruct (Page.isCtrlPressed event); simpl; unfold Page.callSelect.
    + split; [set_solver|]. by intros ->.
    + split; [set_solver|]. by intros ->.
Qed.

Lemma unknown_element_guard_witness :
  Page.handleElementSelect "Z" None (loadedPage ["A"]) = (loadedPage ["A"], [])
  /\ "Z" ∈ Page.selectedElementIds
             (Page.handleElementSelect "Z" None (unloadedPage ["A"])).1.
Proof.
  split.
  - refine (proj1 (unknown_element_guard (loadedPage ["A"]) "Z" None _)
              _ _ _ _ _ _).
    + discriminate.
    + reflexivity.
    + reflexivity.
    + vm_compute; reflexivity.
    + vm_compute; reflexivity.
  - refine (proj1 (proj2 (unknown_element_guard (unloadedPage ["A"]) "Z" None _) _ _)).
    + discriminate.
    + reflexivity.
    + intros Hc. apply list_elem_of_In in Hc. simpl in Hc.
      intuition discriminate.
Defined.

(** C9, on the code. The page's metadata is loaded and its elements map
    holds "A" and "B" only; "A" is selected.  The id "constructor" is
    absent from the map, yet the read [metadata.elements["constructor"]]
    finds the inherited member, the guard "element not found in
    metadata" is passed over, the selection becomes that id and the
    viewer is told to select it.  With the modifier held the id is
    appended to the selection. *)
Theorem unknown_element_guard_misses_inherited :
  let p := loadedPage ["A"] in
  (exists md els,
      Page.metadata p = Some md /\ Page.elements md = Some els
      /\ els !! "constructor" = None)
  /\ Page.handleElementSelect "constructor" None p
     = (Page.withSelection (Some "constructor") ["constructor"] p,
        [Page.CallSelectElements ["constructor"]])
  /\ Page.handleElementSelect "constructor"
       (Some {| Page.ctrlKey := true; Page.metaKey := false |}) p
     = (Page.withSelection (Some "constructor") ["A"; "constructor"] p,
        [Page.CallSelectElements ["A"; "constructor"]])
  /\ Page.handleElementSelect "constructor" None p <> (p, []).
Proof.
  cbv zeta. split; [|split; [|split]].
  - eexists _, _. split; [reflexivity|]. split; [reflexivity|].
    vm_compute. reflexivity.
  - vm_compute. reflexivity.
  - vm_compute. reflexivity.
  - vm_compute. discriminate.
Qed.

(** ** Scene readiness *)

Lemma checkReady_settles (sceneReady : nat -> bool) (fuel attempts waited : nat) :
  attempts < Lifecycle.maxAttempts ->
  Lifecycle.maxAttempts <= attempts + fuel ->
  exists run,
    Lifecycle.checkReady fuel sceneReady attempts waited = Some run
    /\ attempts < Lifecycle.attemptsMade run <= Lifecycle.maxAttempts
    /\ Lifecycle.waitedMs run
       = waited + Lifecycle.pollIntervalMs
                  * (Lifecycle.attemptsMade run - attempts - 1)
    /\ (forall k, attempts < k < Lifecycle.attemptsMade run ->
                  sceneReady k = false)
    /\ (if sceneReady (Lifecycle.attemptsMade run)
        then Lifecycle.outcome run = Lifecycle.Resolved
        else Lifecycle.outcome run = Lifecycle.Rejected Lifecycle.timeoutMessage
             /\ Lifecycle.attemptsMade run = Lifecycle.maxAttempts).
Proof.
  unfold Lifecycle.maxAttempts, Lifecycle.pollIntervalMs.
  revert attempts waited.
  induction fuel as [|fuel IH]; intros attempts waited Hlt Hfuel; [lia|].
  cbn [Lifecycle.checkReady].
  unfold Lifecycle.maxAttempts, Lifecycle.pollIntervalMs.
  destruct (sceneReady (S attempts)) eqn:Hr.
  - eexists. split; [reflexivity|].
    cbn [Lifecycle.outcome Lifecycle.attemptsMade Lifecycle.waitedMs].
    rewrite Hr. split; [lia|]. split; [lia|]. split; [intros; lia|done].
  - destruct (50 <=? S attempts)%nat eqn:Hmax.
    + apply Nat.leb_le in Hmax.
      eexists. split; [reflexivity|].
      cbn [Lifecycle.outcome Lifecycle.attemptsMade Lifecycle.waitedMs].
      rewrite Hr. split; [lia|]. split; [lia|]. split; [intros; lia|].
      split; [done|lia].
    + apply Nat.leb_gt in Hmax.
      destruct (IH (S attempts) (waited + 100))
        as (run & Hrun & Hb & Hw & Hk & Ho); [lia|lia|].
      exists run. split; [exact Hrun|].
      split; [lia|]. split; [rewrite Hw; lia|].
      split; [|exact Ho].
      intros k Hkk. destruct (decide (k = S attempts)) as [->|]; [done|].
      apply Hk. lia.
Qed.

Lemma checkReady_fuel_mono (sceneReady : nat -> bool) (fuel fuel' attempts waited : nat)
  (run : Lifecycle.PollRun) :
  Lifecycle.checkReady fuel sceneReady attempts waited = Some run ->
  fuel <= fuel' ->
  Lifecycle.checkReady fuel' sceneReady attempts waited = Some run.
Proof.
  revert fuel' attempts waited.
  induction fuel as [|fuel IH]; intros fuel' attempts waited Hrun Hle; [done|].
  destruct fuel' as [|fuel']; [lia|].
  cbn [Lifecycle.checkReady] in *.
  destruct (sceneReady (S attempts)); [done|].
  destruct (Lifecycle.maxAttempts <=? S attempts)%nat; [done|].
  apply IH; [done|lia].
Qed.

(** C7. Whatever the scene does, [waitForViewerReady] settles after at
    most 50 checks, 100 ms apart: it resolves at the first check that
    finds the scene, and when none of the 50 does it rejects with the
    timeout message, upon which [initViewer] leaves the mounted component
    in its failed state: not loading, the error set to that message. *)
Theorem scene_poll_bounded (sceneReady : nat -> bool) :
  exists run,
    Lifecycle.waitForViewerReady Lifecycle.maxAttempts sceneReady = Some run
    /\ (forall fuel, Lifecycle.maxAttempts <= fuel ->
          Lifecycle.waitForViewerReady fuel sceneReady = Some run)
    /\ 1 <= Lifecycle.attemptsMade run <= 50
    /\ Lifecycle.waitedMs run = 100 * (Lifecycle.attemptsMade run - 1)
    /\ (forall k, 1 <= k < Lifecycle.attemptsMade run -> sceneReady k = false)
    /\ (Lifecycle.outcome run = Lifecycle.Resolved ->
          sceneReady (Lifecycle.attemptsMade run) = true)
    /\ ((forall k, 1 <= k <= 50 -> sceneReady k = false) ->
          Lifecycle.outcome run = Lifecycle.Rejected Lifecycle.timeoutMessage
          /\ Lifecycle.attemptsMade run = 50
          /\ Lifecycle.waitedMs run = 4900
          /\ forall st,
               Lifecycle.initViewerToSceneReady Lifecycle.maxAttempts
                 sceneReady true st
               = Some (Lifecycle.Failed,
                       {| Lifecycle.loading := false;
                          Lifecycle.error := Some Lifecycle.timeoutMessage |})).
Proof.
  destruct (checkReady_settles sceneReady Lifecycle.maxAttempts 0 0)
    as (run & Hrun & Hb & Hw & Hk & Ho);
    [unfold Lifecycle.maxAttempts; lia | lia |].
  unfold Lifecycle.maxAttempts, Lifecycle.pollIntervalMs in *.
  exists run. split; [exact Hrun|]. split.
  { intros fuel Hf. eapply checkReady_fuel_mono; eauto. }
  split; [lia|]. split; [rewrite Hw; lia|].
  split; [intros k Hkk; apply Hk; lia|]. split.
  { intros Hres. destruct (sceneReady (Lifecycle.attemptsMade run)); [done|].
    destruct Ho as [Ho _]. congruence. }
  intros Hnever.
  rewrite (Hnever (Lifecycle.attemptsMade run)) in Ho by lia.
  destruct Ho as [Ho Hn].
  split; [exact Ho|]. split; [exact Hn|]. split; [rewrite Hw, Hn; lia|].
  intros st. unfold Lifecycle.initViewerToSceneReady.
  unfold Lifecycle.waitForViewerReady, Lifecycle.maxAttempts in *.
  rewrite Hrun, Ho. reflexivity.
Qed.

Example scene_poll_never_ready :
  Lifecycle.waitForViewerReady 50 (fun _ => false)
  = Some {| Lifecycle.outcome := Lifecycle.Rejected Lifecycle.timeoutMessage;
            Lifecycle.attemptsMade := 50; Lifecycle.waitedMs := 4900 |}.
Proof. vm_compute. reflexivity. Qed.

Example scene_poll_ready_at_third_check :
  Lifecycle.waitForViewerReady 50 (fun k => Nat.eqb k 3)
  = Some {| Lifecycle.outcome := Lifecycle.Resolved;
            Lifecycle.attemptsMade := 3; Lifecycle.waitedMs := 200 |}.
Proof. vm_compute. reflexivity. Qed.

(** ** What a write leaves alone *)

Lemma map_upd_preserved {A} (g : Entity -> A) h f objs :
  (forall e, g (f e) = g e) -> map g (upd h f objs) = map g objs.
Proof.
  intros Hf. unfold upd. rewrite map_map. apply map_ext.
  intros e. case_bool_decide; [apply Hf | done].
Qed.

Lemma map_forEachUpd_preserved {A} (g : Entity -> A) hs f objs :
  (forall e, g (f e) = g e) -> map g (forEachUpd hs f objs) = map g objs.
Proof.
  intros Hf. unfold forEachUpd. revert objs.
  induction hs as [|h hs IH]; intros objs; simpl; [done|].
  rewrite IH. by apply map_upd_preserved.
Qed.

Lemma setEntityVisible_material b e :
  material (setEntityVisible b e) = material e.
Proof. unfold setEntityVisible. by repeat case_match. Qed.

Lemma writeColorize_material c e : material (writeColorize c e) = material e.
Proof. unfold writeColorize. by repeat case_match. Qed.

Lemma applyVisible_materials sc m hs b objs :
  map material (applyVisible sc m hs b objs) = map material objs.
Proof.
  unfold applyVisible, setObjectsVisible.
  repeat case_match;
    rewrite ?(map_forEachUpd_preserved material _ (set_visible b)) by done;
    by rewrite (map_forEachUpd_preserved material) by apply setEntityVisible_material.
Qed.

Lemma reassertHighlight_materials sc hs objs :
  map material (reassertHighlight sc hs objs) = map material objs.
Proof.
  unfold reassertHighlight, setObjectsColorized.
  repeat case_match; try done.
  - by rewrite (map_forEachUpd_preserved material).
  - by rewrite (map_forEachUpd_preserved material) by apply writeColorize_material.
Qed.

(** C10. [hideElements] and [showElements] neither read nor write the
    appearance ledger: after either call the map of original colours is
    the one before the call, and so are the list of previously selected
    objects and every material (what a ledger record that is a
    [material.color] object reads as). *)
Theorem visibility_ops_leave_ledger (ids : list string) (v : Viewer) :
  originalColors (hideElements ids v) = originalColors v
  /\ originalColors (showElements ids v) = originalColors v
  /\ previouslySelectedEntities (hideElements ids v)
     = previouslySelectedEntities v
  /\ previouslySelectedEntities (showElements ids v)
     = previouslySelectedEntities v
  /\ materialsOf (hideElements ids v) = materialsOf v
  /\ materialsOf (showElements ids v) = materialsOf v.
Proof.
  unfold hideElements, showElements, materialsOf, liveObjects.
  destruct (viewerScene v) as [sc|] eqn:Hsc; [|by rewrite Hsc].
  destruct (modelRef v) as [m|]; [|by rewrite Hsc].
  destruct (resolveAll m (objects sc) ids) as [|h hs];
    destruct (omap (resolveEntityShow m (objects sc)) ids) as [|h' hs'];
    rewrite ?Hsc; cbn [viewerScene originalColors previouslySelectedEntities
                       objects set_objects];
    rewrite ?reassertHighlight_materials, ?applyVisible_materials; done.
Qed.

Example hide_then_show_keeps_ledger :
  let v := selectElements ["A"] abcdViewer in
  originalColors (showElements ["A"] (hideElements ["A"] v)) = originalColors v
  /\ size (originalColors v) = 1.
Proof. vm_compute. split; reflexivity. Qed.

(** ** Batches, object by object *)

Lemma forEachUpd_onMembers hs f objs :
  (forall e, id (f e) = id e) ->
  (forall e, f (f e) = f e) ->
  forEachUpd hs f objs = onMembers hs f objs.
Proof.
  intros Hid Hidem. unfold forEachUpd, onMembers. revert objs.
  induction hs as [|h hs IH]; intros objs; cbn [foldl].
  - transitivity (map (fun e : Entity => e) objs); [by rewrite map_id|].
    apply map_ext. intros e.
    by rewrite (bool_decide_eq_false_2 (id e ∈ [])) by apply not_elem_of_nil.
  - rewrite IH. unfold upd. rewrite map_map. apply map_ext. intros e.
    destruct (decide (id e = h)) as [Heq|Hne].
    + rewrite (bool_decide_eq_true_2 (id e = h)) by done.
      rewrite Hid.
      rewrite (bool_decide_eq_true_2 (id e ∈ h :: hs)) by (rewrite Heq; left).
      case_bool_decide; [apply Hidem | done].
    + rewrite (bool_decide_eq_false_2 (id e = h)) by done.
      rewrite (bool_decide_ext (id e ∈ h :: hs) (id e ∈ hs)); [done|].
      rewrite elem_of_cons. tauto.
Qed.

Lemma onMembers_compose hs f g objs :
  (forall e, id (f e) = id e) ->
  onMembers hs g (onMembers hs f objs) = onMembers hs (fun e => g (f e)) objs.
Proof.
  intros Hid. unfold onMembers. rewrite map_map. apply map_ext. intros e.
  destruct (decide (id e ∈ hs)) as [Hin|Hin].
  - rewrite (bool_decide_eq_true_2 (id e ∈ hs) Hin).
    by rewrite bool_decide_eq_true_2 by (by rewrite Hid).
  - rewrite (bool_decide_eq_false_2 (id e ∈ hs) Hin).
    by rewrite (bool_decide_eq_false_2 (id e ∈ hs) Hin).
Qed.

Lemma onMembers_lookup hs f objs (i : nat) :
  onMembers hs f objs !! i
  = (fun e => if bool_decide (id e ∈ hs) then f e else e) <$> objs !! i.
Proof. unfold onMembers. apply list_lookup_fmap. Qed.

Lemma setEntityVisible_id b e : id (setEntityVisible b e) = id e.
Proof. unfold setEntityVisible. by repeat case_match. Qed.

Lemma setEntityVisible_idem b e :
  setEntityVisible b (setEntityVisible b e) = setEntityVisible b e.
Proof.
  destruct e as [i [v sv cu scu cz hd hl] vis sel col hv hc mat].
  destruct v, sv, cu, scu; reflexivity.
Qed.

Lemma visibleOne_id sc m b e : id (visibleOne sc m b e) = id e.
Proof.
  unfold visibleOne. repeat case_match; simpl; by rewrite ?setEntityVisible_id.
Qed.

Lemma applyVisible_onMembers sc m hs b objs :
  applyVisible sc m hs b objs = onMembers hs (visibleOne sc m b) objs.
Proof.
  unfold applyVisible, setObjectsVisible, visibleOne.
  rewrite (forEachUpd_onMembers hs (setEntityVisible b))
    by first [apply setEntityVisible_id | apply setEntityVisible_idem].
  destruct (has_setObjectsVisible sc), (model_has_setObjectsVisible m);
    rewrite ?(forEachUpd_onMembers hs (set_visible b)) by done;
    rewrite ?onMembers_compose;
    try done; intros; simpl; by rewrite ?setEntityVisible_id.
Qed.

Lemma visibleOne_visible sc m b e :
  visible (visibleOne sc m b e)
  = if visibilityWritable sc m e then b else visible e.
Proof.
  unfold visibleOne, visibilityWritable, setEntityVisible.
  destruct (cap_visible (caps e)), (cap_setVisible (caps e)),
    (cap_culled (caps e)), (cap_setCulled (caps e)),
    (has_setObjectsVisible sc), (model_has_setObjectsVisible m); done.
Qed.

Lemma visibleOne_caps sc m b e : caps (visibleOne sc m b e) = caps e.
Proof.
  unfold visibleOne, setEntityVisible. by repeat case_match.
Qed.

Lemma reassertHighlight_visible sc hs objs :
  map (fun e => (id e, caps e, visible e)) (reassertHighlight sc hs objs)
  = map (fun e => (id e, caps e, visible e)) objs.
Proof.
  unfold reassertHighlight, setObjectsColorized.
  repeat case_match; try done.
  - by rewrite (map_forEachUpd_preserved _ _ (set_colorizeV blueColor)).
  - rewrite (map_forEachUpd_preserved _ _ (writeColorize blueColor)); [done|].
    intros e. unfold writeColorize. by repeat case_match.
Qed.

Lemma onMembers_nil f objs : onMembers [] f objs = objs.
Proof.
  unfold onMembers. transitivity (map (fun e : Entity => e) objs);
    [|by rewrite map_id].
  apply map_ext. intros e.
  by rewrite (bool_decide_eq_false_2 (id e ∈ [])) by apply not_elem_of_nil.
Qed.

Lemma map_eq_lookup {A B} (g : A -> B) (l1 l2 : list A) (i : nat) (x2 : A) :
  map g l1 = map g l2 -> l2 !! i = Some x2 ->
  exists x1, l1 !! i = Some x1 /\ g x1 = g x2.
Proof.
  intros Hmap Hx2.
  assert (H : map g l1 !! i = Some (g x2))
    by (rewrite Hmap, list_lookup_fmap, Hx2; done).
  rewrite list_lookup_fmap in H.
  destruct (l1 !! i) as [x1|]; [|done]. exists x1. split; [done|].
  by injection H.
Qed.

Lemma visibilityWritable_visibleOne sc m b e :
  visibilityWritable sc m (visibleOne sc m b e) = visibilityWritable sc m e.
Proof. unfold visibilityWritable. by rewrite visibleOne_caps. Qed.

(** The visibility an isolation pass leaves on each object: shown when
    its key is the composite key of one of the ids, hidden otherwise,
    untouched when the build offers no way to write it. *)
Lemma isolate_visible sc m v ids (i : nat) o :
  viewerScene v = Some sc -> modelRef v = Some m ->
  objects sc !! i = Some o ->
  exists o',
    liveObjects (isolateElements (Some ids) v) !! i = Some o'
    /\ id o' = id o
    /\ visible o'
       = if visibilityWritable sc m o
         then bool_decide (id o ∈ omap (resolveEntityIsolate m (objects sc)) ids)
         else visible o.
Proof.
  intros Hsc Hm Ho. unfold isolateElements, liveObjects. rewrite Hsc, Hm.
  cbn [viewerScene set_objects objects].
  set (E := omap (resolveEntityIsolate m (objects sc)) ids).
  set (hidden := match keys (objects sc) with
                 | [] => objects sc
                 | _ => applyVisible sc m (keys (objects sc)) false (objects sc)
                 end).
  assert (Hhidden : hidden
                    = onMembers (keys (objects sc)) (visibleOne sc m false)
                        (objects sc)).
  { subst hidden. destruct (keys (objects sc)) eqn:Hk.
    - by rewrite onMembers_nil.
    - by rewrite applyVisible_onMembers. }
  set (final := match E with
                | [] => hidden
                | _ => reassertHighlight sc
                         (filter (fun h => h ∈ selectedArray (objects sc)) E)
                         (applyVisible sc m E true hidden)
                end).
  assert (Hfinal : map (fun e => (id e, caps e, visible e)) final
                   = map (fun e => (id e, caps e, visible e))
                       (onMembers E (visibleOne sc m true) hidden)).
  { subst final. destruct E eqn:HE.
    - by rewrite onMembers_nil.
    - by rewrite reassertHighlight_visible, applyVisible_onMembers. }
  assert (Hin : id o ∈ keys (objects sc)).
  { unfold keys. apply list_elem_of_fmap. exists o. split; [done|].
    eapply list_elem_of_lookup_2; eauto. }
  assert (Hlk : onMembers E (visibleOne sc m true) hidden !! i
                = Some (if bool_decide (id o ∈ E)
                        then visibleOne sc m true (visibleOne sc m false o)
                        else visibleOne sc m false o)).
  { rewrite onMembers_lookup, Hhidden, onMembers_lookup, Ho. simpl.
    rewrite (bool_decide_eq_true_2 _ Hin). by rewrite visibleOne_id. }
  destruct (map_eq_lookup _ _ _ _ _ Hfinal Hlk) as (o' & Ho' & Heq).
  exists o'. split; [exact Ho'|].
  injection Heq as Hid Hcaps Hvis. rewrite Hid, Hvis.
  case_bool_decide.
  - rewrite visibleOne_id, visibleOne_id. split; [done|].
    rewrite visibleOne_visible, visibilityWritable_visibleOne.
    destruct (visibilityWritable sc m o) eqn:Hw; [done|].
    by rewrite visibleOne_visible, Hw.
  - rewrite visibleOne_id. split; [done|].
    by rewrite visibleOne_visible.
Qed.

(** C8. [isolateElements] with a list of ids looks each id up under the
    composite key alone.  An object that is the object of one of the ids
    under the bare key or a key ending in "#" and the id, while no id of
    the batch reaches it by composite key, is not in the shown set and is
    invisible after the pass (on a build that can write its visibility),
    although the lookups of [selectElements], [hideElements] and
    [showElements] do find an object for that id. *)
Theorem isolate_uses_composite_key_only (sc : Scene) (m : Model) (v : Viewer)
  (ids : list string) (x : string) (i : nat) (o : Entity) :
  viewerScene v = Some sc -> modelRef v = Some m ->
  objects sc !! i = Some o ->
  x ∈ ids ->
  id o = x \/ endsWith (id o) ("#" +:+ x) = true ->
  compositeKey (model_id m) x ∉ keys (objects sc) ->
  (forall y, y ∈ ids -> id o <> compositeKey (model_id m) y) ->
  visibilityWritable sc m o = true ->
  resolveEntityIsolate m (objects sc) x = None
  /\ (id o ∉ omap (resolveEntityIsolate m (objects sc)) ids)
  /\ (exists o', liveObjects (isolateElements (Some ids) v) !! i = Some o'
                 /\ id o' = id o /\ visible o' = false)
  /\ is_Some (resolveEntity m (objects sc) x)
  /\ is_Some (resolveEntityShow m (objects sc) x).
Proof.
  intros Hsc Hm Ho Hx Hshape Hnocomp Hnone Hw.
  assert (Hin : id o ∈ keys (objects sc)).
  { unfold keys. apply list_elem_of_fmap. exists o. split; [done|].
    eapply list_elem_of_lookup_2; eauto. }
  assert (Hnotshown : id o ∉ omap (resolveEntityIsolate m (objects sc)) ids).
  { intros Hc. apply list_elem_of_omap in Hc as (y & Hy & Hres).
    unfold resolveEntityIsolate in Hres.
    destruct (hasKey (compositeKey (model_id m) y) (objects sc)); [|done].
    injection Hres as Hres. by apply (Hnone y). }
  assert (Hres : is_Some (resolveEntity m (objects sc) x)).
  { rewrite resolveEntity_chain.
    rewrite (bool_decide_eq_false_2 _ Hnocomp).
    case_bool_decide as Hbare; [by eexists|].
    destruct Hshape as [Heq|Hsuf]; [by rewrite Heq in Hin|].
    destruct (filter (fun k => endsWith k ("#" +:+ x) = true)
                (keys (objects sc))) as [|k ks] eqn:Hf; [|by eexists].
    exfalso. eapply (not_elem_of_nil (id o)). rewrite <- Hf.
    by apply list_elem_of_filter. }
  split; [|split; [exact Hnotshown|split; [|split; [exact Hres|]]]].
  - unfold resolveEntityIsolate. rewrite hasKey_spec.
    by rewrite (bool_decide_eq_false_2 _ Hnocomp).
  - destruct (isolate_visible sc m v ids i o Hsc Hm Ho) as (o' & Ho' & Hid & Hvis).
    exists o'. split; [done|]. split; [done|].
    rewrite Hvis, Hw. by apply bool_decide_eq_false_2.
  - unfold resolveEntityShow. destruct Hres as [h ->]. by eexists.
Qed.

Lemma isolate_uses_composite_key_only_witness :
  resolveEntityIsolate (sampleModel "m") (objects (plainScene ["E1"; "m#E2"])) "E1"
  = None
  /\ exists o',
       liveObjects (isolateElements (Some ["E1"; "E2"])
                      (mounted (plainScene ["E1"; "m#E2"]) (sampleModel "m")))
         !! 0%nat = Some o'
       /\ id o' = "E1" /\ visible o' = false.
Proof.
  destruct (isolate_uses_composite_key_only
              (plainScene ["E1"; "m#E2"]) (sampleModel "m")
              (mounted (plainScene ["E1"; "m#E2"]) (sampleModel "m"))
              ["E1"; "E2"] "E1" 0 (plainEntity "E1"))
    as (H1 & _ & H3 & _).
  - reflexivity.
  - reflexivity.
  - reflexivity.
  - apply list_elem_of_In. simpl. tauto.
  - left. reflexivity.
  - intros Hc. apply list_elem_of_In in Hc. vm_compute in Hc.
    intuition discriminate.
  - intros y Hy. apply list_elem_of_In in Hy. simpl in Hy.
    destruct Hy as [<-|[<-|[]]]; vm_compute; discriminate.
  - reflexivity.
  - split; [exact H1 | exact H3].
Defined.

(** ** Isolation and the hidden set *)



(** ** The ledger and the highlight colour *)

(** What the capture stores for an array or a Float32Array is never the
    highlight colour as it reads at that moment. *)
Lemma colorToSave_not_highlight e :
  (isArrayVal e (colorToSave e) || isFloat32Val e (colorToSave e)) = true ->
  isBlueComps (compsOf e (colorToSave e)) = false.
Proof.
  unfold colorToSave.
  destruct (negb (isNull (getEntityColor e))
            && (isArrayVal e (getEntityColor e)
                || isFloat32Val e (getEntityColor e))
            && isBlueComps (compsOf e (getEntityColor e))) eqn:Hc.
  - done.
  - intros Harr. rewrite Harr in Hc.
    destruct (isNull (getEntityColor e)) eqn:Hn.
    + destruct (getEntityColor e); done.
    + simpl in Hc. done.
Qed.

(** C2, on the code. An object whose only colour member is a plain array
    under [material.color], red, is selected once.  The capture stores
    that array itself; the highlight chain then writes the highlight
    colour into it component by component, so the record of the ledger
    reads as the highlight colour.  Deselecting restores nothing: the
    record is consumed and the object keeps the highlight colour. *)
Theorem ledger_record_becomes_highlight :
  let v1 := selectElements ["E1"] arrayMaterialViewer in
  let v2 := selectElements [] v1 in
  colorToSave (arrayMaterialEntity "m#E1") = VMaterialColor
  /\ compsOf (arrayMaterialEntity "m#E1") VMaterialColor = [1; 0; 0]%Q
  /\ originalColors v1 !! "m#E1" = Some VMaterialColor
  /\ ledgerHoldsHighlight v1 "m#E1" = true
  /\ ((fun e => compsOf e VMaterialColor) <$> lookupObj "m#E1" (liveObjects v1))
     = Some [blueR; blueG; blueB]
  /\ size (originalColors v2) = 0
  /\ ((fun e => compsOf e VMaterialColor) <$> lookupObj "m#E1" (liveObjects v2))
     = Some [blueR; blueG; blueB].
Proof. vm_compute. repeat split; reflexivity. Qed.

(** ** The selection pass, step by step *)

Section SelectionPass.

(** The scene whose capabilities the pass probes. *)
Variable sc : Scene.

Lemma restoreEntityColor_frame c e :
  id (restoreEntityColor sc c e) = id e
  /\ caps (restoreEntityColor sc c e) = caps e
  /\ selected (restoreEntityColor sc c e) = selected e
  /\ highlightedV (restoreEntityColor sc c e) = highlightedV e
  /\ highlightColor (restoreEntityColor sc c e) = highlightColor e
  /\ (colorizeWritable sc e = false ->
      colorizeV (restoreEntityColor sc c e) = colorizeV e).
Proof.
  unfold restoreEntityColor, sceneColorizeOne, restoreMaterial, writeColorize,
    colorizeWritable.
  destruct e as [i [v sv cu scu cz hd hl] vis sel col hv hc mat].
  cbn [caps cap_colorize].
  destruct (has_setObjectsColorized sc), cz, (isNull c);
    cbn; repeat case_match; cbn; repeat split; try done.
Qed.

Lemma restoreEntityColor_id c e : id (restoreEntityColor sc c e) = id e.
Proof. apply restoreEntityColor_frame. Qed.

Lemma highlightEntity_id e : id (highlightEntity sc e) = id e.
Proof.
  unfold highlightEntity, sceneColorizeOne. repeat case_match; done.
Qed.

Lemma upd_absent h f objs : h ∉ keys objs -> upd h f objs = objs.
Proof.
  intros Hh. unfold upd.
  transitivity (map (fun e : Entity => e) objs); [|by rewrite map_id].
  apply map_ext_in. intros e He.
  rewrite bool_decide_eq_false_2; [done|].
  intros Heq. apply Hh. rewrite <- Heq. unfold keys.
  apply list_elem_of_fmap. exists e. split; [done|]. by apply list_elem_of_In.
Qed.

Lemma restore_fold_ledger hs objs (L : gmap string JsVal) :
  (foldl (restorePrevious sc) (objs, L) hs).2
  = foldl (fun L h => delete h L) L hs.
Proof.
  revert objs L. induction hs as [|h hs IH]; intros objs L; [done|].
  cbn [foldl]. unfold restorePrevious at 2. cbn [fst snd].
  destruct (L !! h) eqn:HL; rewrite IH; [done|].
  by rewrite delete_id.
Qed.

Lemma restore_fold_keys hs objs (L : gmap string JsVal) :
  keys (foldl (restorePrevious sc) (objs, L) hs).1 = keys objs.
Proof.
  revert objs L. induction hs as [|h hs IH]; intros objs L; [done|].
  cbn [foldl]. unfold restorePrevious at 2. cbn [fst snd].
  destruct (L !! h); rewrite IH; apply keys_upd; apply restoreEntityColor_id.
Qed.

Lemma dom_fold_delete hs (L : gmap string JsVal) :
  dom (foldl (fun L h => delete h L) L hs) = dom L ∖ list_to_set hs.
Proof.
  revert L. induction hs as [|h hs IH]; intros L; cbn [foldl].
  - set_solver.
  - rewrite IH, dom_delete_L. set_solver.
Qed.

Lemma capture_fold_objects hs objs (L : gmap string JsVal) :
  (foldl (captureAndHighlight sc) (objs, L) hs).1
  = forEachUpd hs (highlightEntity sc) objs.
Proof.
  unfold forEachUpd. revert objs L.
  induction hs as [|h hs IH]; intros objs L; [done|].
  cbn [foldl]. unfold captureAndHighlight at 2. cbn [fst snd].
  destruct (lookupObj h objs) eqn:Hl.
  - by rewrite IH.
  - rewrite IH. apply lookupObj_None in Hl. by rewrite upd_absent.
Qed.

Lemma capture_fold_dom hs objs (L : gmap string JsVal) :
  Forall (fun h => h ∈ keys objs) hs ->
  dom (foldl (captureAndHighlight sc) (objs, L) hs).2
  = dom L ∪ list_to_set hs.
Proof.
  revert objs L. induction hs as [|h hs IH]; intros objs L Hall.
  - cbn. set_solver.
  - apply Forall_cons in Hall as [Hh Hall].
    cbn [foldl]. unfold captureAndHighlight at 2. cbn [fst snd].
    destruct (lookupObj h objs) as [e|] eqn:Hl.
    + rewrite IH.
      * destruct (L !! h) eqn:HL.
        -- apply elem_of_dom_2 in HL. set_solver.
        -- rewrite dom_insert_L. set_solver.
      * by rewrite keys_upd by apply highlightEntity_id.
    + apply lookupObj_None in Hl. done.
Qed.

Lemma Forall2_diag {A} (P : A -> A -> Prop) (l : list A) :
  (forall x, P x x) -> Forall2 P l l.
Proof. intros HP. induction l; constructor; auto. Qed.

Lemma Forall2_map_l_impl {A B} (P Q : A -> B -> Prop) (G : A -> A)
  (l : list A) (k : list B) :
  Forall2 P (map G l) k -> (forall x y, P (G x) y -> Q x y) -> Forall2 Q l k.
Proof.
  intros H HPQ. revert k H.
  induction l as [|x l IH]; intros k H; simpl in H; inversion H; subst;
    constructor; auto.
Qed.

Lemma Forall2_map_eq {A B C} (g : A -> C) (g' : B -> C) (l : list A) (k : list B) :
  Forall2 (fun a b => g a = g' b) l k -> map g l = map g' k.
Proof. induction 1; simpl; congruence. Qed.

Lemma Forall2_with_Forall_l {A B} (P : A -> Prop) (R : A -> B -> Prop)
  (l : list A) (k : list B) :
  Forall P l -> Forall2 R l k -> Forall2 (fun a b => P a /\ R a b) l k.
Proof.
  intros HP HR. induction HR; [constructor|].
  apply Forall_cons in HP as [? ?]. constructor; auto.
Qed.

Lemma colorizeWritable_caps e e' :
  caps e' = caps e -> colorizeWritable sc e' = colorizeWritable sc e.
Proof. unfold colorizeWritable. by intros ->. Qed.

(** The restore loop on its own: it keeps ids, members, selected flags
    and highlight state, keeps the colorize override where the build
    cannot write it, and leaves every object outside [hs] as it was. *)
Lemma restore_fold_objects hs objs (L : gmap string JsVal) :
  Forall2 (fun e e' =>
             id e' = id e /\ caps e' = caps e /\ selected e' = selected e
             /\ highlightedV e' = highlightedV e
             /\ highlightColor e' = highlightColor e
             /\ (colorizeWritable sc e = false -> colorizeV e' = colorizeV e)
             /\ (id e ∉ hs -> e' = e))
    objs (foldl (restorePrevious sc) (objs, L) hs).1.
Proof.
  revert objs L. induction hs as [|h hs IH]; intros objs L.
  - cbn. apply Forall2_diag. intros e. repeat split; done.
  - cbn [foldl]. unfold restorePrevious at 2. cbn [fst snd].
    assert (Hstep : forall c L',
      Forall2 (fun e e' =>
             id e' = id e /\ caps e' = caps e /\ selected e' = selected e
             /\ highlightedV e' = highlightedV e
             /\ highlightColor e' = highlightColor e
             /\ (colorizeWritable sc e = false -> colorizeV e' = colorizeV e)
             /\ (id e ∉ h :: hs -> e' = e))
        objs
        (foldl (restorePrevious sc)
           (upd h (restoreEntityColor sc c) objs, L') hs).1).
    { intros c L'. eapply Forall2_map_l_impl; [apply (IH _ L')|].
      intros e e' (Hid & Hcaps & Hsel & Hhv & Hhc & Hcol & Hframe).
      destruct (restoreEntityColor_frame c e)
        as (Rid & Rcaps & Rsel & Rhv & Rhc & Rcol).
      case_bool_decide as Hh.
      - rewrite Hid, Hcaps, Hsel, Hhv, Hhc, Rid, Rcaps, Rsel, Rhv, Rhc.
        repeat split; try done.
        + intros Hw. rewrite Hcol; [by apply Rcol|].
          by rewrite (colorizeWritable_caps e _ Rcaps).
        + intros Hn. exfalso. apply Hn. rewrite Hh. left.
      - rewrite Hid, Hcaps, Hsel, Hhv, Hhc. repeat split; try done.
        intros Hn. apply Hframe. intros Hc. apply Hn. by right. }
    destruct (L !! h); apply Hstep.
Qed.

(** The whole pass over the previous selection. *)
Lemma restore_pass prev objs (L : gmap string JsVal) :
  Forall2 (restoredFrom sc prev) objs
    (foldl (restorePrevious sc) (setObjectsSelected prev false objs, L) prev).1.
Proof.
  unfold setObjectsSelected.
  rewrite (forEachUpd_onMembers prev (set_selected false)) by done.
  unfold onMembers.
  eapply Forall2_map_l_impl; [apply restore_fold_objects|].
  intros e e' (Hid & Hcaps & Hsel & Hhv & Hhc & Hcol & Hframe).
  unfold restoredFrom.
  destruct (decide (id e ∈ prev)) as [Hin|Hnin].
  - rewrite (bool_decide_eq_true_2 _ Hin) in *. cbn in *.
    repeat split; try done; auto.
  - rewrite (bool_decide_eq_false_2 _ Hnin) in *.
    repeat split; try done; auto.
Qed.

Lemma highlightEntity_idem e :
  highlightEntity sc (highlightEntity sc e) = highlightEntity sc e.
Proof.
  unfold highlightEntity, sceneColorizeOne, matColorizeTruthy,
    writeMatColorize, writeMatColorComps.
  destruct e as [i [v sv cu scu cz hd hl] vis sel col hv hc mat].
  destruct cz, hd, hl; cbn; try done.
  destruct mat as [[mc mk]|]; cbn.
  2: { destruct (has_setObjectsColorized sc) eqn:Hs; cbn; rewrite ?Hs; done. }
  destruct mc as [|l|c]; cbn.
  - destruct mk as [| |[ia if32 srgb sset scopy comps]]; cbn; try done.
    destruct srgb, sset, ia; cbn; done.
  - done.
  - destruct c; cbn; try done.
    destruct mk as [| |[ia if32 srgb sset scopy comps]]; cbn; try done.
    destruct srgb, sset, ia; cbn; done.
Qed.

Lemma paintOne_id e : id (paintOne sc e) = id e.
Proof.
  unfold paintOne. case_match; cbn; by rewrite highlightEntity_id.
Qed.

(** The channels a painted object shows, from the object it was. *)
Lemma channels_paintOne e :
  caps (paintOne sc e) = caps e
  /\ channelsOf (paintOne sc e)
     = (id e, true,
        if colorizeWritable sc e then blueColor else colorizeV e,
        if usesHighlightedFlag e then true else highlightedV e,
        if usesHighlightMethod e then blueColor else highlightColor e).
Proof.
  unfold paintOne, channelsOf, highlightEntity, sceneColorizeOne,
    colorizeWritable, usesHighlightedFlag, usesHighlightMethod.
  destruct e as [i [v sv cu scu cz hd hl] vis sel col hv hc mat].
  destruct (has_setObjectsColorized sc), cz, hd, hl; cbn;
    repeat case_match; cbn; done.
Qed.

Lemma paintOne_set_objects objs : paintOne (set_objects objs sc) = paintOne sc.
Proof. reflexivity. Qed.

Lemma paint_pass E objs (L : gmap string JsVal) :
  (if has_setObjectsColorized sc
   then setObjectsColorized E blueColor
          (foldl (captureAndHighlight sc)
             (setObjectsSelected E true objs, L) E).1
   else (foldl (captureAndHighlight sc)
           (setObjectsSelected E true objs, L) E).1)
  = onMembers E (paintOne sc) objs.
Proof.
  rewrite capture_fold_objects.
  unfold setObjectsSelected, setObjectsColorized.
  rewrite (forEachUpd_onMembers E (set_selected true)) by done.
  rewrite (forEachUpd_onMembers E (highlightEntity sc))
    by first [apply highlightEntity_id | apply highlightEntity_idem].
  rewrite onMembers_compose by done.
  unfold paintOne. destruct (has_setObjectsColorized sc).
  - rewrite (forEachUpd_onMembers E (set_colorizeV blueColor)) by done.
    rewrite onMembers_compose; [done|].
    intros e. by rewrite highlightEntity_id.
  - done.
Qed.

End SelectionPass.

(** [selectElements] on a mounted viewer, as one pass over the previous
    selection followed by one pass over the resolved objects. *)
Lemma selectElements_ready sc m v ids :
  viewerScene v = Some sc -> modelRef v = Some m ->
  exists restored,
    Forall2 (restoredFrom sc (previouslySelectedEntities v)) (objects sc) restored
    /\ viewerScene (selectElements ids v)
       = Some (set_objects
                 (onMembers (resolveAll m (objects sc) ids) (paintOne sc) restored)
                 sc)
    /\ modelRef (selectElements ids v) = Some m
    /\ previouslySelectedEntities (selectElements ids v)
       = resolveAll m (objects sc) ids
    /\ recordedHandles (selectElements ids v)
       = (recordedHandles v ∖ list_to_set (previouslySelectedEntities v))
         ∪ list_to_set (resolveAll m (objects sc) ids).
Proof.
  intros Hsc Hm. unfold selectElements, recordedHandles. rewrite Hsc, Hm.
  set (prev := previouslySelectedEntities v).
  set (L := originalColors v).
  set (restored :=
         match prev with
         | [] => (objects sc, L)
         | _ => foldl (restorePrevious sc)
                  (setObjectsSelected prev false (objects sc), L) prev
         end).
  assert (Hrestored : restored
            = foldl (restorePrevious sc)
                (setObjectsSelected prev false (objects sc), L) prev).
  { subst restored. by destruct prev. }
  assert (Hkeys : keys restored.1 = keys (objects sc)).
  { rewrite Hrestored, restore_fold_keys. unfold setObjectsSelected.
    by apply keys_forEachUpd. }
  assert (Hdom : dom restored.2 = dom L ∖ list_to_set prev).
  { by rewrite Hrestored, restore_fold_ledger, dom_fold_delete. }
  rewrite (resolveAll_keys m (objects sc) restored.1 ids Hkeys).
  set (E := resolveAll m (objects sc) ids).
  exists restored.1. split.
  { rewrite Hrestored. apply restore_pass. }
  destruct E as [|h E'] eqn:HE.
  - cbn [viewerScene modelRef previouslySelectedEntities originalColors].
    rewrite onMembers_nil, Hdom. repeat split; try done. set_solver.
  - rewrite <- HE.
    cbn [viewerScene modelRef previouslySelectedEntities originalColors].
    rewrite paint_pass. repeat split; try done.
    rewrite capture_fold_dom, Hdom; [done|].
    apply Forall_forall. intros k Hk.
    unfold setObjectsSelected. rewrite keys_forEachUpd by done.
    rewrite Hkeys. subst E. eapply resolveAll_live; eauto.
Qed.

Lemma selectElements_not_ready ids v :
  viewerScene v = None \/ modelRef v = None -> selectElements ids v = v.
Proof.
  unfold selectElements. intros [H|H]; rewrite H; [done|].
  by destruct (viewerScene v).
Qed.

(** ** The ledger follows the selection *)

(** The records of the ledger are those of the objects selected last, and
    a viewer that is not mounted has none: both hold at mount and every
    [selectElements] keeps them. *)
Lemma ledger_tracks_selection ids v :
  recordedHandles v = list_to_set (previouslySelectedEntities v)
  /\ (viewerScene v = None \/ modelRef v = None -> originalColors v = ∅) ->
  recordedHandles (selectElements ids v)
  = list_to_set (previouslySelectedEntities (selectElements ids v))
  /\ (viewerScene (selectElements ids v) = None
      \/ modelRef (selectElements ids v) = None ->
      originalColors (selectElements ids v) = ∅).
Proof.
  intros [Hrec Hun].
  destruct (viewerScene v) as [sc|] eqn:Hsc;
    [destruct (modelRef v) as [m|] eqn:Hm|].
  - destruct (selectElements_ready sc m v ids Hsc Hm)
      as (restored & _ & Hsc' & Hm' & Hprev & Hdom).
    split.
    + rewrite Hdom, Hprev, Hrec. set_solver.
    + rewrite Hsc', Hm'. intros [?|?]; done.
  - rewrite selectElements_not_ready by (by right).
    rewrite Hsc, Hm. split; [done|]. intros _. apply Hun. by right.
  - rewrite selectElements_not_ready by (by left).
    rewrite Hsc. split; [done|]. intros _. apply Hun. by left.
Qed.

(** C4. From the state at mount (nothing selected, no record), after any
    sequence of [selectElements] calls the ledger holds records for
    exactly the objects selected last, and a final [selectElements([])]
    leaves it with no record at all. *)
Theorem ledger_empties_after_deselect (v0 : Viewer) (calls : list (list string)) :
  previouslySelectedEntities v0 = [] ->
  originalColors v0 = ∅ ->
  let v := foldl (fun v ids => selectElements ids v) v0 calls in
  recordedHandles v = list_to_set (previouslySelectedEntities v)
  /\ originalColors (selectElements [] v) = ∅
  /\ size (originalColors (selectElements [] v)) = 0.
Proof.
  intros Hprev0 HL0 v.
  assert (Hinv : recordedHandles v = list_to_set (previouslySelectedEntities v)
                 /\ (viewerScene v = None \/ modelRef v = None ->
                     originalColors v = ∅)).
  { subst v. revert v0 Hprev0 HL0.
    assert (Hgen : forall v0,
      recordedHandles v0 = list_to_set (previouslySelectedEntities v0)
      /\ (viewerScene v0 = None \/ modelRef v0 = None -> originalColors v0 = ∅) ->
      recordedHandles (foldl (fun v ids => selectElements ids v) v0 calls)
      = list_to_set (previouslySelectedEntities
                       (foldl (fun v ids => selectElements ids v) v0 calls))
      /\ (viewerScene (foldl (fun v ids => selectElements ids v) v0 calls) = None
          \/ modelRef (foldl (fun v ids => selectElements ids v) v0 calls) = None ->
          originalColors (foldl (fun v ids => selectElements ids v) v0 calls) = ∅)).
    { induction calls as [|ids calls IH]; intros v0 H0; [exact H0|].
      cbn [foldl]. apply IH. by apply ledger_tracks_selection. }
    intros v0 Hprev0 HL0. apply Hgen. unfold recordedHandles.
    rewrite Hprev0, HL0. split; [set_solver|done]. }
  destruct Hinv as [Hrec Hun]. split; [exact Hrec|].
  assert (Hempty : originalColors (selectElements [] v) = ∅).
  { destruct (viewerScene v) as [sc|] eqn:Hsc;
      [destruct (modelRef v) as [m|] eqn:Hm|].
    - destruct (selectElements_ready sc m v [] Hsc Hm)
        as (restored & _ & _ & _ & _ & Hdom).
      apply dom_empty_iff_L. unfold recordedHandles in *.
      rewrite Hdom, Hrec. cbn. set_solver.
    - rewrite selectElements_not_ready by (by right). apply Hun. by right.
    - rewrite selectElements_not_ready by (by left). apply Hun. by left. }
  split; [exact Hempty|]. rewrite Hempty. apply map_size_empty.
Qed.

Lemma ledger_empties_after_deselect_witness :
  let v := selectElements ["B"; "C"] (selectElements ["A"] abcdViewer) in
  recordedHandles v = list_to_set (previouslySelectedEntities v)
  /\ originalColors (selectElements [] v) = ∅
  /\ size (originalColors (selectElements [] v)) = 0.
Proof.
  exact (ledger_empties_after_deselect abcdViewer [["A"]; ["B"; "C"]]
           eq_refl eq_refl).
Defined.

Example ledger_sizes_along_the_way :
  size (originalColors (selectElements ["A"] abcdViewer)) = 1
  /\ size (originalColors
             (selectElements ["B"; "C"] (selectElements ["A"] abcdViewer))) = 2
  /\ previouslySelectedEntities
       (selectElements ["B"; "C"] (selectElements ["A"] abcdViewer))
     = ["m#B"; "m#C"].
Proof. vm_compute. repeat split; reflexivity. Qed.

(** ** Selecting the same ids again *)

Lemma keys_Forall2 (R : Entity -> Entity -> Prop) objs objs' :
  (forall e e', R e e' -> id e' = id e) ->
  Forall2 R objs objs' -> keys objs' = keys objs.
Proof.
  intros HR H. unfold keys. induction H; simpl; [done|].
  f_equal; [by apply HR | done].
Qed.

Lemma keys_onMembers hs f objs :
  (forall e, id (f e) = id e) -> keys (onMembers hs f objs) = keys objs.
Proof.
  intros Hf. unfold keys, onMembers. rewrite map_map. apply map_ext.
  intros e. case_bool_decide; [apply Hf | done].
Qed.

Lemma painted_paintOne sc e : painted sc (paintOne sc e).
Proof.
  destruct (channels_paintOne sc e) as [Hcaps Hch].
  unfold channelsOf in Hch. injection Hch as _ Hsel Hcol Hhv Hhc.
  unfold painted, colorizeWritable, usesHighlightedFlag, usesHighlightMethod
    in *.
  rewrite Hcaps, Hsel, Hcol, Hhv, Hhc.
  repeat split; try done; by intros ->.
Qed.

(** An object that carries the selection and goes through a second pass
    for the same handles shows the same channels afterwards. *)
Lemma repaint_same_channels sc sc' E e1 e2 :
  has_setObjectsColorized sc' = has_setObjectsColorized sc ->
  (id e1 ∈ E -> painted sc e1) ->
  restoredFrom sc' E e1 e2 ->
  channelsOf (if bool_decide (id e2 ∈ E) then paintOne sc e2 else e2)
  = channelsOf e1.
Proof.
  intros Hsame Hp (Hid & Hcaps & Hsel & Hhv & Hhc & Hcol & Hframe).
  rewrite Hid. case_bool_decide as Hin.
  - destruct (Hp Hin) as (Psel & Pcol & Phv & Phc).
    destruct (channels_paintOne sc e2) as [_ ->].
    assert (HW : colorizeWritable sc' e1 = colorizeWritable sc e1)
      by (unfold colorizeWritable; by rewrite Hsame).
    unfold channelsOf, colorizeWritable, usesHighlightedFlag,
      usesHighlightMethod in *.
    rewrite Hcaps, Hid, Hhv, Hhc, Psel.
    f_equal; [f_equal; [f_equal|]|].
    + destruct (match cap_colorize (caps e1) with
                | CzAbsent => has_setObjectsColorized sc
                | _ => true
                end) eqn:W.
      * symmetry. by apply Pcol.
      * apply Hcol. by rewrite HW.
    + destruct (match cap_colorize (caps e1) with
                | CzAbsent => cap_highlighted (caps e1)
                | _ => false
                end) eqn:F; [symmetry; by apply Phv | done].
    + destruct (match cap_colorize (caps e1) with
                | CzAbsent => negb (cap_highlighted (caps e1))
                              && cap_highlight (caps e1)
                | _ => false
                end) eqn:F; [symmetry; by apply Phc | done].
  - by rewrite (Hframe Hin).
Qed.

(** C5, on the code. An object with a green [colorize] data member and
    a material whose [colorize] is red is selected, then selected again
    with the same ids.  The first call saves the green original and
    paints [colorize]; the material keeps its red.  The second call
    restores the previous selection first, and [restoreEntityColor]
    writes the saved green not only back into [colorize] but into
    [material.colorize] as well; the highlight that follows repaints
    [colorize] only.  The material is green after two calls and red
    after one: what the engine holds differs, where the claim says it
    is identical. *)
Theorem reselect_changes_material :
  let once := selectElements ["E1"] twoChannelViewer in
  let twice := selectElements ["E1"] once in
  materialsOf twoChannelViewer
    = [Some {| mat_colorize := MCProp (VArray [1; 0; 0]%Q);
               mat_color := MKUndef |}]
  /\ materialsOf once = materialsOf twoChannelViewer
  /\ materialsOf twice
     = [Some {| mat_colorize := MCProp (VArray [0; 1; 0]%Q);
                mat_color := MKUndef |}]
  /\ engineVisible twice <> engineVisible once.
Proof.
  cbv zeta. split; [|split; [|split]].
  - vm_compute. reflexivity.
  - vm_compute. reflexivity.
  - vm_compute. reflexivity.
  - vm_compute. discriminate.
Qed.

(** What does hold of a repeated selection, for every object: calling
    [selectElements] a second time with the same ids leaves the selected
    flag, the colorize override, the highlight flag and the highlight
    colour as the first call left them, and the ledger with records for
    the same handles, hence of the same size. *)
Lemma reselect_same_ids (ids : list string) (v : Viewer) :
  let once := selectElements ids v in
  let twice := selectElements ids once in
  selectionChannels twice = selectionChannels once
  /\ previouslySelectedEntities twice = previouslySelectedEntities once
  /\ recordedHandles twice = recordedHandles once
  /\ size (originalColors twice) = size (originalColors once).
Proof.
  intros once twice.
  assert (Hmain : selectionChannels twice = selectionChannels once
                  /\ previouslySelectedEntities twice
                     = previouslySelectedEntities once
                  /\ recordedHandles twice = recordedHandles once).
  { subst once twice.
    destruct (viewerScene v) as [sc|] eqn:Hsc;
      [destruct (modelRef v) as [m|] eqn:Hm|].
    2: { by rewrite !(selectElements_not_ready ids v) by (by right). }
    2: { by rewrite !(selectElements_not_ready ids v) by (by left). }
    destruct (selectElements_ready sc m v ids Hsc Hm)
      as (r1 & HF1 & Hsc1 & Hm1 & Hprev1 & Hdom1).
    set (E := resolveAll m (objects sc) ids) in *.
    set (objs1 := onMembers E (paintOne sc) r1) in *.
    destruct (selectElements_ready (set_objects objs1 sc) m
                (selectElements ids v) ids Hsc1 Hm1)
      as (r2 & HF2 & Hsc2 & Hm2 & Hprev2 & Hdom2).
    cbn [objects set_objects] in HF2, Hsc2, Hprev2, Hdom2.
    assert (Hkeys : keys objs1 = keys (objects sc)).
    { subst objs1. rewrite keys_onMembers by apply paintOne_id.
      eapply keys_Forall2; [|exact HF1]. by intros e e' (? & _). }
    rewrite (resolveAll_keys m (objects sc) objs1 ids Hkeys) in Hsc2, Hprev2, Hdom2.
    fold E in Hsc2, Hprev2, Hdom2.
    rewrite Hprev1 in HF2, Hdom2.
    split; [|split].
    - unfold selectionChannels, liveObjects. rewrite Hsc2, Hsc1.
      cbn [objects set_objects].
      change (map channelsOf (onMembers E (paintOne sc) r2)
              = map channelsOf objs1).
      unfold onMembers at 1. rewrite map_map. symmetry.
      apply Forall2_map_eq.
      assert (Hp : Forall (fun e1 => id e1 ∈ E -> painted sc e1) objs1).
      { subst objs1. unfold onMembers. apply Forall_forall.
        intros e1 He1. apply list_elem_of_fmap in He1 as (e & -> & _).
        case_bool_decide as Hin.
        - intros _. apply painted_paintOne.
        - intros Hc. done. }
      eapply Forall2_impl; [apply (Forall2_with_Forall_l _ _ _ _ Hp HF2)|].
      intros e1 e2 [Hpe Hre]. symmetry.
      by apply (repaint_same_channels sc (set_objects objs1 sc) E e1 e2).
    - by rewrite Hprev2, Hprev1.
    - rewrite Hdom2, Hdom1.
      generalize (recordedHandles v ∖ list_to_set (previouslySelectedEntities v)).
      generalize (list_to_set E : gset string).
      clear. intros B A. apply set_eq. intros x.
      destruct (decide (x ∈ B)); set_solver. }
  destruct Hmain as (H1 & H2 & H3). repeat split; try done.
  unfold recordedHandles in H3. by rewrite <- !size_dom, H3.
Qed.

Example reselect_plain_object :
  engineVisible (selectElements ["A"] (selectElements ["A"] abcdViewer))
  = engineVisible (selectElements ["A"] abcdViewer).
Proof. vm_compute. reflexivity. Qed.

(* ===================================================================== *)
(** * Further properties of the operations *)
(* ===================================================================== *)

(** ** Operations as maps over the registry *)

Lemma withObjects_ready sc v objs :
  viewerScene v = Some sc ->
  withObjects objs v
  = {| viewerScene := Some (set_objects objs sc);
       modelRef := modelRef v;
       previouslySelectedEntities := previouslySelectedEntities v;
       originalColors := originalColors v |}.
Proof. intros H. unfold withObjects. by rewrite H. Qed.

Lemma withObjects_same sc v :
  viewerScene v = Some sc -> withObjects (objects sc) v = v.
Proof.
  intros H. rewrite (withObjects_ready sc) by done.
  destruct v as [vs mr pv oc]. cbn in *. subst vs. by destruct sc.
Qed.

Lemma withObjects_twice objs1 objs2 v :
  withObjects objs2 (withObjects objs1 v) = withObjects objs2 v.
Proof.
  unfold withObjects. cbn. by destruct (viewerScene v).
Qed.

Lemma liveObjects_withObjects sc v objs :
  viewerScene v = Some sc -> liveObjects (withObjects objs v) = objs.
Proof. intros H. unfold liveObjects, withObjects. cbn. by rewrite H. Qed.

Lemma onMembers_map hs f objs : onMembers hs f objs = map (onMember hs f) objs.
Proof. reflexivity. Qed.

Lemma onMember_id hs f e :
  (forall e, id (f e) = id e) -> id (onMember hs f e) = id e.
Proof. intros Hf. unfold onMember. by case_bool_decide. Qed.

Lemma keys_map (G : Entity -> Entity) objs :
  (forall e, id (G e) = id e) -> keys (map G objs) = keys objs.
Proof.
  intros HG. unfold keys. rewrite map_map. apply map_ext. apply HG.
Qed.

Lemma selectedArray_map (G : Entity -> Entity) objs :
  (forall e, id (G e) = id e) -> (forall e, selected (G e) = selected e) ->
  selectedArray (map G objs) = selectedArray objs.
Proof.
  intros Hid Hsel. unfold selectedArray, keys.
  induction objs as [|e objs IH]; [done|].
  cbn [map]. rewrite !filter_cons, Hsel.
  destruct (decide (selected e = true)); cbn [map]; by rewrite ?Hid, IH.
Qed.

Lemma resolveEntityShow_keys m objs objs' x :
  keys objs' = keys objs ->
  resolveEntityShow m objs' x = resolveEntityShow m objs x.
Proof.
  intros Hk. unfold resolveEntityShow.
  by rewrite !resolveEntity_chain, Hk.
Qed.

Lemma resolveEntityIsolate_keys m objs objs' x :
  keys objs' = keys objs ->
  resolveEntityIsolate m objs' x = resolveEntityIsolate m objs x.
Proof.
  intros Hk. unfold resolveEntityIsolate. by rewrite !hasKey_spec, Hk.
Qed.

Lemma omap_ext_list {A B} (f g : A -> option B) (l : list A) :
  (forall x, f x = g x) -> omap f l = omap g l.
Proof.
  intros H. induction l as [|x l IH]; [done|]. cbn. by rewrite H, IH.
Qed.

Lemma repaintOne_frame sc e :
  id (repaintOne sc e) = id e /\ caps (repaintOne sc e) = caps e
  /\ selected (repaintOne sc e) = selected e
  /\ visible (repaintOne sc e) = visible e
  /\ material (repaintOne sc e) = material e
  /\ highlightedV (repaintOne sc e) = highlightedV e
  /\ highlightColor (repaintOne sc e) = highlightColor e.
Proof.
  unfold repaintOne, writeColorize. repeat case_match; done.
Qed.

Lemma reselectOne_frame sc e :
  id (reselectOne sc e) = id e /\ caps (reselectOne sc e) = caps e
  /\ selected (reselectOne sc e) = selected e
  /\ visible (reselectOne sc e) = visible e
  /\ material (reselectOne sc e) = material e
  /\ highlightColor (reselectOne sc e) = highlightColor e.
Proof. unfold reselectOne. repeat case_match; done. Qed.

Lemma visibleOne_exceptVisible sc m b e :
  exceptVisible (visibleOne sc m b e) = exceptVisible e.
Proof.
  unfold visibleOne, setEntityVisible, exceptVisible. repeat case_match; done.
Qed.

Lemma reassertHighlight_onMembers sc hs objs :
  reassertHighlight sc hs objs = onMembers hs (repaintOne sc) objs.
Proof.
  unfold reassertHighlight, repaintOne, setObjectsColorized.
  destruct hs as [|h hs]; [by rewrite onMembers_nil|].
  destruct (has_setObjectsColorized sc).
  - by rewrite forEachUpd_onMembers.
  - rewrite forEachUpd_onMembers; [done| |]; intros e;
      destruct e as [i [v sv cu scu cz hd hl] vis sel col hv hc mat];
      by destruct cz.
Qed.

Lemma reassertSelection_onMembers sc hs objs :
  reassertSelection sc hs objs = onMembers hs (reselectOne sc) objs.
Proof.
  unfold reassertSelection, reselectOne, setObjectsColorized,
    setObjectsHighlighted.
  destruct hs as [|h hs]; [by rewrite onMembers_nil|].
  destruct (has_setObjectsColorized sc); [by rewrite forEachUpd_onMembers|].
  destruct (has_setObjectsHighlighted sc); [by rewrite forEachUpd_onMembers|].
  unfold onMembers. rewrite <- (map_id objs) at 1. apply map_ext.
  intros e. by case_bool_decide.
Qed.

Lemma hideElements_ready sc m v ids :
  viewerScene v = Some sc -> modelRef v = Some m ->
  hideElements ids v = withObjects (map (hideOne sc m ids) (objects sc)) v.
Proof.
  intros Hsc Hm. unfold hideElements, hideOne. rewrite Hsc, Hm.
  rewrite <- onMembers_map.
  destruct (resolveAll m (objects sc) ids) as [|h hs] eqn:HE.
  - rewrite onMembers_nil. symmetry. by apply withObjects_same.
  - rewrite (withObjects_ready sc) by done.
    by rewrite Hm, applyVisible_onMembers.
Qed.

Lemma showElements_ready sc m v ids :
  viewerScene v = Some sc -> modelRef v = Some m ->
  showElements ids v = withObjects (map (showOne sc m ids) (objects sc)) v.
Proof.
  intros Hsc Hm. unfold showElements, showOne. rewrite Hsc, Hm.
  destruct (omap (resolveEntityShow m (objects sc)) ids) as [|h hs] eqn:HE.
  - rewrite filter_nil. unfold onMember.
    rewrite (map_ext _ (fun e : Entity => e)), map_id.
    + symmetry. by apply withObjects_same.
    + intros e.
      by rewrite !(bool_decide_eq_false_2 (_ ∈ [])) by apply not_elem_of_nil.
  - rewrite (withObjects_ready sc) by done. rewrite Hm.
    rewrite applyVisible_onMembers, reassertHighlight_onMembers.
    assert (Hs : selectedArray
                   (onMembers (h :: hs) (visibleOne sc m true) (objects sc))
                 = selectedArray (objects sc)).
    { apply (selectedArray_map (onMember (h :: hs) (visibleOne sc m true))).
      - intros e. apply onMember_id. intros e'. apply visibleOne_id.
      - intros e. unfold onMember. case_bool_decide; [|done].
        pose proof (visibleOne_exceptVisible sc m true e) as Hx.
        unfold exceptVisible in Hx. by injection Hx. }
    rewrite Hs. by rewrite !onMembers_map, map_map.
Qed.

Lemma isolateElements_ready sc m v ids :
  viewerScene v = Some sc -> modelRef v = Some m ->
  isolateElements ids v
  = withObjects (map (isolateOne sc m ids) (objects sc)) v.
Proof.
  intros Hsc Hm. unfold isolateElements, isolateOne. rewrite Hsc, Hm.
  rewrite (withObjects_ready sc) by done. rewrite Hm.
  assert (Hall : forall b,
    applyVisible sc m (keys (objects sc)) b (objects sc)
    = map (visibleOne sc m b) (objects sc)).
  { intros b. rewrite applyVisible_onMembers. unfold onMembers.
    apply map_ext_in. intros e He. rewrite bool_decide_eq_true_2; [done|].
    unfold keys. apply list_elem_of_fmap. exists e. split; [done|].
    by apply list_elem_of_In. }
  destruct ids as [ids|].
  - set (E := omap (resolveEntityIsolate m (objects sc)) ids).
    assert (Hhidden :
      match keys (objects sc) with
      | [] => objects sc
      | _ => applyVisible sc m (keys (objects sc)) false (objects sc)
      end = map (visibleOne sc m false) (objects sc)).
    { destruct (keys (objects sc)) as [|k ks] eqn:Hk.
      - unfold keys in Hk. by destruct (objects sc).
      - apply Hall. }
    rewrite Hhidden. do 3 f_equal.
    destruct E as [|h hs] eqn:HE.
    + rewrite filter_nil. apply map_ext. intros e. unfold onMember.
      by rewrite !(bool_decide_eq_false_2 (_ ∈ [])) by apply not_elem_of_nil.
    + rewrite applyVisible_onMembers, reassertHighlight_onMembers.
      by rewrite !onMembers_map, !map_map.
  - do 3 f_equal. rewrite Hall, reassertSelection_onMembers.
    by rewrite onMembers_map, map_map.
Qed.

(** ** Hiding, showing, isolating *)

(** The visibility writes come to one write on an object whose
    visibility can be written, and to nothing otherwise. *)
Lemma visibleOne_eq sc m b e :
  visibleOne sc m b e
  = if visibilityWritable sc m e then set_visible b e else e.
Proof.
  unfold visibleOne, setEntityVisible, visibilityWritable.
  destruct (cap_visible (caps e)), (cap_setVisible (caps e)),
    (cap_culled (caps e)), (cap_setCulled (caps e)),
    (has_setObjectsVisible sc), (model_has_setObjectsVisible m);
    reflexivity.
Qed.

Lemma visibleOne_last sc m b b' e :
  visibleOne sc m b (visibleOne sc m b' e) = visibleOne sc m b e.
Proof.
  rewrite !visibleOne_eq.
  destruct (visibilityWritable sc m e) eqn:Hw.
  - change (visibilityWritable sc m (set_visible b' e))
      with (visibilityWritable sc m e). by rewrite Hw.
  - by rewrite Hw.
Qed.

Lemma repaintOne_idem sc e : repaintOne sc (repaintOne sc e) = repaintOne sc e.
Proof.
  unfold repaintOne, writeColorize.
  destruct (has_setObjectsColorized sc); [reflexivity|].
  destruct (cap_colorize (caps e)) eqn:Hc; cbn [caps set_colorizeV];
    rewrite ?Hc; reflexivity.
Qed.

Lemma reselectOne_idem sc e :
  reselectOne sc (reselectOne sc e) = reselectOne sc e.
Proof.
  unfold reselectOne.
  destruct (has_setObjectsColorized sc), (has_setObjectsHighlighted sc);
    reflexivity.
Qed.

Lemma visibleOne_repaintOne sc m b e :
  visibleOne sc m b (repaintOne sc e) = repaintOne sc (visibleOne sc m b e).
Proof.
  rewrite !visibleOne_eq.
  assert (Hw : visibilityWritable sc m (repaintOne sc e)
               = visibilityWritable sc m e).
  { unfold visibilityWritable.
    by rewrite (proj1 (proj2 (repaintOne_frame sc e))). }
  rewrite Hw. destruct (visibilityWritable sc m e); [|done].
  unfold repaintOne, writeColorize.
  destruct (has_setObjectsColorized sc); [reflexivity|].
  cbn [caps set_visible].
  destruct (cap_colorize (caps e)); reflexivity.
Qed.

Lemma visibleOne_reselectOne sc m b e :
  visibleOne sc m b (reselectOne sc e) = reselectOne sc (visibleOne sc m b e).
Proof.
  rewrite !visibleOne_eq.
  assert (Hw : visibilityWritable sc m (reselectOne sc e)
               = visibilityWritable sc m e).
  { unfold visibilityWritable.
    by rewrite (proj1 (proj2 (reselectOne_frame sc e))). }
  rewrite Hw. destruct (visibilityWritable sc m e); [|done].
  unfold reselectOne.
  destruct (has_setObjectsColorized sc), (has_setObjectsHighlighted sc);
    reflexivity.
Qed.

Lemma repaintOne_id sc e : id (repaintOne sc e) = id e.
Proof. apply repaintOne_frame. Qed.

Lemma reselectOne_id sc e : id (reselectOne sc e) = id e.
Proof. apply reselectOne_frame. Qed.

(** Case analysis on the membership tests of nested [onMember]s over the
    object [e], then the algebra of the per-object writes. *)
Ltac members e :=
  unfold onMember;
  repeat first
    [ progress (cbv iota)
    | progress (rewrite ?visibleOne_id, ?repaintOne_id, ?reselectOne_id)
    | match goal with
      | H : bool_decide (id e ∈ ?hs) = _
        |- context [bool_decide (id e ∈ ?hs)] => rewrite H
      end
    | match goal with
      | |- context [bool_decide (id e ∈ ?hs)] =>
          destruct (bool_decide (id e ∈ hs)) eqn:?
      end ];
  repeat rewrite ?visibleOne_repaintOne, ?visibleOne_reselectOne,
    ?visibleOne_last, ?repaintOne_idem, ?reselectOne_idem;
  try done.

Lemma onMember_in hs f e : id e ∈ hs -> onMember hs f e = f e.
Proof. intros H. unfold onMember. by rewrite bool_decide_eq_true_2. Qed.

Lemma onMember_out hs f e : id e ∉ hs -> onMember hs f e = e.
Proof. intros H. unfold onMember. by rewrite bool_decide_eq_false_2. Qed.

Lemma hideOne_id sc m ids e : id (hideOne sc m ids e) = id e.
Proof. apply onMember_id. intros e'. apply visibleOne_id. Qed.

Lemma showOne_id sc m ids e : id (showOne sc m ids e) = id e.
Proof.
  unfold showOne. rewrite onMember_id by apply repaintOne_id.
  apply onMember_id. intros e'. apply visibleOne_id.
Qed.

Lemma isolateOne_id sc m ids e : id (isolateOne sc m ids e) = id e.
Proof.
  destruct ids as [ids|]; cbn.
  - rewrite onMember_id by apply repaintOne_id.
    rewrite onMember_id by (intros e'; apply visibleOne_id).
    apply visibleOne_id.
  - rewrite onMember_id by apply reselectOne_id. apply visibleOne_id.
Qed.

Lemma visibleOne_selected sc m b e : selected (visibleOne sc m b e) = selected e.
Proof.
  pose proof (visibleOne_exceptVisible sc m b e) as H.
  unfold exceptVisible in H. by injection H.
Qed.

Lemma hideOne_selected sc m ids e : selected (hideOne sc m ids e) = selected e.
Proof.
  unfold hideOne, onMember. case_bool_decide; [apply visibleOne_selected|done].
Qed.

Lemma showOne_selected sc m ids e : selected (showOne sc m ids e) = selected e.
Proof.
  unfold showOne, onMember.
  repeat case_bool_decide;
    rewrite ?(proj1 (proj2 (proj2 (repaintOne_frame sc _))));
    by rewrite ?visibleOne_selected.
Qed.

Lemma isolateOne_selected sc m ids e :
  selected (isolateOne sc m ids e) = selected e.
Proof.
  destruct ids as [ids|]; cbn; unfold onMember;
    repeat case_bool_decide;
    rewrite ?(proj1 (proj2 (proj2 (repaintOne_frame sc _)))),
      ?(proj1 (proj2 (proj2 (reselectOne_frame sc _))));
    by rewrite ?visibleOne_selected.
Qed.

(** The per-object writes do not depend on the state of the objects,
    only on the keys and the selected flags. *)
Lemma hideOne_stable sc m ids (G : Entity -> Entity) e :
  (forall e, id (G e) = id e) ->
  hideOne (set_objects (map G (objects sc)) sc) m ids e = hideOne sc m ids e.
Proof.
  intros HG. unfold hideOne. cbn [objects set_objects].
  by rewrite (resolveAll_keys m (objects sc) _ ids (keys_map G _ HG)).
Qed.

Lemma showOne_stable sc m ids (G : Entity -> Entity) e :
  (forall e, id (G e) = id e) -> (forall e, selected (G e) = selected e) ->
  showOne (set_objects (map G (objects sc)) sc) m ids e = showOne sc m ids e.
Proof.
  intros HG HS. unfold showOne. cbn [objects set_objects].
  rewrite (selectedArray_map G _ HG HS).
  rewrite (omap_ext_list _ (resolveEntityShow m (objects sc)));
    [done|].
  intros x. apply resolveEntityShow_keys. by apply keys_map.
Qed.

Lemma isolateOne_stable sc m ids (G : Entity -> Entity) e :
  (forall e, id (G e) = id e) -> (forall e, selected (G e) = selected e) ->
  isolateOne (set_objects (map G (objects sc)) sc) m ids e
  = isolateOne sc m ids e.
Proof.
  intros HG HS. unfold isolateOne. cbn [objects set_objects].
  rewrite (selectedArray_map G _ HG HS).
  destruct ids as [ids|]; [|done].
  rewrite (omap_ext_list _ (resolveEntityIsolate m (objects sc)));
    [done|].
  intros x. apply resolveEntityIsolate_keys. by apply keys_map.
Qed.

Lemma hideOne_idem sc m ids e :
  hideOne sc m ids (hideOne sc m ids e) = hideOne sc m ids e.
Proof.
  unfold hideOne.
  destruct (decide (id e ∈ resolveAll m (objects sc) ids)) as [H|H].
  - rewrite (onMember_in _ _ e H).
    rewrite onMember_in by (by rewrite visibleOne_id).
    apply visibleOne_last.
  - rewrite (onMember_out _ _ e H). by rewrite onMember_out.
Qed.

Lemma showOne_idem sc m ids e :
  showOne sc m ids (showOne sc m ids e) = showOne sc m ids e.
Proof.
  unfold showOne. members e.
Qed.

Lemma isolateOne_idem sc m ids e :
  isolateOne sc m ids (isolateOne sc m ids e) = isolateOne sc m ids e.
Proof.
  destruct ids as [ids|]; cbn; members e.
Qed.

(** X1. Hiding, showing and isolating are idempotent: a second call with
    the same argument leaves the whole viewer as the first call left it. *)
Theorem visibility_ops_idempotent (ids : list string)
  (isolated : option (list string)) (v : Viewer) :
  hideElements ids (hideElements ids v) = hideElements ids v
  /\ showElements ids (showElements ids v) = showElements ids v
  /\ isolateElements isolated (isolateElements isolated v)
     = isolateElements isolated v.
Proof.
  destruct (viewerScene v) as [sc|] eqn:Hsc;
    [destruct (modelRef v) as [m|] eqn:Hm|].
  - assert (Hready : forall objs,
              viewerScene (withObjects objs v) = Some (set_objects objs sc)
              /\ modelRef (withObjects objs v) = Some m).
    { intros objs. unfold withObjects. cbn. by rewrite Hsc. }
    split; [|split].
    + rewrite (hideElements_ready sc m v ids Hsc Hm).
      destruct (Hready (map (hideOne sc m ids) (objects sc))) as [Hsc' Hm'].
      rewrite (hideElements_ready _ m _ ids Hsc' Hm').
      rewrite withObjects_twice. f_equal. cbn [objects set_objects].
      rewrite map_map. apply map_ext. intros e.
      rewrite hideOne_stable by apply hideOne_id. apply hideOne_idem.
    + rewrite (showElements_ready sc m v ids Hsc Hm).
      destruct (Hready (map (showOne sc m ids) (objects sc))) as [Hsc' Hm'].
      rewrite (showElements_ready _ m _ ids Hsc' Hm').
      rewrite withObjects_twice. f_equal. cbn [objects set_objects].
      rewrite map_map. apply map_ext. intros e.
      rewrite showOne_stable by first [apply showOne_id | apply showOne_selected].
      apply showOne_idem.
    + rewrite (isolateElements_ready sc m v isolated Hsc Hm).
      destruct (Hready (map (isolateOne sc m isolated) (objects sc)))
        as [Hsc' Hm'].
      rewrite (isolateElements_ready _ m _ isolated Hsc' Hm').
      rewrite withObjects_twice. f_equal. cbn [objects set_objects].
      rewrite map_map. apply map_ext. intros e.
      rewrite isolateOne_stable
        by first [apply isolateOne_id | apply isolateOne_selected].
      apply isolateOne_idem.
  - unfold hideElements, showElements, isolateElements.
    rewrite Hsc, Hm; cbn; rewrite ?Hsc, ?Hm. by destruct isolated.
  - unfold hideElements, showElements, isolateElements.
    rewrite Hsc; cbn; rewrite ?Hsc. by destruct isolated.
Qed.

Lemma resolveAll_show m objs ids h :
  h ∈ resolveAll m objs ids -> h ∈ omap (resolveEntityShow m objs) ids.
Proof.
  unfold resolveAll. rewrite !list_elem_of_omap.
  intros (x & Hx & Hr). exists x. split; [done|].
  unfold resolveEntityShow. by rewrite Hr.
Qed.

(** X2. Showing a list of elements undoes hiding the same list: the
    viewer after hide-then-show is the viewer after the show alone. *)
Theorem show_after_hide (ids : list string) (v : Viewer) :
  showElements ids (hideElements ids v) = showElements ids v.
Proof.
  destruct (viewerScene v) as [sc|] eqn:Hsc;
    [destruct (modelRef v) as [m|] eqn:Hm|].
  - rewrite (hideElements_ready sc m v ids Hsc Hm).
    assert (Hsc' : viewerScene (withObjects (map (hideOne sc m ids) (objects sc)) v)
                   = Some (set_objects (map (hideOne sc m ids) (objects sc)) sc)).
    { unfold withObjects. cbn. by rewrite Hsc. }
    rewrite (showElements_ready _ m _ ids Hsc' Hm).
    rewrite (showElements_ready sc m v ids Hsc Hm).
    rewrite withObjects_twice. f_equal. cbn [objects set_objects].
    rewrite map_map. apply map_ext. intros e.
    rewrite showOne_stable by first [apply hideOne_id | apply hideOne_selected].
    unfold showOne, hideOne.
    destruct (decide (id e ∈ resolveAll m (objects sc) ids)) as [H|H].
    + rewrite (onMember_in _ _ e H).
      pose proof (resolveAll_show _ _ _ _ H) as Hs.
      rewrite (onMember_in _ (visibleOne sc m true) (visibleOne sc m false e))
        by (by rewrite visibleOne_id).
      rewrite (onMember_in _ (visibleOne sc m true) e Hs).
      by rewrite visibleOne_last.
    + by rewrite (onMember_out _ _ e H).
  - unfold hideElements, showElements. rewrite Hsc, Hm; cbn. by rewrite ?Hsc, ?Hm.
  - unfold hideElements, showElements. rewrite Hsc; cbn. by rewrite ?Hsc.
Qed.



Lemma Forall2_map_self {A} (R : A -> A -> Prop) (G : A -> A) l :
  (forall x, R x (G x)) -> Forall2 R l (map G l).
Proof. intros H. induction l; constructor; auto. Qed.

Lemma visibilityStep_visibleOne sel sc m b e :
  visibilityStep sel e (visibleOne sc m b e).
Proof.
  pose proof (visibleOne_exceptVisible sc m b e) as H.
  unfold exceptVisible in H. injection H as Ha Hb Hc Hd He Hf Hg.
  repeat split; done.
Qed.

Lemma visibilityStep_trans sel e1 e2 e3 :
  visibilityStep sel e1 e2 -> visibilityStep sel e2 e3 ->
  visibilityStep sel e1 e3.
Proof.
  intros (Ha & Hb & Hc & Hd & He & Hf) (Ha' & Hb' & Hc' & Hd' & He' & Hf').
  do 5 (split; [congruence|]).
  intros Hn. destruct (Hf Hn) as [<- <-]. apply Hf'. by rewrite Ha.
Qed.

Lemma visibilityStep_refl sel e : visibilityStep sel e e.
Proof. by repeat split. Qed.

Lemma visibilityStep_onMember sel hs f e :
  (forall e, visibilityStep sel e (f e)) ->
  visibilityStep sel e (onMember hs f e).
Proof.
  intros Hf. unfold onMember. case_bool_decide; [apply Hf|].
  apply visibilityStep_refl.
Qed.

Lemma visibilityStep_repaint sel hs sc e :
  hs ⊆ sel -> visibilityStep sel e (onMember hs (repaintOne sc) e).
Proof.
  intros Hsub. unfold onMember. case_bool_decide as Hin;
    [|apply visibilityStep_refl].
  destruct (repaintOne_frame sc e) as (Ha & Hb & Hc & _ & Hd & _ & He).
  do 5 (split; [done|]). intros Hn. destruct Hn. by apply Hsub.
Qed.

Lemma visibilityStep_reselect sel sc e :
  visibilityStep sel e (onMember sel (reselectOne sc) e).
Proof.
  unfold onMember. case_bool_decide as Hin; [|apply visibilityStep_refl].
  destruct (reselectOne_frame sc e) as (Ha & Hb & Hc & _ & Hd & He).
  do 5 (split; [done|]). intros Hn. by destruct Hn.
Qed.

(** X4. Hiding changes nothing of an object but its visibility. Showing
    and isolating change, besides the visibility, only the colorize
    override or highlight flag of objects whose handle is among the
    selected ones; ids, capabilities, selected flags, materials and
    highlight colours stay. *)
Theorem visibility_ops_frame (ids : list string)
  (isolated : option (list string)) (v : Viewer) :
  map exceptVisible (liveObjects (hideElements ids v))
  = map exceptVisible (liveObjects v)
  /\ Forall2 (visibilityStep (selectedArray (liveObjects v)))
       (liveObjects v) (liveObjects (showElements ids v))
  /\ Forall2 (visibilityStep (selectedArray (liveObjects v)))
       (liveObjects v) (liveObjects (isolateElements isolated v)).
Proof.
  destruct (viewerScene v) as [sc|] eqn:Hsc;
    [destruct (modelRef v) as [m|] eqn:Hm|].
  - assert (Hlive : liveObjects v = objects sc).
    { unfold liveObjects. by rewrite Hsc. }
    rewrite (hideElements_ready sc m v ids Hsc Hm).
    rewrite (showElements_ready sc m v ids Hsc Hm).
    rewrite (isolateElements_ready sc m v isolated Hsc Hm).
    rewrite !(liveObjects_withObjects sc) by done. rewrite Hlive.
    split; [|split].
    + rewrite map_map. apply map_ext. intros e. unfold hideOne, onMember.
      case_bool_decide; [apply visibleOne_exceptVisible|done].
    + apply Forall2_map_self. intros e. unfold showOne.
      eapply visibilityStep_trans;
        [|apply visibilityStep_repaint; intros h Hh;
          by apply list_elem_of_filter in Hh as [Hh _]].
      apply visibilityStep_onMember. intros e'.
      apply visibilityStep_visibleOne.
    + apply Forall2_map_self. intros e. destruct isolated as [l|]; cbn.
      * eapply visibilityStep_trans;
          [|apply visibilityStep_repaint; intros h Hh;
            by apply list_elem_of_filter in Hh as [Hh _]].
        eapply visibilityStep_trans; [apply visibilityStep_visibleOne|].
        apply visibilityStep_onMember. intros e'.
        apply visibilityStep_visibleOne.
      * eapply visibilityStep_trans; [apply visibilityStep_visibleOne|].
        apply visibilityStep_reselect.
  - unfold hideElements, showElements, isolateElements.
    rewrite Hsc, Hm. split; [done|]. split; apply Forall2_diag;
      intros; apply visibilityStep_refl.
  - unfold hideElements, showElements, isolateElements.
    rewrite Hsc. split; [done|]. split; apply Forall2_diag;
      intros; apply visibilityStep_refl.
Qed.

(** X5. Isolating with [null] turns on every object whose visibility can
    be written.  Isolating a list of which no id resolves under the
    composite key, the empty list included, turns every such object off. *)
Theorem isolate_extremes (sc : Scene) (m : Model) (v : Viewer)
  (ids : list string) :
  viewerScene v = Some sc -> modelRef v = Some m ->
  map visible (liveObjects (isolateElements None v))
  = map (fun e => visibilityWritable sc m e || visible e) (objects sc)
  /\ (omap (resolveEntityIsolate m (objects sc)) ids = [] ->
      map visible (liveObjects (isolateElements (Some ids) v))
      = map (fun e => negb (visibilityWritable sc m e) && visible e)
          (objects sc)).
Proof.
  intros Hsc Hm. split; [|intros Hnone].
  - rewrite (isolateElements_ready sc m v None Hsc Hm).
    rewrite (liveObjects_withObjects sc) by done.
    rewrite map_map. apply map_ext. intros e. cbn [isolateOne].
    unfold onMember. case_bool_decide;
      rewrite ?(proj1 (proj2 (proj2 (proj2 (reselectOne_frame sc _)))));
      rewrite visibleOne_visible; by destruct (visibilityWritable sc m e).
  - rewrite (isolateElements_ready sc m v (Some ids) Hsc Hm).
    rewrite (liveObjects_withObjects sc) by done.
    rewrite map_map. apply map_ext. intros e. cbn [isolateOne].
    rewrite Hnone. rewrite filter_nil. unfold onMember.
    rewrite !(bool_decide_eq_false_2 (_ ∈ [])) by apply not_elem_of_nil.
    rewrite visibleOne_visible. by destruct (visibilityWritable sc m e).
Qed.

Lemma isolate_extremes_witness :
  map visible (liveObjects (isolateElements None abcdViewer))
  = map (fun e =>
           visibilityWritable (plainScene ["m#A"; "m#B"; "m#C"; "m#D"])
             (sampleModel "m") e || visible e)
        (objects (plainScene ["m#A"; "m#B"; "m#C"; "m#D"]))
  /\ map visible (liveObjects (isolateElements (Some []) abcdViewer))
     = map (fun e =>
              negb (visibilityWritable (plainScene ["m#A"; "m#B"; "m#C"; "m#D"])
                      (sampleModel "m") e) && visible e)
         (objects (plainScene ["m#A"; "m#B"; "m#C"; "m#D"])).
Proof.
  destruct (isolate_extremes (plainScene ["m#A"; "m#B"; "m#C"; "m#D"])
              (sampleModel "m") abcdViewer [] eq_refl eq_refl) as [H1 H2].
  split; [exact H1 | exact (H2 eq_refl)].
Defined.

(** ** The visibility effect *)

Lemma objectsToShow_spec m hidden objs k :
  k ∈ objectsToShow m hidden objs
  <-> k ∈ keys objs /\ startsWith k (model_id m +:+ "#") = true
      /\ split_pop k ∉ hidden.
Proof.
  unfold objectsToShow, ownObjects. rewrite !list_elem_of_filter. tauto.
Qed.

Lemma objectsToHide_spec m hidden objs k :
  k ∈ objectsToHide m hidden objs
  <-> k ∈ keys objs /\ startsWith k (model_id m +:+ "#") = true
      /\ split_pop k ∈ hidden.
Proof.
  unfold objectsToHide, ownObjects. rewrite !list_elem_of_filter. tauto.
Qed.

Lemma batch_or_nothing (hs : list string) (b : bool) objs :
  match hs with [] => objs | _ => setObjectsVisible hs b objs end
  = onMembers hs (set_visible b) objs.
Proof.
  destruct hs as [|h hs]; [by rewrite onMembers_nil|].
  unfold setObjectsVisible. by apply forEachUpd_onMembers.
Qed.

(** X6. With no isolation in force, on a mounted viewer whose scene has
    [setObjectsVisible], the visibility effect makes every object under
    the model's prefix visible exactly when the element id after its last
    ['#'] is not in the hidden list, whatever the object's own members,
    and leaves the visibility of every other object as it was. *)
Theorem syncVisibility_partition (sc : Scene) (m : Model) (v : Viewer)
  (hidden : list string) :
  viewerScene v = Some sc -> modelRef v = Some m ->
  has_setObjectsVisible sc = true ->
  exists v',
    syncVisibility hidden None v = Some v'
    /\ map (fun e => (id e, visible e)) (liveObjects v')
       = map (fun e =>
                (id e,
                 if startsWith (id e) (model_id m +:+ "#")
                 then bool_decide (split_pop (id e) ∉ hidden)
                 else visible e))
           (objects sc).
Proof.
  intros Hsc Hm Hbatch. unfold syncVisibility.
  rewrite Hsc, Hm, Hbatch, orb_true_r.
  eexists. split; [reflexivity|].
  unfold liveObjects. cbn [viewerScene objects set_objects].
  rewrite !batch_or_nothing.
  set (toShow := objectsToShow m hidden (objects sc)).
  set (toHide := objectsToHide m hidden (objects sc)).
  set (o2 := onMembers toHide (set_visible false)
               (onMembers toShow (set_visible true) (objects sc))).
  transitivity (map (fun e => (id e, visible e)) o2).
  { destruct (selectedArray o2) as [|s ss]; [done|].
    destruct (filter _ (s :: ss)) as [|h hs]; [done|].
    destruct (has_setObjectsColorized sc); [|done].
    unfold setObjectsColorized. by apply map_forEachUpd_preserved. }
  unfold o2, onMembers. rewrite !map_map. apply map_ext_in.
  intros e He. apply list_elem_of_In in He.
  assert (Hk : id e ∈ keys (objects sc)).
  { unfold keys. apply list_elem_of_fmap. eauto. }
  destruct (bool_decide (id e ∈ toShow)) eqn:Hs;
    [apply bool_decide_eq_true in Hs | apply bool_decide_eq_false in Hs];
    cbn [id set_visible];
    (destruct (bool_decide (id e ∈ toHide)) eqn:Hh;
     [apply bool_decide_eq_true in Hh | apply bool_decide_eq_false in Hh]);
    cbn [id visible set_visible];
    unfold toShow, toHide in *;
    rewrite ?objectsToShow_spec, ?objectsToHide_spec in *.
  - destruct Hs as (_ & -> & ?), Hh as (_ & _ & ?).
    by rewrite bool_decide_eq_false_2 by tauto.
  - destruct Hs as (_ & -> & ?). by rewrite bool_decide_eq_true_2.
  - destruct Hh as (_ & -> & ?). by rewrite bool_decide_eq_false_2 by tauto.
  - destruct (startsWith (id e) (model_id m +:+ "#")); [|done].
    destruct (decide (split_pop (id e) ∈ hidden)); tauto.
Qed.

Lemma syncVisibility_partition_witness :
  exists v',
    syncVisibility ["B"] None
      (mounted (plainScene ["m#A"; "m#B"; "other"]) (sampleModel "m")) = Some v'
    /\ map (fun e => (id e, visible e)) (liveObjects v')
       = map (fun e =>
                (id e,
                 if startsWith (id e) (model_id (sampleModel "m") +:+ "#")
                 then bool_decide (split_pop (id e) ∉ ["B"])
                 else visible e))
           (objects (plainScene ["m#A"; "m#B"; "other"])).
Proof.
  exact (syncVisibility_partition (plainScene ["m#A"; "m#B"; "other"])
           (sampleModel "m")
           (mounted (plainScene ["m#A"; "m#B"; "other"]) (sampleModel "m"))
           ["B"] eq_refl eq_refl eq_refl).
Defined.

(** X7. The visibility effect calls [scene.setObjectsVisible] without
    probing for it: on a mounted viewer with no isolation in force it
    throws exactly when the scene lacks the mutator and some object lies
    under the model's prefix. *)
Theorem syncVisibility_throws_iff (sc : Scene) (m : Model) (v : Viewer)
  (hidden : list string) :
  viewerScene v = Some sc -> modelRef v = Some m ->
  (syncVisibility hidden None v = None
   <-> has_setObjectsVisible sc = false /\ ownObjects m (objects sc) <> []).
Proof.
  intros Hsc Hm. unfold syncVisibility. rewrite Hsc, Hm.
  assert (Hempty : objectsToShow m hidden (objects sc) = []
                   /\ objectsToHide m hidden (objects sc) = []
                   <-> ownObjects m (objects sc) = []).
  { unfold objectsToShow, objectsToHide.
    destruct (ownObjects m (objects sc)) as [|k ks]; [done|].
    split; [|done]. intros [H1 H2]. exfalso.
    destruct (decide (split_pop k ∈ hidden)) as [Hin|Hin].
    - by rewrite filter_cons_True in H2.
    - by rewrite filter_cons_True in H1. }
  destruct (has_setObjectsVisible sc).
  - rewrite orb_true_r. split; [done|]. by intros [? _].
  - rewrite orb_false_r. case_bool_decide as Hd.
    + split; [done|]. intros [_ Hne]. destruct Hne. by apply Hempty.
    + split; [|done]. intros _. split; [done|]. intros He. apply Hd.
      by apply Hempty.
Qed.

Lemma syncVisibility_throws_iff_witness :
  syncVisibility ["A"] None
    (mounted {| objects := [plainEntity "m#A"];
                has_setObjectsColorized := true;
                has_setObjectsVisible := false;
                has_setObjectsHighlighted := true |} (sampleModel "m"))
  = None.
Proof.
  apply (proj2 (syncVisibility_throws_iff
                  {| objects := [plainEntity "m#A"];
                     has_setObjectsColorized := true;
                     has_setObjectsVisible := false;
                     has_setObjectsHighlighted := true |} (sampleModel "m")
                  (mounted {| objects := [plainEntity "m#A"];
                              has_setObjectsColorized := true;
                              has_setObjectsVisible := false;
                              has_setObjectsHighlighted := true |}
                     (sampleModel "m"))
                  ["A"] eq_refl eq_refl)).
  split; [reflexivity | discriminate].
Defined.

(** ** Selection and visibility *)

Lemma restore_fold_preserved {A} (g : Entity -> A) sc hs objs
  (L : gmap string JsVal) :
  (forall c e, g (restoreEntityColor sc c e) = g e) ->
  map g (foldl (restorePrevious sc) (objs, L) hs).1 = map g objs.
Proof.
  intros Hg. revert objs L.
  induction hs as [|h hs IH]; intros objs L; [done|].
  cbn [foldl]. unfold restorePrevious at 2. cbn [fst snd].
  destruct (L !! h); rewrite IH; by apply map_upd_preserved.
Qed.

Lemma selectElements_preserves {A} (g : Entity -> A) ids v :
  (forall sc c e, g (restoreEntityColor sc c e) = g e) ->
  (forall sc e, g (highlightEntity sc e) = g e) ->
  (forall b e, g (set_selected b e) = g e) ->
  (forall c e, g (set_colorizeV c e) = g e) ->
  map g (liveObjects (selectElements ids v)) = map g (liveObjects v).
Proof.
  intros Hrestore Hhigh Hsel Hcol. unfold selectElements, liveObjects.
  destruct (viewerScene v) as [sc|] eqn:Hsc; [|by rewrite Hsc].
  destruct (modelRef v) as [m|] eqn:Hm; [|by rewrite Hsc].
  set (restored :=
         match previouslySelectedEntities v with
         | [] => (objects sc, originalColors v)
         | _ => foldl (restorePrevious sc)
                  (setObjectsSelected (previouslySelectedEntities v) false
                     (objects sc), originalColors v)
                  (previouslySelectedEntities v)
         end).
  assert (Hr : map g restored.1 = map g (objects sc)).
  { subst restored. destruct (previouslySelectedEntities v) as [|p ps]; [done|].
    rewrite restore_fold_preserved by apply Hrestore.
    unfold setObjectsSelected. by apply map_forEachUpd_preserved. }
  destruct (resolveAll m restored.1 ids) as [|h E]; [exact Hr|].
  cbn [viewerScene objects set_objects]. rewrite <- Hr.
  assert (Hp : map g (foldl (captureAndHighlight sc)
                        (setObjectsSelected (h :: E) true restored.1,
                         restored.2) (h :: E)).1
               = map g restored.1).
  { rewrite capture_fold_objects.
    rewrite map_forEachUpd_preserved by apply Hhigh.
    unfold setObjectsSelected. by apply map_forEachUpd_preserved. }
  destruct (has_setObjectsColorized sc); [|exact Hp].
  unfold setObjectsColorized.
  rewrite map_forEachUpd_preserved by apply Hcol. exact Hp.
Qed.

(** X8. [selectElements] never changes which objects are visible: ids,
    capabilities and visibility of every live object are after the call
    what they were before, whatever the ids and whatever was selected. *)
Theorem select_keeps_visibility (ids : list string) (v : Viewer) :
  map (fun e => (id e, caps e, visible e)) (liveObjects (selectElements ids v))
  = map (fun e => (id e, caps e, visible e)) (liveObjects v).
Proof.
  apply selectElements_preserves.
  - intros sc c e.
    unfold restoreEntityColor, sceneColorizeOne, restoreMaterial, writeColorize.
    repeat case_match; done.
  - intros sc e. unfold highlightEntity, sceneColorizeOne.
    repeat case_match; done.
  - done.
  - done.
Qed.

Lemma Forall2_Forall_transfer {A B} (R : A -> B -> Prop) (P : A -> Prop)
  (Q : B -> Prop) l k :
  Forall2 R l k -> Forall P l -> (forall x y, R x y -> P x -> Q y) ->
  Forall Q k.
Proof.
  intros HR HP HQ. induction HR as [|x y l k Hxy _ IH]; [constructor|].
  inversion HP; subst. constructor; eauto.
Qed.

Lemma selectionTracked_select ids v :
  selectionTracked v -> selectionTracked (selectElements ids v).
Proof.
  intros Htracked.
  destruct (viewerScene v) as [sc|] eqn:Hsc;
    [destruct (modelRef v) as [m|] eqn:Hm|].
  - destruct (selectElements_ready sc m v ids Hsc Hm)
      as (restored & Hres & Hsc' & _ & Hprev & _).
    unfold selectionTracked, liveObjects in *. rewrite Hsc', Hprev.
    rewrite Hsc in Htracked. cbn [objects set_objects].
    unfold onMembers. apply Forall_fmap.
    eapply Forall2_Forall_transfer; [exact Hres | exact Htracked |].
    intros e e' (Hid & _ & Hsel & _) He. unfold compose.
    rewrite He in Hsel.
    assert (Hoff : selected e' = false) by (by case_bool_decide).
    clear Hsel He. case_bool_decide as Hin.
    + rewrite paintOne_id, (bool_decide_eq_true_2 _ Hin).
      apply painted_paintOne.
    + by rewrite (bool_decide_eq_false_2 _ Hin).
  - by rewrite selectElements_not_ready by auto.
  - by rewrite selectElements_not_ready by auto.
Qed.

Lemma selectionTracked_withObjects (G : Entity -> Entity) sc v :
  viewerScene v = Some sc ->
  (forall e, id (G e) = id e) -> (forall e, selected (G e) = selected e) ->
  selectionTracked v ->
  selectionTracked (withObjects (map G (objects sc)) v).
Proof.
  intros Hsc Hid Hsel Htracked. unfold selectionTracked in *.
  rewrite (liveObjects_withObjects sc) by done.
  unfold liveObjects in Htracked. rewrite Hsc in Htracked.
  apply Forall_fmap. eapply Forall_impl; [exact Htracked|].
  intros e He. unfold compose. by rewrite Hid, Hsel.
Qed.

Lemma visibility_not_ready ids isolated v :
  viewerScene v = None \/ modelRef v = None ->
  hideElements ids v = v /\ showElements ids v = v
  /\ isolateElements isolated v = v.
Proof.
  unfold hideElements, showElements, isolateElements.
  intros [H|H]; rewrite H; [done|]. by destruct (viewerScene v).
Qed.

(** X9. The engine's selected flags agree with the list of previously
    selected entities: when every live object is flagged selected exactly
    if its handle is in the list, this still holds after
    [selectElements], [hideElements], [showElements] and
    [isolateElements]. *)
Theorem selection_tracked_invariant (ids : list string)
  (isolated : option (list string)) (v : Viewer) :
  selectionTracked v ->
  selectionTracked (selectElements ids v)
  /\ selectionTracked (hideElements ids v)
  /\ selectionTracked (showElements ids v)
  /\ selectionTracked (isolateElements isolated v).
Proof.
  intros Htracked. split; [by apply selectionTracked_select|].
  destruct (viewerScene v) as [sc|] eqn:Hsc;
    [destruct (modelRef v) as [m|] eqn:Hm|].
  - rewrite (hideElements_ready sc m v ids Hsc Hm),
      (showElements_ready sc m v ids Hsc Hm),
      (isolateElements_ready sc m v isolated Hsc Hm).
    repeat split; apply selectionTracked_withObjects; try done.
    + apply hideOne_id.
    + apply hideOne_selected.
    + apply showOne_id.
    + apply showOne_selected.
    + apply isolateOne_id.
    + apply isolateOne_selected.
  - destruct (visibility_not_ready ids isolated v) as (-> & -> & ->); auto.
  - destruct (visibility_not_ready ids isolated v) as (-> & -> & ->); auto.
Qed.

Lemma selection_tracked_invariant_witness :
  selectionTracked (selectElements ["B"] abcdViewer)
  /\ selectionTracked (hideElements ["B"] abcdViewer)
  /\ selectionTracked (showElements ["B"] abcdViewer)
  /\ selectionTracked (isolateElements (Some ["B"]) abcdViewer).
Proof.
  apply (selection_tracked_invariant ["B"] (Some ["B"]) abcdViewer).
  unfold selectionTracked. cbn. repeat constructor.
Defined.

(** ** Picking *)

Lemma string_app_cons c (s t : string) :
  String c s +:+ t = String c (s +:+ t).
Proof. reflexivity. Qed.

Lemma string_app_nil_r (s : string) : s +:+ "" = s.
Proof.
  induction s as [|c s IH]; [done|]. by rewrite string_app_cons, IH.
Qed.

Lemma string_app_assoc (a b c : string) : (a +:+ b) +:+ c = a +:+ (b +:+ c).
Proof.
  induction a as [|x a IH]; [done|]. by rewrite !string_app_cons, IH.
Qed.

Lemma split_pop_from_clean acc x :
  containsHash x = false -> split_pop_from acc x = acc +:+ x.
Proof.
  revert acc. induction x as [|c x IH]; intros acc Hx; cbn [split_pop_from].
  - by rewrite string_app_nil_r.
  - cbn [containsHash] in Hx. apply orb_false_iff in Hx as [Hc Hx].
    rewrite Hc, IH by done. by rewrite string_app_assoc.
Qed.

Lemma split_pop_from_composite acc a x :
  split_pop_from acc (a +:+ "#" +:+ x) = split_pop_from "" x.
Proof.
  revert acc. induction a as [|c a IH]; intros acc; [done|].
  rewrite string_app_cons. cbn [split_pop_from].
  destruct (Ascii.eqb c "#"); apply IH.
Qed.

Lemma pickedElementId_composite mid x :
  containsHash x = false -> x <> "" ->
  pickedElementId (compositeKey mid x) = x.
Proof.
  intros Hclean Hne. unfold pickedElementId, split_pop, compositeKey.
  rewrite split_pop_from_composite, split_pop_from_clean by done.
  change ("" +:+ x) with x. by rewrite bool_decide_eq_false_2.
Qed.

Lemma resolveEntity_composite m objs x :
  compositeKey (model_id m) x ∈ keys objs ->
  resolveEntity m objs x = Some (compositeKey (model_id m) x).
Proof.
  intros Hk. rewrite resolveEntity_chain. by rewrite bool_decide_eq_true_2.
Qed.

(** X10. Picking inverts the composite key: for an object registered
    under [modelId#elementId], with an element id that is not empty and
    has no ['#'], the picked handler derives that element id, and the
    lookup of [selectElements] leads from it back to the picked object. *)
Theorem picked_resolves_back (m : Model) (objs : list Entity) (x : string) :
  containsHash x = false -> x <> "" ->
  compositeKey (model_id m) x ∈ keys objs ->
  pickedElementId (compositeKey (model_id m) x) = x
  /\ resolveEntity m objs (pickedElementId (compositeKey (model_id m) x))
     = Some (compositeKey (model_id m) x).
Proof.
  intros Hclean Hne Hk. rewrite pickedElementId_composite by done.
  split; [done|]. by apply resolveEntity_composite.
Qed.

Lemma picked_resolves_back_witness :
  pickedElementId (compositeKey "m" "B") = "B"
  /\ resolveEntity (sampleModel "m")
       (objects (plainScene ["m#A"; "m#B"; "m#C"; "m#D"]))
       (pickedElementId (compositeKey "m" "B"))
     = Some (compositeKey "m" "B").
Proof.
  apply (picked_resolves_back (sampleModel "m")
           (objects (plainScene ["m#A"; "m#B"; "m#C"; "m#D"])) "B").
  - reflexivity.
  - discriminate.
  - vm_compute. apply list_elem_of_In. right. left. reflexivity.
Defined.

(** ** The handlers of the page *)

Lemma primaryConsistent_head ids p :
  PageOps.primaryConsistent (Page.withSelection (head ids) ids p).
Proof.
  unfold PageOps.primaryConsistent. cbn. destruct ids as [|i ids]; cbn.
  - done.
  - apply list_elem_of_here.
Qed.

Lemma primaryConsistent_select x ev p :
  PageOps.primaryConsistent p ->
  PageOps.primaryConsistent (Page.handleElementSelect x ev p).1.
Proof.
  intros Hp. unfold Page.handleElementSelect.
  case_bool_decide; [done|].
  destruct (Page.missingFromMetadata p x); [done|].
  destruct (Page.isCtrlPressed ev).
  - case_bool_decide.
    + apply primaryConsistent_head.
    + unfold PageOps.primaryConsistent. cbn. apply elem_of_app. right.
      apply list_elem_of_here.
  - unfold PageOps.primaryConsistent. cbn. apply list_elem_of_here.
Qed.

(** X11. The primary selection of the page names a member of the
    selection and is null exactly when the selection is empty: every
    handler that writes the selection keeps this, from a click in the
    viewer or in the element tree to group application and reset. *)
Theorem primary_selection_invariant (x : string)
  (ev : option Page.MouseEvent) (tev : Page.MouseEvent) (ids : list string)
  (p : Page.PageState) :
  PageOps.primaryConsistent p ->
  PageOps.primaryConsistent (PageOps.handleElementSelect x ev p).1
  /\ PageOps.primaryConsistent (PageOps.handleDeselectAll p).1
  /\ PageOps.primaryConsistent (PageOps.handleElementsSelect ids p).1
  /\ PageOps.primaryConsistent (PageOps.handleGroupApply ids p).1
  /\ PageOps.primaryConsistent (PageOps.treeElementClick x tev p).1
  /\ PageOps.primaryConsistent (PageOps.handleReset p).1.
Proof.
  intros Hp. refine (conj _ (conj _ (conj _ (conj _ (conj _ _))))).
  - by apply primaryConsistent_select.
  - reflexivity.
  - apply primaryConsistent_head.
  - apply primaryConsistent_head.
  - unfold PageOps.treeElementClick.
    destruct (Page.ctrlKey tev || Page.metaKey tev).
    + case_bool_decide; apply primaryConsistent_head.
    + by apply primaryConsistent_select.
  - reflexivity.
Qed.

Lemma primary_selection_invariant_witness :
  PageOps.primaryConsistent
    (PageOps.handleElementSelect "B"
       (Some {| Page.ctrlKey := true; Page.metaKey := false |})
       (Page.withSelection (Some "A") ["A"] (loadedPage []))).1.
Proof.
  apply (primary_selection_invariant "B"
           (Some {| Page.ctrlKey := true; Page.metaKey := false |})
           {| Page.ctrlKey := false; Page.metaKey := false |} []
           (Page.withSelection (Some "A") ["A"] (loadedPage []))).
  unfold PageOps.primaryConsistent. cbn. apply list_elem_of_here.
Defined.

Lemma uniqueFrom_spec seen l x :
  x ∈ PageOps.uniqueFrom seen l <-> x ∈ l /\ x ∉ seen.
Proof.
  revert seen. induction l as [|y l IH]; intros seen; cbn.
  - split; [by intros ?%not_elem_of_nil | by intros [?%not_elem_of_nil _]].
  - case_bool_decide as Hy.
    + rewrite IH, elem_of_cons. split; [tauto|].
      intros [[->|?] ?]; tauto.
    + rewrite !elem_of_cons, IH, elem_of_cons. split.
      * intros [->|[? ?]]; tauto.
      * intros [[->|?] ?]; [tauto|].
        destruct (decide (x = y)); tauto.
Qed.

Lemma uniqueFrom_NoDup seen l : NoDup (PageOps.uniqueFrom seen l).
Proof.
  revert seen. induction l as [|y l IH]; intros seen; cbn; [constructor|].
  case_bool_decide; [apply IH|]. constructor; [|apply IH].
  rewrite uniqueFrom_spec, elem_of_cons. tauto.
Qed.

(** X12. [handleHide] with a non-empty selection leaves a hidden list
    without duplicates that holds exactly the ids hidden before and the
    selected ones, and asks the viewer, when there is one, to hide the
    selection; with an empty selection it changes nothing and calls
    nothing. *)
Theorem handleHide_union (p : Page.PageState) :
  (Page.selectedElementIds p <> [] ->
   NoDup (Page.hiddenElementIds (PageOps.handleHide p).1)
   /\ (forall x, x ∈ Page.hiddenElementIds (PageOps.handleHide p).1
                 <-> x ∈ Page.hiddenElementIds p
                     \/ x ∈ Page.selectedElementIds p)
   /\ (PageOps.handleHide p).2
      = PageOps.onViewer p [PageOps.HideElements (Page.selectedElementIds p)])
  /\ (Page.selectedElementIds p = [] -> PageOps.handleHide p = (p, [])).
Proof.
  unfold PageOps.handleHide.
  destruct (Page.selectedElementIds p) as [|s ss] eqn:Hs; split; try done.
  intros _. cbn [fst snd PageOps.withHidden Page.hiddenElementIds].
  split; [apply uniqueFrom_NoDup|]. split; [|done].
  intros x. unfold PageOps.unique. rewrite uniqueFrom_spec, elem_of_app.
  split; [tauto|]. intros H. split; [done|]. apply not_elem_of_nil.
Qed.

(** X13. The eye icon of the element tree flips one membership: after
    [handleVisibilityToggle] the element is hidden exactly if it was not,
    the membership of every other id is unchanged, and the viewer is
    asked to show the element if it was hidden and to hide it if not. *)
Theorem tree_toggle_flips (x : string) (p : Page.PageState) :
  (x ∈ Page.hiddenElementIds (PageOps.treeVisibilityToggle x p).1
   <-> x ∉ Page.hiddenElementIds p)
  /\ (forall y, y <> x ->
        (y ∈ Page.hiddenElementIds (PageOps.treeVisibilityToggle x p).1
         <-> y ∈ Page.hiddenElementIds p))
  /\ (PageOps.treeVisibilityToggle x p).2
     = PageOps.onViewer p
         [if bool_decide (x ∈ Page.hiddenElementIds p)
          then PageOps.ShowElements [x] else PageOps.HideElements [x]].
Proof.
  unfold PageOps.treeVisibilityToggle, PageOps.handleElementToggleVisibility.
  cbn [fst snd PageOps.withHidden Page.hiddenElementIds].
  case_bool_decide as Hx; repeat split.
  - intros Hin. apply list_elem_of_filter in Hin as [Hne _]. done.
  - done.
  - intros Hin. by apply list_elem_of_filter in Hin as [_ ?].
  - intros Hin. by apply list_elem_of_filter.
  - done.
  - intros _. apply elem_of_app. right. apply list_elem_of_here.
  - intros Hin. apply elem_of_app in Hin as [?|Hin]; [done|].
    apply list_elem_of_singleton in Hin. done.
  - intros Hin. apply elem_of_app. by left.
Qed.

(** X14. A click on an element the metadata knows selects the same ids
    and makes the same call on the viewer whether it comes from the
    element tree or from the 3D view, with or without the modifier key;
    only the primary selection may differ. *)
Theorem tree_click_agrees (x : string) (ev : Page.MouseEvent)
  (p : Page.PageState) :
  x <> "" -> Page.missingFromMetadata p x = false ->
  Page.selectedElementIds (PageOps.treeElementClick x ev p).1
  = Page.selectedElementIds (PageOps.handleElementSelect x (Some ev) p).1
  /\ (PageOps.treeElementClick x ev p).2
     = (PageOps.handleElementSelect x (Some ev) p).2.
Proof.
  intros Hne Hknown.
  unfold PageOps.treeElementClick, PageOps.handleElementSelect,
    Page.handleElementSelect, PageOps.handleElementsSelect.
  rewrite (bool_decide_eq_false_2 (x = "")) by done. rewrite Hknown.
  cbn [Page.isCtrlPressed].
  destruct (Page.ctrlKey ev || Page.metaKey ev).
  - case_bool_decide; cbn; unfold PageOps.onViewer, Page.callSelect;
      by destruct (Page.viewerAttached p).
  - done.
Qed.

Lemma tree_click_agrees_witness :
  Page.selectedElementIds
    (PageOps.treeElementClick "A"
       {| Page.ctrlKey := true; Page.metaKey := false |} (loadedPage ["B"])).1
  = Page.selectedElementIds
      (PageOps.handleElementSelect "A"
         (Some {| Page.ctrlKey := true; Page.metaKey := false |})
         (loadedPage ["B"])).1
  /\ (PageOps.treeElementClick "A"
        {| Page.ctrlKey := true; Page.metaKey := false |} (loadedPage ["B"])).2
     = (PageOps.handleElementSelect "A"
          (Some {| Page.ctrlKey := true; Page.metaKey := false |})
          (loadedPage ["B"])).2.
Proof.
  apply (tree_click_agrees "A"
           {| Page.ctrlKey := true; Page.metaKey := false |} (loadedPage ["B"])).
  - discriminate.
  - reflexivity.
Defined.

(** ** Bring-up *)

Lemma waitForViewerReady_settles (sceneReady : nat -> bool) :
  exists run,
    Lifecycle.waitForViewerReady Lifecycle.maxAttempts sceneReady = Some run.
Proof.
  destruct (checkReady_settles sceneReady Lifecycle.maxAttempts 0 0)
    as (run & Hrun & _).
  - unfold Lifecycle.maxAttempts. lia.
  - lia.
  - by exists run.
Qed.

Lemma errorText_nonempty message : Lifecycle.errorText message <> "".
Proof. unfold Lifecycle.errorText. by case_bool_decide. Qed.

(** The ways a run of [initViewer] can end. *)
Lemma initViewer_ends (env : Bringup.Environment) :
  exists o,
    Bringup.initViewer env = Some o
    /\ ((exists stored, o = Bringup.pending stored)
           /\ Bringup.awaitsSettle env = false
        \/ (exists stored, o = Bringup.returned stored)
           /\ (Bringup.containerPresent env = false
               \/ Bringup.metadataLoad env = Bringup.MetadataAuthRedirect)
        \/ (exists message stored, o = Bringup.caught env message stored false)
        \/ (exists stored,
              o = Bringup.caught env "Требуется авторизация" stored true)
           /\ Bringup.tokenPresent env = false
        \/ (exists stored, o = Bringup.loaded env stored)).
Proof.
  unfold Bringup.initViewer, Bringup.afterViewerReady, Bringup.loadNullMessage.
  destruct (waitForViewerReady_settles (Bringup.sceneReady env))
    as (run & ->).
  destruct (Bringup.containerPresent env) eqn:?;
    destruct (Bringup.canvasSized env) eqn:?;
    destruct (Bringup.frameArrives env) eqn:?;
    destruct (Bringup.tokenPresent env) eqn:?;
    repeat (cbn [negb andb orb];
            match goal with
            | |- context [match Bringup.headProbe env with _ => _ end] =>
                destruct (Bringup.headProbe env) eqn:?
            | |- context [match ?x with _ => _ end] => destruct x eqn:?
            end);
    cbn [negb andb orb];
    eexists; (split; [reflexivity|]);
    first
      [ left; split; [eexists; reflexivity|];
        unfold Bringup.awaitsSettle;
        repeat match goal with
               | H : ?x = _ |- context [?x] => rewrite H
               end;
        reflexivity
      | right; left; split; [eexists; reflexivity|];
        first [by left | by right]
      | right; right; left; do 2 eexists; reflexivity
      | right; right; right; left; split; [eexists; reflexivity | reflexivity]
      | right; right; right; right; eexists; reflexivity ].
Qed.

(** X15. A run of [initViewer] that stops at an await has met one that
    never settles: when every await settles the run ends.  On a
    component that is still mounted the loading flag stays on exactly
    when the run returned without a word or stopped at such an await; a
    silent return happens only when the container is gone or when
    loading the metadata redirected to the login page; and in both cases
    no error is set or reported. *)
Theorem bringup_ends_loading (env : Bringup.Environment) :
  exists o,
    Bringup.initViewer env = Some o
    /\ (Bringup.exit o = Bringup.StillPending ->
        Bringup.awaitsSettle env = false)
    /\ (Bringup.mountedAtEnd env = true ->
        (Lifecycle.loading (Bringup.view o) = true
         <-> Bringup.exit o = Bringup.ReturnedEarly
             \/ Bringup.exit o = Bringup.StillPending))
    /\ (Bringup.exit o = Bringup.ReturnedEarly ->
        Bringup.containerPresent env = false
        \/ Bringup.metadataLoad env = Bringup.MetadataAuthRedirect)
    /\ (Bringup.exit o = Bringup.ReturnedEarly
        \/ Bringup.exit o = Bringup.StillPending ->
        Bringup.view o = {| Lifecycle.loading := true;
                            Lifecycle.error := None |}
        /\ Bringup.errorReported o = false).
Proof.
  destruct (initViewer_ends env)
    as (o & Ho & [[[st ->] Hp] | [[[st ->] Hr] | [(msg & st & ->)
         | [[[st ->] Ht] | [st ->]]]]]);
    (eexists; split; [exact Ho|]);
    unfold Bringup.pending, Bringup.returned, Bringup.caught, Bringup.loaded,
      Bringup.started;
    cbn [Bringup.exit Bringup.view Bringup.errorReported];
    destruct (Bringup.mountedAtEnd env); cbn [Lifecycle.loading];
    (split; [done|]);
    (split; [first [ done
                   | intros _; split; [intros _; auto | done]
                   | intros _; split; [done | by intros [?|?]] ]|]);
    (split; [first [ done | intros _; exact Hr ]|]);
    first [ done | by intros [?|?] ].
Qed.

(** X16. What a run of [initViewer] reports: the model reference is set
    and [onViewerReady] reached exactly when the model loaded, also on a
    component that was unmounted meanwhile, while [onLoad] and
    [onRefReady] need the component mounted; [onError] is reached exactly
    when an error was thrown on a mounted component, and then the error
    shown is never the empty string; the redirect to the login page comes
    only with the authorisation error. *)
Theorem bringup_reports (env : Bringup.Environment) :
  exists o,
    Bringup.initViewer env = Some o
    /\ (Bringup.modelRefSet o = true <-> Bringup.exit o = Bringup.Loaded)
    /\ Bringup.viewerReadyNotified o = Bringup.modelRefSet o
    /\ Bringup.refDelivered o
       = Bringup.modelRefSet o && Bringup.mountedAtEnd env
    /\ (Bringup.errorReported o = true
        <-> Bringup.mountedAtEnd env = true
            /\ exists message, Bringup.exit o = Bringup.Threw message)
    /\ (Bringup.errorReported o = true
        <-> exists text, Lifecycle.error (Bringup.view o) = Some text)
    /\ Lifecycle.error (Bringup.view o) <> Some ""
    /\ (Bringup.sentToLogin o = true ->
        Bringup.exit o = Bringup.Threw "Требуется авторизация"
        /\ Bringup.tokenPresent env = false).
Proof.
  destruct (initViewer_ends env)
    as (o & Ho & [[[st ->] Hp] | [[[st ->] Hr] | [(msg & st & ->)
         | [[[st ->] Ht] | [st ->]]]]]);
    (eexists; split; [exact Ho|]);
    unfold Bringup.pending, Bringup.returned, Bringup.caught, Bringup.loaded,
      Bringup.started;
    cbn [Bringup.exit Bringup.view Bringup.metadataStored Bringup.sentToLogin
         Bringup.modelRefSet Bringup.viewerReadyNotified Bringup.refDelivered
         Bringup.errorReported];
    destruct (Bringup.mountedAtEnd env);
    cbn [Lifecycle.loading Lifecycle.error andb];
    (split; [done|]); (split; [done|]); (split; [done|]);
    (split; [first [ by split; [|intros [_ [? ?]]]
                   | by split; [|intros [? _]]
                   | split; [intros _; split; [done|eauto] | done] ]|]);
    (split; [first [ by split; [|intros [? ?]]
                   | split; [intros _; eauto | done] ]|]);
    (split; [first [ done | intros [= H]; by apply errorText_nonempty in H ]|]);
    first [ done | intros _; by split ].
Qed.

(** ** Display mode and x-ray *)

Lemma tintNonSelected_map sc c objs :
  tintNonSelected sc c objs
  = map (fun e =>
           if has_setObjectsColorized sc
              && negb (bool_decide (id e ∈ selectedArray objs))
           then set_colorizeV c e else e) objs.
Proof.
  unfold tintNonSelected. destruct (has_setObjectsColorized sc); cbn [andb].
  - transitivity (onMembers (filter (fun h => h ∉ selectedArray objs) (keys objs))
                    (set_colorizeV c) objs).
    { destruct (filter _ (keys objs)) as [|h hs] eqn:Hf.
      - by rewrite onMembers_nil.
      - unfold setObjectsColorized. by apply forEachUpd_onMembers. }
    unfold onMembers. apply map_ext_in. intros e He.
    apply list_elem_of_In in He.
    assert (Hk : id e ∈ keys objs).
    { unfold keys. apply list_elem_of_fmap. eauto. }
    destruct (decide (id e ∈ selectedArray objs)) as [Hin|Hin].
    + rewrite (bool_decide_eq_true_2 _ Hin). cbn [negb].
      rewrite bool_decide_eq_false_2; [done|].
      intros Hf. apply list_elem_of_filter in Hf as [Hf _]. done.
    + rewrite (bool_decide_eq_false_2 _ Hin). cbn [negb].
      rewrite bool_decide_eq_true_2; [done|]. by apply list_elem_of_filter.
  - transitivity (map (fun e : Entity => e) objs); [by rewrite map_id|].
    done.
Qed.

Lemma displayOne_id sc sel mode e : id (displayOne sc sel mode e) = id e.
Proof.
  unfold displayOne. case_bool_decide; [apply reselectOne_id|].
  by destruct (has_setObjectsColorized sc).
Qed.

Lemma displayOne_selected sc sel mode e :
  selected (displayOne sc sel mode e) = selected e.
Proof.
  unfold displayOne. case_bool_decide; [apply reselectOne_frame|].
  by destruct (has_setObjectsColorized sc).
Qed.

Lemma setDisplayMode_ready sc m r mode :
  viewerScene (r_viewer r) = Some sc -> modelRef (r_viewer r) = Some m ->
  setDisplayMode mode r
  = {| r_viewer :=
         withObjects
           (map (displayOne sc (selectedArray (objects sc)) mode) (objects sc))
           (r_viewer r);
       has_setObjectsXRayed := has_setObjectsXRayed r;
       has_setObjectsEdges := has_setObjectsEdges r;
       xrayedObjects := xrayedObjects r;
       edgeObjects :=
         if has_setObjectsEdges r
         then setFlagged (keys (objects sc))
                (match mode with Page.wireframe => true | _ => false end)
                (edgeObjects r)
         else edgeObjects r |}.
Proof.
  intros Hsc Hm. unfold setDisplayMode. rewrite Hsc, Hm.
  assert (Hobjs : forall c,
    reassertSelection sc (selectedArray (objects sc))
      (tintNonSelected sc c (objects sc))
    = map (fun e =>
             if bool_decide (id e ∈ selectedArray (objects sc))
             then reselectOne sc e
             else if has_setObjectsColorized sc then set_colorizeV c e
                  else e) (objects sc)).
  { intros c. rewrite reassertSelection_onMembers, tintNonSelected_map.
    unfold onMembers. rewrite map_map. apply map_ext. intros e.
    destruct (has_setObjectsColorized sc) eqn:Hc; cbn [andb].
    - destruct (bool_decide (id e ∈ selectedArray (objects sc))) eqn:Hin;
        cbn [negb]; cbn [id set_colorizeV]; by rewrite Hin.
    - done. }
  destruct mode; cbn [fst snd]; rewrite Hobjs; reflexivity.
Qed.

Lemma setFlagged_twice (hs : list string) (b b' : bool) (F : gset string) :
  setFlagged hs b' (setFlagged hs b F) = setFlagged hs b' F.
Proof.
  unfold setFlagged. generalize (list_to_set hs : gset string). intros A.
  destruct b, b'; apply set_eq; intros x; destruct (decide (x ∈ A));
    set_solver.
Qed.

Lemma setXrayMode_ready sc m r enabled :
  viewerScene (r_viewer r) = Some sc -> modelRef (r_viewer r) = Some m ->
  setXrayMode enabled r
  = {| r_viewer :=
         withObjects
           (map (xrayOne sc (has_setObjectsXRayed r)
                   (selectedArray (objects sc)) enabled) (objects sc))
           (r_viewer r);
       has_setObjectsXRayed := has_setObjectsXRayed r;
       has_setObjectsEdges := has_setObjectsEdges r;
       xrayedObjects :=
         if has_setObjectsXRayed r
         then setFlagged (keys (objects sc)) enabled (xrayedObjects r)
         else xrayedObjects r;
       edgeObjects := edgeObjects r |}.
Proof.
  intros Hsc Hm. unfold setXrayMode. rewrite Hsc, Hm.
  assert (Hall : forall b,
            setObjectsHighlighted (keys (objects sc)) b (objects sc)
            = map (set_highlightedV b) (objects sc)).
  { intros b. unfold setObjectsHighlighted.
    rewrite forEachUpd_onMembers by done. unfold onMembers.
    apply map_ext_in. intros e He. apply list_elem_of_In in He.
    rewrite bool_decide_eq_true_2; [done|].
    unfold keys. apply list_elem_of_fmap. eauto. }
  assert (Hsame : map (fun e : Entity => e) (objects sc) = objects sc)
    by apply map_id.
  unfold xrayOne.
  destruct enabled, (has_setObjectsXRayed r) eqn:HX; cbn [negb andb].
  - by rewrite Hsame, (withObjects_same sc).
  - destruct (has_setObjectsHighlighted sc).
    + unfold withViewer. by rewrite Hall, HX.
    + rewrite Hsame, (withObjects_same sc) by done.
      destruct r; cbn in *; by subst.
  - unfold withViewer. cbn [r_viewer has_setObjectsXRayed has_setObjectsEdges
                             xrayedObjects edgeObjects].
    unfold liveObjects. rewrite Hsc.
    by rewrite reassertSelection_onMembers, onMembers_map, ?HX.
  - destruct (has_setObjectsHighlighted sc) eqn:HH.
    + unfold withViewer. cbn [r_viewer has_setObjectsXRayed has_setObjectsEdges
                               xrayedObjects edgeObjects].
      rewrite (liveObjects_withObjects sc) by done. rewrite withObjects_twice.
      rewrite Hall.
      rewrite (selectedArray_map (set_highlightedV false)) by done.
      rewrite reassertSelection_onMembers, onMembers_map, map_map.
      by rewrite HX.
    + unfold withViewer. cbn [r_viewer has_setObjectsXRayed has_setObjectsEdges
                               xrayedObjects edgeObjects].
      unfold liveObjects. rewrite Hsc.
      rewrite reassertSelection_onMembers, onMembers_map. by rewrite HX.
Qed.

Lemma modes_not_ready mode enabled r :
  viewerScene (r_viewer r) = None \/ modelRef (r_viewer r) = None ->
  setDisplayMode mode r = r /\ setXrayMode enabled r = r.
Proof.
  unfold setDisplayMode, setXrayMode.
  intros [H|H]; rewrite H; [done|]. by destruct (viewerScene (r_viewer r)).
Qed.

Lemma displayOne_twice sc sc' sel mode mode' e :
  has_setObjectsColorized sc' = has_setObjectsColorized sc ->
  has_setObjectsHighlighted sc' = has_setObjectsHighlighted sc ->
  displayOne sc' sel mode' (displayOne sc sel mode e)
  = displayOne sc sel mode' e.
Proof.
  intros Hc Hh. unfold displayOne at 1. rewrite displayOne_id.
  unfold displayOne, reselectOne. rewrite Hc, Hh.
  case_bool_decide; destruct (has_setObjectsColorized sc),
    (has_setObjectsHighlighted sc); by destruct e.
Qed.

(** X17. The display mode has no memory: switching to a mode gives the
    same viewer, colours and edge flags included, whatever mode was set
    just before. *)
Theorem display_mode_last_wins (mode1 mode2 : Page.DisplayMode) (r : Render) :
  setDisplayMode mode2 (setDisplayMode mode1 r) = setDisplayMode mode2 r.
Proof.
  destruct (viewerScene (r_viewer r)) as [sc|] eqn:Hsc;
    [destruct (modelRef (r_viewer r)) as [m|] eqn:Hm|].
  - rewrite (setDisplayMode_ready sc m r mode1 Hsc Hm).
    set (objs1 := map (displayOne sc (selectedArray (objects sc)) mode1)
                    (objects sc)).
    rewrite (setDisplayMode_ready (set_objects objs1 sc) m _ mode2);
      [|cbn; by rewrite Hsc|by cbn].
    rewrite (setDisplayMode_ready sc m r mode2 Hsc Hm).
    cbn [r_viewer has_setObjectsXRayed has_setObjectsEdges xrayedObjects
         edgeObjects objects set_objects].
    rewrite withObjects_twice.
    assert (Hk : keys objs1 = keys (objects sc)).
    { apply keys_map. intros e. apply displayOne_id. }
    assert (Hs : selectedArray objs1 = selectedArray (objects sc)).
    { apply selectedArray_map; intros e;
        [apply displayOne_id | apply displayOne_selected]. }
    rewrite Hk, Hs. f_equal.
    + f_equal. unfold objs1. rewrite map_map. apply map_ext. intros e.
      by apply displayOne_twice.
    + destruct (has_setObjectsEdges r); [|done]. apply setFlagged_twice.
  - assert (Hn : forall md, setDisplayMode md r = r)
      by (intros md; apply (modes_not_ready md true r); auto).
    by rewrite !Hn.
  - assert (Hn : forall md, setDisplayMode md r = r)
      by (intros md; apply (modes_not_ready md true r); auto).
    by rewrite !Hn.
Qed.

(** X18. On a mounted viewer whose scene has [setObjectsColorized], a
    display mode decides the colorize override of every object: the
    highlight colour on the objects whose handle is selected, and on all
    others grey in wireframe and null in solid and shaded, whatever
    override they had. *)
Theorem display_mode_colours (sc : Scene) (m : Model) (r : Render)
  (mode : Page.DisplayMode) :
  viewerScene (r_viewer r) = Some sc -> modelRef (r_viewer r) = Some m ->
  has_setObjectsColorized sc = true ->
  map colorizeV (liveObjects (r_viewer (setDisplayMode mode r)))
  = map (fun e =>
           if bool_decide (id e ∈ selectedArray (objects sc))
           then blueColor else modeTint mode) (objects sc).
Proof.
  intros Hsc Hm Hc. rewrite (setDisplayMode_ready sc m r mode Hsc Hm).
  cbn [r_viewer]. rewrite (liveObjects_withObjects sc) by done.
  rewrite map_map. apply map_ext. intros e.
  unfold displayOne, reselectOne. rewrite Hc. by case_bool_decide.
Qed.

Lemma display_mode_colours_witness :
  map colorizeV
    (liveObjects
       (r_viewer
          (setDisplayMode Page.wireframe
             (renderOf (selectElements ["B"] abcdViewer)))))
  = [grayColor; blueColor; grayColor; grayColor].
Proof.
  rewrite (display_mode_colours
             (set_objects
                (liveObjects (selectElements ["B"] abcdViewer))
                (plainScene ["m#A"; "m#B"; "m#C"; "m#D"]))
             (sampleModel "m")
             (renderOf (selectElements ["B"] abcdViewer)) Page.wireframe
             eq_refl eq_refl eq_refl).
  reflexivity.
Defined.

(** X19. Neither [setXrayMode] nor [setDisplayMode] touches the
    visibility, the selected flag, the material or the highlight colour
    of any object, nor the ledger of original colours and the list of
    previously selected entities. *)
Theorem modes_frame (enabled : bool) (mode : Page.DisplayMode) (r : Render) :
  let kept (v : Viewer) :=
    (map (fun e => (id e, caps e, visible e, selected e, material e,
                    highlightColor e)) (liveObjects v),
     originalColors v, previouslySelectedEntities v, modelRef v) in
  kept (r_viewer (setXrayMode enabled r)) = kept (r_viewer r)
  /\ kept (r_viewer (setDisplayMode mode r)) = kept (r_viewer r).
Proof.
  intros kept. subst kept. cbv beta.
  destruct (viewerScene (r_viewer r)) as [sc|] eqn:Hsc;
    [destruct (modelRef (r_viewer r)) as [m|] eqn:Hm|].
  - rewrite (setXrayMode_ready sc m r enabled Hsc Hm),
      (setDisplayMode_ready sc m r mode Hsc Hm).
    cbn [r_viewer]. rewrite !(liveObjects_withObjects sc) by done.
    unfold liveObjects. rewrite Hsc. cbn [withObjects originalColors
      previouslySelectedEntities modelRef]. rewrite ?Hm.
    split; do 3 f_equal; rewrite map_map; apply map_ext; intros e.
    + unfold xrayOne, onMember, reselectOne.
      destruct enabled, (negb (has_setObjectsXRayed r)
                         && has_setObjectsHighlighted sc),
        (has_setObjectsColorized sc), (has_setObjectsHighlighted sc);
        try case_bool_decide; done.
    + unfold displayOne, reselectOne.
      case_bool_decide; destruct (has_setObjectsColorized sc),
        (has_setObjectsHighlighted sc); done.
  - destruct (modes_not_ready mode enabled r) as [-> ->]; auto.
    by rewrite Hm.
  - destruct (modes_not_ready mode enabled r) as [-> ->]; auto.
Qed.

Lemma xrayOne_id sc hx sel b e : id (xrayOne sc hx sel b e) = id e.
Proof.
  unfold xrayOne. destruct b.
  - by destruct (negb hx && has_setObjectsHighlighted sc).
  - rewrite onMember_id by apply reselectOne_id.
    by destruct (negb hx && has_setObjectsHighlighted sc).
Qed.

Lemma xrayOne_selected sc hx sel b e :
  selected (xrayOne sc hx sel b e) = selected e.
Proof.
  unfold xrayOne, onMember. destruct b.
  - by destruct (negb hx && has_setObjectsHighlighted sc).
  - case_bool_decide;
      rewrite ?(proj1 (proj2 (proj2 (reselectOne_frame sc _))));
      by destruct (negb hx && has_setObjectsHighlighted sc).
Qed.

Lemma xrayOne_off sc sc' hx sel b e :
  has_setObjectsColorized sc' = has_setObjectsColorized sc ->
  has_setObjectsHighlighted sc' = has_setObjectsHighlighted sc ->
  xrayOne sc' hx sel false (xrayOne sc hx sel b e) = xrayOne sc hx sel false e.
Proof.
  intros Hc Hh. unfold xrayOne at 1. unfold onMember.
  cbn [id set_highlightedV].
  assert (Hid : forall x, id (if negb hx && has_setObjectsHighlighted sc'
                              then set_highlightedV false x else x) = id x).
  { intros x. by destruct (negb hx && has_setObjectsHighlighted sc'). }
  rewrite Hid, xrayOne_id. unfold xrayOne, onMember, reselectOne.
  rewrite Hc, Hh.
  destruct b, hx, (has_setObjectsColorized sc),
    (has_setObjectsHighlighted sc); cbn [negb andb id set_highlightedV];
    try case_bool_decide; by destruct e.
Qed.

Lemma xrayOne_on sc sc' hx sel e :
  has_setObjectsHighlighted sc' = has_setObjectsHighlighted sc ->
  xrayOne sc' hx sel true (xrayOne sc hx sel true e) = xrayOne sc hx sel true e.
Proof.
  intros Hh. unfold xrayOne. rewrite Hh.
  destruct (negb hx && has_setObjectsHighlighted sc); by destruct e.
Qed.

(** X20. Switching x-ray off wins over whatever [setXrayMode] did just
    before, and switching it on twice is switching it on once: in both
    cases the whole viewer, flags and colours, is the same. *)
Theorem xray_off_wins (enabled : bool) (r : Render) :
  setXrayMode false (setXrayMode enabled r) = setXrayMode false r
  /\ setXrayMode true (setXrayMode true r) = setXrayMode true r.
Proof.
  destruct (viewerScene (r_viewer r)) as [sc|] eqn:Hsc;
    [destruct (modelRef (r_viewer r)) as [m|] eqn:Hm|].
  - assert (Hstep : forall b b' (Hpt : forall sc' e,
              has_setObjectsColorized sc' = has_setObjectsColorized sc ->
              has_setObjectsHighlighted sc' = has_setObjectsHighlighted sc ->
              xrayOne sc' (has_setObjectsXRayed r)
                (selectedArray (objects sc)) b'
                (xrayOne sc (has_setObjectsXRayed r)
                   (selectedArray (objects sc)) b e)
              = xrayOne sc (has_setObjectsXRayed r)
                  (selectedArray (objects sc)) b' e),
              setXrayMode b' (setXrayMode b r) = setXrayMode b' r).
    { intros b b' Hpt.
      rewrite (setXrayMode_ready sc m r b Hsc Hm).
      set (objs1 := map (xrayOne sc (has_setObjectsXRayed r)
                           (selectedArray (objects sc)) b) (objects sc)).
      rewrite (setXrayMode_ready (set_objects objs1 sc) m _ b');
        [|cbn; by rewrite Hsc|by cbn].
      rewrite (setXrayMode_ready sc m r b' Hsc Hm).
      cbn [r_viewer has_setObjectsXRayed has_setObjectsEdges xrayedObjects
           edgeObjects objects set_objects].
      rewrite withObjects_twice.
      assert (Hk : keys objs1 = keys (objects sc)).
      { apply keys_map. intros e. apply xrayOne_id. }
      assert (Hs : selectedArray objs1 = selectedArray (objects sc)).
      { apply selectedArray_map; intros e;
          [apply xrayOne_id | apply xrayOne_selected]. }
      rewrite Hk, Hs. f_equal.
      + f_equal. unfold objs1. rewrite map_map. apply map_ext. intros e.
        by apply Hpt.
      + destruct (has_setObjectsXRayed r); [|done]. apply setFlagged_twice. }
    split; apply Hstep; intros sc' e Hc Hh.
    + by apply xrayOne_off.
    + by apply xrayOne_on.
  - assert (Hn : forall b, setXrayMode b r = r)
      by (intros b; apply (modes_not_ready Page.solid b r); auto).
    by rewrite !Hn.
  - assert (Hn : forall b, setXrayMode b r = r)
      by (intros b; apply (modes_not_ready Page.solid b r); auto).
    by rewrite !Hn.
Qed.

(** ** From the page to the engine *)

Lemma batchMounted_withObjects m sc objs v :
  viewerScene v = Some sc -> has_setObjectsVisible sc = true ->
  modelRef v = Some m -> batchMounted m (withObjects objs v).
Proof.
  intros Hsc Hb Hm. split; [done|]. exists (set_objects objs sc).
  unfold withObjects. cbn. by rewrite Hsc.
Qed.

Lemma batchMounted_visibility m ids isolated v :
  batchMounted m v ->
  batchMounted m (hideElements ids v) /\ batchMounted m (showElements ids v)
  /\ batchMounted m (isolateElements isolated v).
Proof.
  intros (Hm & sc & Hsc & Hb).
  rewrite (hideElements_ready sc m v ids Hsc Hm),
    (showElements_ready sc m v ids Hsc Hm),
    (isolateElements_ready sc m v isolated Hsc Hm).
  repeat split; by apply (batchMounted_withObjects m sc).
Qed.

Lemma batchMounted_select m ids v :
  batchMounted m v -> batchMounted m (selectElements ids v).
Proof.
  intros (Hm & sc & Hsc & Hb).
  destruct (selectElements_ready sc m v ids Hsc Hm)
    as (restored & _ & Hsc' & Hm' & _).
  split; [done|]. eexists. split; [exact Hsc'|done].
Qed.

Lemma allVisible_isolate_none m v :
  batchMounted m v -> allVisible (isolateElements None v).
Proof.
  intros (Hm & sc & Hsc & Hb). unfold allVisible.
  rewrite (isolateElements_ready sc m v None Hsc Hm).
  rewrite (liveObjects_withObjects sc) by done.
  apply Forall_fmap, Forall_forall. intros e _. unfold compose.
  cbn [isolateOne]. unfold onMember.
  case_bool_decide;
    rewrite ?(proj1 (proj2 (proj2 (proj2 (reselectOne_frame sc _)))));
    rewrite visibleOne_visible; unfold visibilityWritable; rewrite Hb;
    by rewrite !orb_true_r.
Qed.

Lemma allVisible_show ids v : allVisible v -> allVisible (showElements ids v).
Proof.
  intros Hall.
  destruct (viewerScene v) as [sc|] eqn:Hsc;
    [destruct (modelRef v) as [m|] eqn:Hm|].
  - unfold allVisible in *.
    rewrite (showElements_ready sc m v ids Hsc Hm).
    rewrite (liveObjects_withObjects sc) by done.
    unfold liveObjects in Hall. rewrite Hsc in Hall.
    apply Forall_fmap. eapply Forall_impl; [exact Hall|].
    intros e He. unfold compose, showOne, onMember.
    repeat case_bool_decide;
      rewrite ?(proj1 (proj2 (proj2 (proj2 (repaintOne_frame sc _)))));
      rewrite ?visibleOne_visible; try done;
      by destruct (visibilityWritable sc m e).
  - by destruct (visibility_not_ready ids None v) as (_ & -> & _); auto.
  - by destruct (visibility_not_ready ids None v) as (_ & -> & _); auto.
Qed.

Lemma selectElements_visible ids v :
  map visible (liveObjects (selectElements ids v)) = map visible (liveObjects v).
Proof.
  apply selectElements_preserves.
  - intros sc c e.
    unfold restoreEntityColor, sceneColorizeOne, restoreMaterial, writeColorize.
    repeat case_match; done.
  - intros sc e. unfold highlightEntity, sceneColorizeOne.
    repeat case_match; done.
  - done.
  - done.
Qed.

Lemma Forall_map_eq {A B} (g : A -> B) (P : B -> Prop) l k :
  map g l = map g k -> Forall (fun x => P (g x)) k -> Forall (fun x => P (g x)) l.
Proof.
  revert k. induction l as [|x l IH]; intros k Heq Hk; [constructor|].
  destruct k as [|y k]; [discriminate|]. injection Heq as Hx Heq.
  inversion Hk; subst. constructor; [by rewrite Hx | by apply (IH k)].
Qed.

Lemma allVisible_select ids v : allVisible v -> allVisible (selectElements ids v).
Proof.
  unfold allVisible. intros Hall.
  apply (Forall_map_eq visible (fun b => b = true) _ (liveObjects v));
    [apply selectElements_visible | done].
Qed.

(** A viewer on which everything is shown and nothing is selected. *)
Lemma select_none_prev m v :
  batchMounted m v -> previouslySelectedEntities (selectElements [] v) = [].
Proof.
  intros (Hm & sc & Hsc & _).
  destruct (selectElements_ready sc m v [] Hsc Hm)
    as (restored & _ & _ & _ & Hprev & _).
  by rewrite Hprev.
Qed.

Lemma visibility_prev ids isolated v :
  previouslySelectedEntities (showElements ids v)
  = previouslySelectedEntities v
  /\ previouslySelectedEntities (isolateElements isolated v)
     = previouslySelectedEntities v.
Proof.
  destruct (viewerScene v) as [sc|] eqn:Hsc;
    [destruct (modelRef v) as [m|] eqn:Hm|].
  - by rewrite (showElements_ready sc m v ids Hsc Hm),
      (isolateElements_ready sc m v isolated Hsc Hm).
  - by destruct (visibility_not_ready ids isolated v) as (_ & -> & ->); auto.
  - by destruct (visibility_not_ready ids isolated v) as (_ & -> & ->); auto.
Qed.

Lemma syncVisibility_nothing_hidden m v :
  batchMounted m v -> allVisible v ->
  exists v',
    syncVisibility [] None v = Some v'
    /\ batchMounted m v' /\ allVisible v'
    /\ previouslySelectedEntities v' = previouslySelectedEntities v.
Proof.
  intros (Hm & sc & Hsc & Hb) Hall. unfold syncVisibility.
  rewrite Hsc, Hm, Hb, orb_true_r. eexists. split; [reflexivity|].
  split; [|split; [|done]].
  { split; [done|]. eexists. split; [reflexivity|done]. }
  unfold allVisible, liveObjects in *. rewrite Hsc in Hall.
  cbn [viewerScene objects set_objects].
  rewrite !batch_or_nothing.
  set (toShow := objectsToShow m [] (objects sc)).
  set (toHide := objectsToHide m [] (objects sc)).
  assert (Hnone : toHide = []).
  { unfold toHide, objectsToHide.
    induction (ownObjects m (objects sc)) as [|k ks IH]; [done|].
    rewrite filter_cons_False; [exact IH | apply not_elem_of_nil]. }
  rewrite Hnone, onMembers_nil.
  set (o2 := onMembers toShow (set_visible true) (objects sc)).
  assert (Ho2 : Forall (fun e => visible e = true) o2).
  { unfold o2, onMembers. apply Forall_fmap.
    eapply Forall_impl; [exact Hall|]. intros e He. unfold compose.
    by case_bool_decide. }
  apply (Forall_map_eq visible (fun b => b = true) _ o2); [|exact Ho2].
  destruct (selectedArray o2) as [|s ss]; [done|].
  destruct (filter _ (s :: ss)) as [|h hs]; [done|].
  destruct (has_setObjectsColorized sc); [|done].
  unfold setObjectsColorized. by apply map_forEachUpd_preserved.
Qed.



Lemma rerender_clean m fresh old new v :
  selectedElementIds new = [] -> hiddenElementIds new = [] ->
  isolatedElementIds new = None ->
  batchMounted m v -> allVisible v -> previouslySelectedEntities v = [] ->
  exists v',
    rerender fresh old new v = Some v'
    /\ batchMounted m v' /\ allVisible v'
    /\ previouslySelectedEntities v' = [].
Proof.
  intros Hs Hh Hi Hmount Hall Hprev. unfold rerender. rewrite Hs, Hh, Hi.
  generalize (arrayChanged (freshSelected fresh) (selectedElementIds old) []).
  generalize (arrayChanged (freshHidden fresh) (hiddenElementIds old) []).
  generalize (nullableChanged (freshIsolated fresh)
                (isolatedElementIds old) None).
  intros isolationChanged hiddenChanged selectionChanged.
  set (v1 := if selectionChanged then syncSelection [] v else v).
  assert (H1 : batchMounted m v1 /\ allVisible v1
               /\ previouslySelectedEntities v1 = []).
  { unfold v1. destruct selectionChanged; [|done].
    assert (Hsel : syncSelection [] v = selectElements [] v).
    { unfold syncSelection. destruct Hmount as (-> & sc & -> & _). done. }
    rewrite Hsel. split; [by apply batchMounted_select|].
    split; [by apply allVisible_select | by apply (select_none_prev m)]. }
  clearbody v1. destruct H1 as (Hmount1 & Hall1 & Hprev1).
  destruct (syncVisibility_nothing_hidden m v1 Hmount1 Hall1)
    as (vs & Hvs & Hmount2 & Hall2 & Hprev2).
  set (v2 := if hiddenChanged || isolationChanged
             then syncVisibility [] None v1 else Some v1).
  assert (H2 : exists w, v2 = Some w /\ batchMounted m w /\ allVisible w
                         /\ previouslySelectedEntities w = []).
  { unfold v2. destruct (hiddenChanged || isolationChanged).
    - exists vs. by rewrite Hprev2.
    - by exists v1. }
  clearbody v2. destruct H2 as (w & -> & Hmountw & Hallw & Hprevw).
  eexists. split; [reflexivity|]. destruct isolationChanged; [|done].
  assert (Hiso : syncIsolation None w = isolateElements None w).
  { unfold syncIsolation. destruct Hmountw as (-> & sc & -> & _). done. }
  rewrite Hiso.
  split; [exact (proj2 (proj2 (batchMounted_visibility m [] None w Hmountw)))|].
  split; [by apply (allVisible_isolate_none m)|].
  by rewrite (proj2 (visibility_prev [] None w)).
Qed.

(** X21. The reset button, from the click to the end of the render it
    causes, on a page attached to a viewer whose model is loaded and
    whose scene has [setObjectsVisible]: the page holds no selection,
    no hidden ids and no isolation, every live object of the engine is
    visible and no entity is recorded as selected, whatever was hidden,
    isolated or selected before, and whichever of the arrays React
    takes for new. *)
Theorem reset_shows_everything (m : Model) (fresh : Fresh)
  (p : Page.PageState) (r : Render) :
  Page.viewerAttached p = true -> batchMounted m (r_viewer r) ->
  exists r',
    dispatch fresh PageOps.handleReset (p, r)
    = Some ((PageOps.handleReset p).1, r')
    /\ Page.selectedElementIds (PageOps.handleReset p).1 = []
    /\ Page.hiddenElementIds (PageOps.handleReset p).1 = []
    /\ Page.isolatedElementIds (PageOps.handleReset p).1 = None
    /\ allVisible (r_viewer r')
    /\ previouslySelectedEntities (r_viewer r') = [].
Proof.
  intros Hatt Hmount. unfold dispatch. cbn [fst snd].
  set (p' := (PageOps.handleReset p).1).
  set (r0 := PageOps.runCalls (PageOps.handleReset p).2 r).
  assert (H0 : batchMounted m (r_viewer r0) /\ allVisible (r_viewer r0)
               /\ previouslySelectedEntities (r_viewer r0) = []).
  { unfold r0, PageOps.handleReset, PageOps.onViewer. rewrite Hatt.
    cbn [snd]. unfold PageOps.runCalls.
    pose proof (allVisible_isolate_none m _ Hmount) as Hall.
    destruct (batchMounted_visibility m [] None _ Hmount) as (_ & _ & Hmi).
    destruct (Page.hiddenElementIds p) as [|h hs];
      cbn [app foldl PageOps.runCall withViewer r_viewer].
    - split; [by apply batchMounted_select|].
      split; [by apply allVisible_select | by apply (select_none_prev m)].
    - destruct (batchMounted_visibility m (h :: hs) None _ Hmi)
        as (_ & Hms & _).
      split; [by apply batchMounted_select|].
      split; [by apply allVisible_select, allVisible_show
             | by apply (select_none_prev m)]. }
  clearbody r0. destruct H0 as (Hmount0 & Hall0 & Hprev0).
  unfold react.
  destruct (rerender_clean m fresh (propsOfPage p) (propsOfPage p')
              (r_viewer r0))
    as (v' & -> & _ & Hall' & Hprev'); try done.
  assert (Hx : Page.xrayMode p' = Page.xrayMode p) by done.
  assert (Hd : Page.displayMode p' = Page.displayMode p) by done.
  rewrite Hx, Hd, Bool.eqb_reflx.
  assert (Hsame : sameMode (Page.displayMode p) (Page.displayMode p) = true)
    by (by destruct (Page.displayMode p)).
  rewrite Hsame. cbn [fmap option_fmap option_map].
  eexists. split; [reflexivity|]. by repeat split.
Qed.

Lemma reset_shows_everything_witness :
  exists r',
    dispatch {| freshSelected := true; freshHidden := true;
                freshIsolated := false |} PageOps.handleReset
      (PageOps.withHidden ["B"] (loadedPage ["A"]),
       renderOf (hideElements ["B"] (selectElements ["A"] abcdViewer)))
    = Some ((PageOps.handleReset
               (PageOps.withHidden ["B"] (loadedPage ["A"]))).1, r')
    /\ allVisible (r_viewer r')
    /\ previouslySelectedEntities (r_viewer r') = [].
Proof.
  destruct (reset_shows_everything (sampleModel "m")
              {| freshSelected := true; freshHidden := true;
                 freshIsolated := false |}
              (PageOps.withHidden ["B"] (loadedPage ["A"]))
              (renderOf (hideElements ["B"] (selectElements ["A"] abcdViewer))))
    as (r' & H1 & _ & _ & _ & H2 & H3).
  - reflexivity.
  - split; [reflexivity|]. eexists. split; reflexivity.
  - exists r'. by repeat split.
Defined.





(** ** The modifier key *)

Lemma trackModifier_otherKeys b evs :
  forallb otherKey evs = true -> foldl trackModifier b evs = b.
Proof.
  revert b. induction evs as [|ev evs IH]; intros b Hevs; [done|].
  cbn [forallb] in Hevs. apply andb_true_iff in Hevs as [Hev Hevs].
  cbn [foldl]. rewrite IH by done.
  destruct ev as [key|key|c mt]; cbn in *; [| |done];
    by destruct (isModifierKey key).
Qed.

(** X23. A mouse-down on the canvas resynchronises the modifier state:
    after it, and after any keys other than Control and Meta going down
    or up, [isCtrlPressed] is what that mouse event carried, whatever
    was pressed or released before it. *)
Theorem modifier_follows_last_mousedown (b0 : bool)
  (before after : list InputEvent) (ctrlKey metaKey : bool) :
  forallb otherKey after = true ->
  foldl trackModifier b0 (before ++ MouseDown ctrlKey metaKey :: after)%list
  = ctrlKey || metaKey.
Proof.
  intros Hafter. rewrite foldl_app. cbn [foldl trackModifier].
  by apply trackModifier_otherKeys.
Qed.

Lemma modifier_follows_last_mousedown_witness :
  foldl trackModifier false
    ([KeyDown "Control"] ++ MouseDown false false :: [KeyUp "a"])%list
  = false || false.
Proof.
  apply (modifier_follows_last_mousedown false [KeyDown "Control"]
           [KeyUp "a"] false false).
  reflexivity.
Defined.

(** ** Isolation before hiding *)







